(** * CurationsLA content pipeline: a shallow embedding and its properties

    The development embeds the content-sourcing worker
    ([src/content-sourcer.js], the variant that reads [config/sources.json])
    and the master router (the second worker file, whose helpers are
    [parseRSSFeed], [filterGoodVibes], [cleanHtml], [extractDomain]) and
    proves properties of the classifier, the token minting routine, the
    item extractors, the digest composer and the sourcing loops.

    Conventions of the embedding.
    - A JavaScript string is a [string]: a sequence of code units below 256.
      This is the range on which [btoa] is defined; [toLowerCase], [trim]
      and the regular-expression character classes are given on that range.
    - A value that is either a string or [undefined] is an [option string].
    - A JavaScript exception is the [Throw] case of the result type [Exc].
    - Platform services ([fetch], the key-value store, [Math.random],
      [Date], [crypto.randomUUID], the [URL] parser) are explicit inputs. *)

From Stdlib Require Import ZArith NArith QArith Lia List Ascii String DecimalString Bool.
From stdpp Require Import gmap strings.

Local Open Scope Z_scope.

(* ===================================================================== *)
(** * Part I: the embedding *)
(* ===================================================================== *)

Module JS.

(** ** Results of computations that may throw *)

Inductive Exc (A : Type) : Type :=
| Ok (a : A)
| Throw (error : string).
Arguments Ok {A} a.
Arguments Throw {A} error.

Definition exc_bind {A B} (m : Exc A) (k : A -> Exc B) : Exc B :=
  match m with
  | Ok a => k a
  | Throw e => Throw e
  end.

#[global] Instance Exc_ret : MRet Exc := fun _ a => Ok a.
#[global] Instance Exc_bind : MBind Exc := fun _ _ k m => exc_bind m k.

(** [try { body } catch { handler }] *)
Definition try_catch {A} (body : Exc A) (handler : string -> Exc A) : Exc A :=
  match body with
  | Ok a => Ok a
  | Throw e => handler e
  end.

(** ** Values: a string or [undefined] *)

Definition jsval := option string.

(** Template-literal and concatenation rendering of a value. *)
Definition to_string (v : jsval) : string :=
  match v with
  | Some s => s
  | None => "undefined"
  end.

(** Truthiness of a string-or-undefined value. *)
Definition truthy (v : jsval) : bool :=
  match v with
  | Some "" => false
  | Some _ => true
  | None => false
  end.

(** [a || b] on string-or-undefined values. *)
Definition or_else (a b : jsval) : jsval := if truthy a then a else b.

(** ** String primitives *)

Definition code (c : ascii) : N := N_of_ascii c.

Definition in_range (lo hi n : N) : bool := ((lo <=? n) && (n <=? hi))%N.

(** [toLowerCase] on one code unit below 256: A-Z, and the Latin-1 capitals
    U+00C0..U+00DE except the multiplication sign U+00D7. *)
Definition toLowerChar (c : ascii) : ascii :=
  let n := code c in
  if in_range 65 90 n || (in_range 192 222 n && negb (n =? 215)%N)
  then ascii_of_N (n + 32) else c.

Fixpoint toLowerCase (s : string) : string :=
  match s with
  | EmptyString => EmptyString
  | String c s' => String (toLowerChar c) (toLowerCase s')
  end.

(** [s.includes(t)] *)
Fixpoint includes (s t : string) : bool :=
  String.prefix t s ||
  match s with
  | EmptyString => false
  | String _ s' => includes s' t
  end.

(** [s.substring(0, n)] *)
Definition substring0 (n : nat) (s : string) : string := String.substring 0 n s.

(** White space and line terminators removed by [trim], below 256. *)
Definition is_space (c : ascii) : bool :=
  let n := code c in in_range 9 13 n || (n =? 32)%N || (n =? 160)%N.

Fixpoint trimStart (s : string) : string :=
  match s with
  | EmptyString => EmptyString
  | String c s' => if is_space c then trimStart s' else s
  end.

(** Removes trailing white space: the string is rebuilt from its end. *)
Fixpoint trimEnd (s : string) : string :=
  match s with
  | EmptyString => EmptyString
  | String c s' =>
      match trimEnd s' with
      | EmptyString => if is_space c then EmptyString else String c EmptyString
      | r => String c r
      end
  end.

Definition trim (s : string) : string := trimEnd (trimStart s).

(** [s.split(sep)] for a one-character separator. *)
Fixpoint split (sep : ascii) (s : string) : list string :=
  match s with
  | EmptyString => [EmptyString]
  | String c s' =>
      if Ascii.eqb c sep then EmptyString :: split sep s'
      else match split sep s' with
           | h :: t => String c h :: t
           | [] => [String c EmptyString]
           end
  end.

(** The string without its first [n] code units. *)
Fixpoint drop (n : nat) (s : string) : string :=
  match n, s with
  | O, _ => s
  | S n', String _ s' => drop n' s'
  | S _, EmptyString => EmptyString
  end.

(** [s.replace(pat, repl)] for a string pattern: the first occurrence only. *)
Fixpoint replace_first (pat repl s : string) : string :=
  if String.prefix pat s then repl +:+ drop (String.length pat) s
  else match s with
       | EmptyString => EmptyString
       | String c s' => String c (replace_first pat repl s')
       end.

(** [s.replace(/c/g, repl)] for a pattern that is one literal character. *)
Fixpoint replace_char (c : ascii) (repl : string) (s : string) : string :=
  match s with
  | EmptyString => EmptyString
  | String x s' =>
      if Ascii.eqb x c then repl +:+ replace_char c repl s'
      else String x (replace_char c repl s')
  end.

(** Decimal rendering of an integer, as [JSON.stringify] and template
    literals print integers of this size. *)
Definition decimal (z : Z) : string := NilZero.string_of_int (Z.to_int z).

(** ** Regular expressions

    The fragment of the regular-expression language that the two workers
    use: literal text, repetition of a one-character class (greedy or
    lazy, with a minimum count), capture groups, sequence and alternation.
    Matching is the backtracking, leftmost, priority-ordered matching of
    [RegExp.prototype.exec], written in continuation-passing style. *)

Inductive charset : Type :=
| CAny                (* [\s\S] : every code unit *)
| CDot                (* .      : every code unit but a line terminator *)
| CNot (c : ascii).   (* [^c] *)

Definition charset_mem (cs : charset) (x : ascii) : bool :=
  match cs with
  | CAny => true
  | CDot => negb ((code x =? 10)%N || (code x =? 13)%N)
  | CNot c => negb (Ascii.eqb x c)
  end.

Inductive regex : Type :=
| Lit (text : string)
| Rep (greedy : bool) (min : nat) (cs : charset)
| Grp (index : nat) (r : regex)
| Seq (r1 r2 : regex)
| Alt (r1 r2 : regex).

(** Canonicalisation of the [i] flag on one code unit: upper case. The
    patterns' own letters are ASCII, and a code unit from 128 up never
    canonicalises to an ASCII letter. *)
Definition canonicalize (c : ascii) : ascii :=
  let n := code c in
  if in_range 97 122 n then ascii_of_N (n - 32) else c.

Definition char_matches (ignoreCase : bool) (p x : ascii) : bool :=
  if ignoreCase then Ascii.eqb (canonicalize p) (canonicalize x) else Ascii.eqb p x.

(** Capture array: slot 0 is the whole match, slot [i] is group [i]. *)
Definition captures := list jsval.

Fixpoint set_capture (i : nat) (v : jsval) (caps : captures) : captures :=
  match i, caps with
  | O, [] => [v]
  | O, _ :: t => v :: t
  | S i', [] => None :: set_capture i' v []
  | S i', h :: t => h :: set_capture i' v t
  end.

Definition get_capture (caps : captures) (i : nat) : jsval := nth i caps None.

Section Matcher.
Context {R : Type}.
Variable ignoreCase : bool.

(** Consumes the literal [p] in front of [s]; [n] counts consumed units. *)
Fixpoint match_lit (p s : string) (n : nat) (k : string -> nat -> option R) : option R :=
  match p with
  | EmptyString => k s n
  | String a p' =>
      match s with
      | String x s' => if char_matches ignoreCase a x then match_lit p' s' (S n) k else None
      | EmptyString => None
      end
  end.

(** Greedy repetition: take a unit first, fall back to stopping here. *)
Fixpoint rep_greedy (cs : charset) (min : nat) (s : string) (n : nat)
    (k : string -> nat -> option R) : option R :=
  let stop := match min with O => k s n | S _ => None end in
  match s with
  | String x s' =>
      if charset_mem cs x then
        match rep_greedy cs (Nat.pred min) s' (S n) k with
        | Some r => Some r
        | None => stop
        end
      else stop
  | EmptyString => stop
  end.

(** Lazy repetition: stop here first, fall back to taking one more unit. *)
Fixpoint rep_lazy (cs : charset) (min : nat) (s : string) (n : nat)
    (k : string -> nat -> option R) : option R :=
  let more :=
    match s with
    | String x s' => if charset_mem cs x then rep_lazy cs (Nat.pred min) s' (S n) k else None
    | EmptyString => None
    end in
  match min with
  | O => match k s n with
         | Some r => Some r
         | None => more
         end
  | S _ => more
  end.

Fixpoint run (r : regex) (s : string) (n : nat) (caps : captures)
    (k : string -> nat -> captures -> option R) : option R :=
  match r with
  | Lit p => match_lit p s n (fun s' n' => k s' n' caps)
  | Rep greedy min cs =>
      (if greedy then rep_greedy else rep_lazy) cs min s n (fun s' n' => k s' n' caps)
  | Grp i r1 =>
      run r1 s n caps
        (fun s' n' caps' => k s' n' (set_capture i (Some (substring0 (n' - n) s)) caps'))
  | Seq r1 r2 => run r1 s n caps (fun s' n' caps' => run r2 s' n' caps' k)
  | Alt r1 r2 =>
      match run r1 s n caps k with
      | Some x => Some x
      | None => run r2 s n caps k
      end
  end.

End Matcher.

(** One attempt at the front of [s]: the length matched and the capture
    array, slot 0 filled with the matched text. *)
Definition match_here (ignoreCase : bool) (r : regex) (s : string) : option (nat * captures) :=
  run ignoreCase r s O []
    (fun _ n caps => Some (n, set_capture 0 (Some (substring0 n s)) caps)).

(** [r.exec(s)] and [s.match(r)] for a pattern without the [g] flag: the
    leftmost match, as its capture array, or [None] for [null]. *)
Fixpoint exec (ignoreCase : bool) (r : regex) (s : string) : option captures :=
  match match_here ignoreCase r s with
  | Some (_, caps) => Some caps
  | None =>
      match s with
      | EmptyString => None
      | String _ s' => exec ignoreCase r s'
      end
  end.

(** The successive matches of a pattern with the [g] flag, left to right
    and not overlapping: what the [while (r.exec(s))] loop visits and,
    slot 0 of each, what [s.match(r)] returns. [skip] counts the units of
    the previous match still to step over; after an empty match the scan
    advances by one unit. *)
Fixpoint scan (ignoreCase : bool) (r : regex) (skip : nat) (s : string) : list captures :=
  match skip with
  | S skip' =>
      match s with
      | EmptyString => []
      | String _ s' => scan ignoreCase r skip' s'
      end
  | O =>
      match match_here ignoreCase r s with
      | Some (len, caps) =>
          caps :: match s with
                  | EmptyString => []
                  | String _ s' => scan ignoreCase r (Nat.pred len) s'
                  end
      | None =>
          match s with
          | EmptyString => []
          | String _ s' => scan ignoreCase r O s'
          end
      end
  end.

Definition exec_all (ignoreCase : bool) (r : regex) (s : string) : list captures :=
  scan ignoreCase r O s.

(** [s.match(r)] with the [g] flag, followed by [|| []]. *)
Definition match_all (ignoreCase : bool) (r : regex) (s : string) : list string :=
  map (fun caps => to_string (get_capture caps 0)) (exec_all ignoreCase r s).

(** [s.replace(r, repl)] with the [g] flag and a replacement text without
    substitution patterns. *)
Fixpoint replace_scan (ignoreCase : bool) (r : regex) (repl : string) (skip : nat) (s : string)
    : string :=
  match skip with
  | S skip' =>
      match s with
      | EmptyString => EmptyString
      | String _ s' => replace_scan ignoreCase r repl skip' s'
      end
  | O =>
      match match_here ignoreCase r s with
      | Some (S len, _) =>
          repl +:+ match s with
                   | EmptyString => EmptyString
                   | String _ s' => replace_scan ignoreCase r repl len s'
                   end
      | Some (O, _) =>
          repl +:+ match s with
                   | EmptyString => EmptyString
                   | String c s' => String c (replace_scan ignoreCase r repl O s')
                   end
      | None =>
          match s with
          | EmptyString => EmptyString
          | String c s' => String c (replace_scan ignoreCase r repl O s')
          end
      end
  end.

Definition replace_all (ignoreCase : bool) (r : regex) (repl s : string) : string :=
  replace_scan ignoreCase r repl O s.

(** Reading slot [i] of a match result that may be [null]: a property
    read on [null] throws. *)
Definition index (m : option captures) (i : nat) : Exc jsval :=
  match m with
  | Some caps => Ok (get_capture caps i)
  | None => Throw "TypeError"
  end.

(** Calling a string method on a value: on [undefined] the call throws. *)
Definition method {A} (f : string -> A) (v : jsval) : Exc A :=
  match v with
  | Some s => Ok (f s)
  | None => Throw "TypeError"
  end.

(** ** Characters that a string literal cannot hold directly *)

Definition dquote : string := String "034"%char EmptyString.
Definition newline : string := String "010"%char EmptyString.
Definition backslash : string := String "092"%char EmptyString.

(** ** [JSON.stringify] of strings and of the two token objects *)

Definition hex_digit (n : N) : ascii :=
  if (n <? 10)%N then ascii_of_N (48 + n) else ascii_of_N (87 + n).

Definition json_escape_char (c : ascii) : string :=
  let n := code c in
  if (n =? 34)%N then backslash +:+ dquote
  else if (n =? 92)%N then backslash +:+ backslash
  else if (n =? 8)%N then backslash +:+ "b"
  else if (n =? 12)%N then backslash +:+ "f"
  else if (n =? 10)%N then backslash +:+ "n"
  else if (n =? 13)%N then backslash +:+ "r"
  else if (n =? 9)%N then backslash +:+ "t"
  else if (n <? 32)%N then
    backslash +:+ "u00" +:+ String (hex_digit (n / 16)) (String (hex_digit (n mod 16)) EmptyString)
  else String c EmptyString.

Fixpoint json_escape (s : string) : string :=
  match s with
  | EmptyString => EmptyString
  | String c s' => json_escape_char c +:+ json_escape s'
  end.

Definition json_string (s : string) : string := dquote +:+ json_escape s +:+ dquote.

(** A member [,"key":"value"] that is left out when the value is [undefined]. *)
Definition json_member (key : string) (v : jsval) : string :=
  match v with
  | Some s => "," +:+ json_string key +:+ ":" +:+ json_string s
  | None => EmptyString
  end.

(** ** [btoa]: base64 with padding

    A sextet is written most significant bit first. *)

Definition sextet : Type := bool * bool * bool * bool * bool * bool.

Definition bit (b : bool) (weight : N) : N := if b then weight else 0%N.

Definition sextet_value (x : sextet) : N :=
  let '(b5, b4, b3, b2, b1, b0) := x in
  (bit b5 32 + bit b4 16 + bit b3 8 + bit b2 4 + bit b1 2 + bit b0 1)%N.

Definition base64_char (x : sextet) : ascii :=
  let n := sextet_value x in
  if (n <? 26)%N then ascii_of_N (65 + n)
  else if (n <? 52)%N then ascii_of_N (71 + n)
  else if (n <? 62)%N then ascii_of_N (n - 4)
  else if (n =? 62)%N then "+"%char
  else "/"%char.

Fixpoint btoa (s : string) : string :=
  match s with
  | EmptyString => EmptyString
  | String (Ascii a0 a1 a2 a3 a4 a5 a6 a7) EmptyString =>
      String (base64_char (a7, a6, a5, a4, a3, a2))
        (String (base64_char (a1, a0, false, false, false, false)) "==")
  | String (Ascii a0 a1 a2 a3 a4 a5 a6 a7) (String (Ascii b0 b1 b2 b3 b4 b5 b6 b7) EmptyString) =>
      String (base64_char (a7, a6, a5, a4, a3, a2))
        (String (base64_char (a1, a0, b7, b6, b5, b4))
           (String (base64_char (b3, b2, b1, b0, false, false)) "="))
  | String (Ascii a0 a1 a2 a3 a4 a5 a6 a7)
      (String (Ascii b0 b1 b2 b3 b4 b5 b6 b7) (String (Ascii c0 c1 c2 c3 c4 c5 c6 c7) rest)) =>
      String (base64_char (a7, a6, a5, a4, a3, a2))
        (String (base64_char (a1, a0, b7, b6, b5, b4))
           (String (base64_char (b3, b2, b1, b0, c7, c6))
              (String (base64_char (c5, c4, c3, c2, c1, c0)) (btoa rest))))
  end.

End JS.

Notation "r1 ~> r2" := (JS.Seq r1 r2) (at level 60, right associativity).

(* ===================================================================== *)
(** ** Strings of any code units *)
(* ===================================================================== *)

Module Wide.
Import JS.
Local Open Scope N_scope.

(** A JavaScript string as the list of its UTF-16 code units. The strings
    of [JS] are those whose code units are all below 256. *)
Definition units : Type := list N.

Fixpoint widen (s : string) : units :=
  match s with
  | EmptyString => []
  | String c s' => code c :: widen s'
  end.

(** The string of [JS] with these code units, if all are below 256. *)
Fixpoint narrow (u : units) : option string :=
  match u with
  | [] => Some EmptyString
  | x :: rest =>
      if x <? 256 then
        match narrow rest with
        | Some s => Some (String (ascii_of_N x) s)
        | None => None
        end
      else None
  end.

(** [s.split(sep)] for a separator of one code unit. *)
Fixpoint split (sep : N) (u : units) : list units :=
  match u with
  | [] => [[]]
  | x :: rest =>
      if x =? sep then [] :: split sep rest
      else match split sep rest with
           | h :: t => (x :: h) :: t
           | [] => [[x]]
           end
  end.

(** The two halves of a surrogate pair. *)
Definition is_high (x : N) : bool := in_range 55296 56319 x.
Definition is_low (x : N) : bool := in_range 56320 57343 x.

(** The escape [\uXXXX] of a code unit, in lower-case hexadecimal. *)
Definition escape_unit (x : N) : units :=
  widen (backslash +:+ "u"
           +:+ String (hex_digit (x / 4096))
                 (String (hex_digit ((x / 256) mod 16))
                    (String (hex_digit ((x / 16) mod 16))
                       (String (hex_digit (x mod 16)) EmptyString)))).

(** What [JSON.stringify] writes between the quotes of a string: the
    escapes of [JS.json_escape_char] below 256, a surrogate pair and every
    other code unit as it is, a surrogate without its partner escaped. *)
Fixpoint json_escape (u : units) : units :=
  match u with
  | [] => []
  | x :: rest =>
      if is_high x then
        match rest with
        | y :: rest' =>
            if is_low y then x :: y :: json_escape rest'
            else escape_unit x ++ json_escape rest
        | [] => escape_unit x
        end
      else if is_low x then escape_unit x ++ json_escape rest
      else if x <? 256 then widen (json_escape_char (ascii_of_N x)) ++ json_escape rest
      else x :: json_escape rest
  end.

(** [btoa(s)]: it throws on a code unit above 255. *)
Definition btoa (u : units) : Exc string :=
  match narrow u with
  | Some s => Ok (JS.btoa s)
  | None => Throw "InvalidCharacterError"
  end.

(** Template-literal rendering of a string or [undefined]. *)
Definition to_units (v : option units) : units :=
  match v with
  | Some u => u
  | None => widen "undefined"
  end.

End Wide.


(* ===================================================================== *)
(** ** The master router (second worker file) *)
(* ===================================================================== *)

Module Router.
Import JS.

Record Item : Type := {
  title : string;
  link : string;
  excerpt : string;
  source : string
}.

(** *** Token minting: [generateGhostJWT] and [base64urlEscape] *)

Definition base64urlEscape (str : string) : string :=
  replace_char "=" "" (replace_char "/" "_" (replace_char "+" "-" str)).

(** [JSON.stringify(header)] for [{alg: 'HS256', typ: 'JWT', kid: id}]. *)
Definition stringify_header (id : jsval) : string :=
  "{" +:+ json_string "alg" +:+ ":" +:+ json_string "HS256"
      +:+ "," +:+ json_string "typ" +:+ ":" +:+ json_string "JWT"
      +:+ json_member "kid" id +:+ "}".

(** [JSON.stringify(payload)] for [{iat, exp, aud: '/admin/'}]. *)
Definition stringify_payload (iat exp : Z) : string :=
  "{" +:+ json_string "iat" +:+ ":" +:+ decimal iat
      +:+ "," +:+ json_string "exp" +:+ ":" +:+ decimal exp
      +:+ "," +:+ json_string "aud" +:+ ":" +:+ json_string "/admin/" +:+ "}".

Definition encodedHeader (id : jsval) : string :=
  base64urlEscape (btoa (stringify_header id)).

(** [now] is the value of [Date.now()], in milliseconds. *)
Definition encodedPayload (now : Z) : string :=
  base64urlEscape (btoa (stringify_payload (now / 1000) (now / 1000 + 5 * 60))).

(** The "signature": the two segments and the secret, joined by dots and
    base64url-encoded. *)
Definition signature (id secret : jsval) (now : Z) : string :=
  base64urlEscape
    (btoa (encodedHeader id +:+ "." +:+ encodedPayload now +:+ "." +:+ to_string secret)).

(** [generateGhostJWT] on a key whose code units are all below 256, where
    [btoa] does not throw, and with both reads of [Date.now()] returning
    [now]; [generateGhostJWT_wide] below is the function on any key. *)
Definition generateGhostJWT (adminAPIKey : string) (now : Z) : string :=
  let parts := split ":" adminAPIKey in
  let id := nth_error parts 0 in
  let secret := nth_error parts 1 in
  encodedHeader id +:+ "." +:+ encodedPayload now +:+ "." +:+ signature id secret now.

(** *** Item extraction: [cleanHtml], [extractDomain], [parseRSSFeed] *)

(** [/<[^>]*>/g] *)
Definition tagPattern : regex := Lit "<" ~> Rep true 0 (CNot ">") ~> Lit ">".
(** [/&[^;]+;/g] *)
Definition entityPattern : regex := Lit "&" ~> Rep true 1 (CNot ";") ~> Lit ";".

Definition cleanHtml (str : jsval) : Exc string :=
  stripped ← method (replace_all false tagPattern "") str;
  mret (trim (replace_all false entityPattern " " stripped)).

(** [/<item[^>]*>[\s\S]*?<\/item>/gi] *)
Definition itemPattern : regex :=
  Lit "<item" ~> Rep true 0 (CNot ">") ~> Lit ">" ~> Rep false 0 CAny ~> Lit "</item>".
(** [/<tag[^>]*>(.*?)<\/tag>/i] for tag = title, link, description *)
Definition elementPattern (tag : string) : regex :=
  Lit ("<" +:+ tag) ~> Rep true 0 (CNot ">") ~> Lit ">" ~> Grp 1 (Rep false 0 CDot)
    ~> Lit ("</" +:+ tag +:+ ">").

Section WithURL.
(** [new URL(url).hostname]: the platform's URL parser, which throws on a
    text that is no URL. *)
Variable URL_hostname : string -> Exc string.

Definition extractDomain (url : jsval) : Exc string :=
  try_catch
    (hostname ← URL_hostname (to_string url);
     mret (replace_first "www." "" hostname))
    (fun _ => mret "Unknown").

(** The body of the [for] loop on one item block: the item to push, if any. *)
Definition parseItemBlock (item : string) : Exc (option Item) :=
  let titleMatch := exec true (elementPattern "title") item in
  let linkMatch := exec true (elementPattern "link") item in
  let descMatch := exec true (elementPattern "description") item in
  if bool_decide (is_Some titleMatch) && bool_decide (is_Some linkMatch) then
    title1 ← index titleMatch 1;
    title ← cleanHtml title1;
    link1 ← index linkMatch 1;
    link ← method trim link1;
    excerpt ← (if bool_decide (is_Some descMatch)
               then desc1 ← index descMatch 1;
                    cleaned ← cleanHtml desc1;
                    mret (substring0 200 cleaned +:+ "...")
               else mret "");
    source ← extractDomain link1;
    mret (Some {| title := title; link := link; excerpt := excerpt; source := source |})
  else mret None.

Definition parseRSSFeed (xmlText : string) (maxItems : Z) : Exc (list Item) :=
  let itemMatches := match_all true itemPattern xmlText in
  let bound := Z.to_nat (Z.min (Z.of_nat (length itemMatches)) maxItems) in
  fold_left
    (fun acc item =>
       items ← acc;
       pushed ← parseItemBlock item;
       mret (match pushed with
             | Some it => items ++ [it]
             | None => items
             end))
    (firstn bound itemMatches) (mret []).

End WithURL.

(** *** The classifier: [filterGoodVibes] *)

Definition bannedWords : list string := ["crime"; "shooting"; "murder"; "death"; "accident"].
Definition goodWords : list string := ["art"; "music"; "food"; "culture"; "community"; "festival"].

(** The constant [0.3] as the double it denotes. *)
Definition threshold : Q := 5404319552844595 # 18014398509481984.

Definition itemText (item : Item) : string :=
  toLowerCase (title item +:+ " " +:+ excerpt item).

Definition hasNegative (item : Item) : bool :=
  existsb (fun word => includes (itemText item) word) bannedWords.

Definition hasPositive (item : Item) : bool :=
  existsb (fun word => includes (itemText item) word) goodWords.

(** The filter callback, given the value that [Math.random()] returns if
    it is called. *)
Definition keeps (item : Item) (random : Q) : bool :=
  if hasNegative item then false
  else hasPositive item || negb (Qle_bool random threshold).

(** [Math.random] is a generator with hidden state: [draws] is the
    sequence it yields and the counter is the number of calls made so
    far. The call is made only when [hasPositive] is false. *)
Fixpoint filterGoodVibes (draws : nat -> Q) (calls : nat) (items : list Item)
    : list Item * nat :=
  match items with
  | [] => ([], calls)
  | item :: rest =>
      if hasNegative item then filterGoodVibes draws calls rest
      else if hasPositive item then
        let '(kept, calls') := filterGoodVibes draws calls rest in (item :: kept, calls')
      else
        let '(kept, calls') := filterGoodVibes draws (S calls) rest in
        (if negb (Qle_bool (draws calls) threshold) then item :: kept else kept, calls')
  end.

(** *** The sourcing run: [handleSourceContent] *)

(** What the run reads from the platform. [fetch_text url] stands for
    [fetch(url)] followed by [response.text()], and throws when either
    rejects. *)
Record Platform : Type := {
  fetch_text : string -> Exc string;
  URL_hostname : string -> Exc string;
  random_draws : nat -> Q;
  randomUUID : string;
  isoNow : string;
  localeDate : string;
  kv_available : bool
}.

(** The stored object, kept in structured form for its JSON text. *)
Record SourcedContent : Type := {
  id : string;
  timestamp : string;
  category : string;
  sources : list string;
  content_title : string;
  content_items : list Item;
  status : string
}.

(** What the run changes: the key-value namespace (value and
    [expirationTtl]), the number of [Math.random] calls made, the console. *)
Record State : Type := {
  kv : gmap string (SourcedContent * Z);
  random_calls : nat;
  console : list string
}.

Inductive Response : Type :=
| Success (contentId : string) (itemCount : nat)
| Failure (httpStatus : Z) (message : string).

Definition defaultSources : list string :=
  ["https://laist.com/feeds/all.rss";
   "https://la.eater.com/rss/index.xml";
   "https://www.timeout.com/los-angeles/rss.xml"].

(** [Math.ceil(a / b)] for an integer [a] and a positive integer [b]. *)
Definition ceil_div (a b : Z) : Z := - ((- a) / b).

(** One round of the [for] loop: the [try] body pushes the feed's items,
    the [catch] logs. *)
Definition fetchOne (p : Platform) (perFeed : Z) (acc : list Item * list string)
    (sourceUrl : string) : list Item * list string :=
  match (xmlText ← fetch_text p sourceUrl;
         parseRSSFeed (URL_hostname p) xmlText perFeed) with
  | Ok items => (fst acc ++ items, snd acc)
  | Throw e => (fst acc, snd acc ++ ["Failed to fetch " +:+ sourceUrl +:+ ": " +:+ e])
  end.

Definition fetchAll (p : Platform) (perFeed : Z) (sourcesToFetch : list string)
    (log : list string) : list Item * list string :=
  fold_left (fetchOne p perFeed) sourcesToFetch ([], log).

(** The arguments are the fields of the request body, defaults applied. *)
Definition handleSourceContent (p : Platform) (st : State)
    (bodySources : list string) (bodyCategory : string) (maxItems : Z)
    : Response * State :=
  let sourcesToFetch :=
    match bodySources with
    | [] => defaultSources
    | _ => bodySources
    end in
  let perFeed := ceil_div maxItems (Z.of_nat (length sourcesToFetch)) in
  let '(fetched, log) := fetchAll p perFeed sourcesToFetch (console st) in
  let '(kept, calls) := filterGoodVibes (random_draws p) (random_calls st) fetched in
  let sourcedContent :=
    {| id := randomUUID p;
       timestamp := isoNow p;
       category := bodyCategory;
       sources := sourcesToFetch;
       content_title := "LA Newsletter Draft - " +:+ localeDate p;
       content_items := kept;
       status := "sourced" |} in
  if kv_available p then
    (Success (id sourcedContent) (length kept),
     {| kv := <["content:" +:+ id sourcedContent := (sourcedContent, 86400 * 7)]> (kv st);
        random_calls := calls;
        console := log |})
  else
    (Failure 500 "Failed to source content",
     {| kv := kv st; random_calls := calls; console := log |}).

(** *** Stored content: [getSourcedContent] *)

Inductive ContentsResponse : Type :=
| Contents (count : nat) (contents : list SourcedContent)
| ContentsFailure (httpStatus : Z) (message : string).

(** [listing prefix] stands for the key names that the platform returns
    for [list({prefix})]; a listed key that [get] no longer finds is
    passed over. The namespace holds records, the values that
    [handleSourceContent] writes, so the [JSON.parse] of a value of
    another writer is not modelled; [kv_available] says that the listing
    and every read are fulfilled. *)
Definition getSourcedContent (p : Platform) (st : State) (listing : string -> list string)
    : ContentsResponse :=
  if kv_available p then
    let contents :=
      flat_map (fun key => match kv st !! key with
                           | Some (content, _) => [content]
                           | None => []
                           end)
        (listing "content:") in
    Contents (length contents) contents
  else ContentsFailure 500 "Failed to get content".

(** *** Token minting on any key

    [generateGhostJWT] as the source has it, on a key of any code units
    and with the two reads of [Date.now()] told apart: [iatNow] is what
    the first read returns, [expNow] what the second returns. *)

(** [JSON.stringify(header)], as code units. *)
Definition stringify_header_wide (id : option Wide.units) : Wide.units :=
  Wide.widen ("{" +:+ json_string "alg" +:+ ":" +:+ json_string "HS256"
                  +:+ "," +:+ json_string "typ" +:+ ":" +:+ json_string "JWT")
    ++ match id with
       | Some text =>
           Wide.widen ("," +:+ json_string "kid" +:+ ":" +:+ dquote)
             ++ Wide.json_escape text ++ Wide.widen dquote
       | None => []
       end
    ++ Wide.widen "}".

Definition generateGhostJWT_wide (adminAPIKey : Wide.units) (iatNow expNow : Z)
    : Exc string :=
  let parts := Wide.split 58 adminAPIKey in
  let id := nth_error parts 0 in
  let secret := nth_error parts 1 in
  header ← Wide.btoa (stringify_header_wide id);
  payload ← Wide.btoa
              (Wide.widen (stringify_payload (iatNow / 1000) (expNow / 1000 + 5 * 60)));
  let encodedHeader := base64urlEscape header in
  let encodedPayload := base64urlEscape payload in
  signature ← Wide.btoa
                (Wide.widen (encodedHeader +:+ "." +:+ encodedPayload +:+ ".")
                   ++ Wide.to_units secret);
  mret (encodedHeader +:+ "." +:+ encodedPayload +:+ "." +:+ base64urlEscape signature).

(** *** Draft creation: [createGhostDraft] *)

Record PostData : Type := {
  post_title : string;
  post_html : string;
  post_status : string;
  post_tags : list string
}.

Record CmsRequest : Type := {
  request_url : string;
  authorization : string;
  posts : list PostData
}.

(** The answer of the CMS: [created] stands for [response.json()], the
    [id] and the [title], each a string or [undefined], of every entry of
    its [posts]; it throws when the body is no JSON or holds no [posts]. *)
Record CmsResponse : Type := {
  ok : bool;
  cms_status : Z;
  statusText : string;
  created : Exc (list (jsval * jsval))
}.

(** The [tags] of the body: absent, a list of texts (an array, or the
    characters of a string), or a value that cannot be spread ([null], a
    number, a boolean, an object). *)
Inductive TagsField : Type :=
| TagsAbsent
| TagsList (tags : list string)
| TagsNotIterable.

(** The fields that the handler reads off the body (its [contentId] is
    not read). A [title] or [html] is a string or absent. *)
Record DraftFields : Type := {
  body_title : jsval;
  body_html : jsval;
  body_tags : TagsField
}.

Inductive DraftResponse : Type :=
| DraftCreated (ghost_post_id : jsval) (draft_url : string) (post_title : jsval)
| DraftFailed (message : string).

Definition GHOST_URL : string := "https://curationsla-1.ghost.io".

(** [!key] for a key that is a string or [undefined]. *)
Definition key_missing (key : option Wide.units) : bool :=
  match key with
  | Some (_ :: _) => false
  | _ => true
  end.

(** [body] is what [request.json()] gives: it throws when the promise
    rejects, and it is [None] for the body [null], on which the
    destructuring throws. [key] is [env.GHOST_ADMIN_API_KEY], [iatNow] and
    [expNow] are the two reads of [Date.now()] and [localeDate] is
    [new Date().toLocaleDateString()]. *)
Definition createGhostDraft (key : option Wide.units)
    (cms_fetch : CmsRequest -> Exc CmsResponse) (iatNow expNow : Z) (localeDate : string)
    (body : Exc (option DraftFields)) : DraftResponse * list CmsRequest :=
  match body with
  | Throw e => (DraftFailed e, [])
  | Ok None => (DraftFailed "TypeError", [])
  | Ok (Some fields) =>
      if key_missing key then (DraftFailed "Ghost Admin API key not configured", [])
      else
        match generateGhostJWT_wide (Wide.to_units key) iatNow expNow with
        | Throw e => (DraftFailed e, [])
        | Ok jwt =>
            match match body_tags fields with
                  | TagsAbsent => Some []
                  | TagsList tags => Some tags
                  | TagsNotIterable => None
                  end with
            | None => (DraftFailed "TypeError", [])
            | Some tags =>
                let request :=
                  {| request_url := GHOST_URL +:+ "/ghost/api/admin/posts/";
                     authorization := "Ghost " +:+ jwt;
                     posts :=
                       [ {| post_title :=
                              to_string
                                (or_else (body_title fields)
                                   (Some ("CurationsLA Draft - " +:+ localeDate)));
                            post_html :=
                              to_string
                                (or_else (body_html fields)
                                   (Some "<p>Content sourced and ready for editing!</p>"));
                            post_status := "draft";
                            post_tags := "curations-la" :: "newsletter" :: tags |} ] |} in
                (match (response ← cms_fetch request;
                        if ok response then
                          entries ← created response;
                          match nth_error entries 0 with
                          | Some post => mret post
                          | None => Throw "TypeError"
                          end
                        else Throw ("Ghost API error: " +:+ decimal (cms_status response)
                                      +:+ " " +:+ statusText response)) with
                 | Ok post =>
                     DraftCreated (fst post)
                       (GHOST_URL +:+ "/ghost/#/editor/post/" +:+ to_string (fst post))
                       (snd post)
                 | Throw e => DraftFailed e
                 end, [request])
            end
        end
  end.

(** *** Request dispatch: the [fetch] handler *)

Record Request : Type := {
  method : string;
  hostname : string;
  pathname : string;
  search : string
}.

(** What the handler answers with: a handler call, a redirect, a page or
    the 500 answer of its [catch]. *)
Inductive Route : Type :=
| Preflight
| Health
| SourceContent
| GetContent
| CreateDraft
| Redirect (location : string) (code : Z)
| Homepage
| AboutPage
| Sitemap
| Robots
| NotFoundPage
| ServerError.

Definition domainRedirects : list (string * string) :=
  [("la.curations.org", "la.curations.cc");
   ("curatedla.xyz", "la.curations.cc");
   ("www.la.curations.cc", "la.curations.cc");
   ("curatedla.beehiiv.com", "la.curations.cc")].

(** The property names that every object literal inherits: reading one of
    them off [domainRedirects] gives a function or an object, which is
    truthy and which makes no URL. *)
Definition inheritedKeys : list string :=
  ["constructor"; "hasOwnProperty"; "isPrototypeOf"; "propertyIsEnumerable";
   "toLocaleString"; "toString"; "valueOf"; "__proto__";
   "__defineGetter__"; "__defineSetter__"; "__lookupGetter__"; "__lookupSetter__"].

Fixpoint lookup_key (key : string) (table : list (string * string)) : option string :=
  match table with
  | [] => None
  | (k, v) :: rest => if String.eqb k key then Some v else lookup_key key rest
  end.

Definition route (request : Request) : Route :=
  if String.eqb (method request) "OPTIONS" then Preflight
  else if String.eqb (pathname request) "/health" then Health
  else if String.eqb (pathname request) "/api/source-content"
          && String.eqb (method request) "POST" then SourceContent
  else if String.eqb (pathname request) "/api/get-content"
          && String.eqb (method request) "GET" then GetContent
  else if String.eqb (pathname request) "/api/create-draft"
          && String.eqb (method request) "POST" then CreateDraft
  else
    match lookup_key (hostname request) domainRedirects with
    | Some target =>
        Redirect ("https://" +:+ target +:+ pathname request +:+ search request) 301
    | None =>
        if existsb (String.eqb (hostname request)) inheritedKeys then ServerError
        else if String.prefix "/p/" (pathname request) then
          Redirect "https://la.curations.cc/newsletter/" 302
        else if String.eqb (pathname request) "/subscribe"
                || String.eqb (pathname request) "/newsletter" then
          Redirect "https://curationsla-1.ghost.io/#/portal/signup" 302
        else if String.eqb (pathname request) "/" then Homepage
        else if String.eqb (pathname request) "/about" then AboutPage
        else if String.eqb (pathname request) "/sitemap.xml" then Sitemap
        else if String.eqb (pathname request) "/robots.txt" then Robots
        else NotFoundPage
    end.

(** *** [generateSitemap] *)

Record SitemapUrl : Type := {
  loc : string;
  priority : string;
  changefreq : string
}.

Definition sitemapUrls : list SitemapUrl :=
  [ {| loc := "/"; priority := "1.0"; changefreq := "daily" |};
    {| loc := "/about"; priority := "0.8"; changefreq := "weekly" |};
    {| loc := "/newsletter"; priority := "0.9"; changefreq := "weekly" |};
    {| loc := "/subscribe"; priority := "0.9"; changefreq := "monthly" |} ].

(** The [forEach] callback; [today] is
    [new Date().toISOString().split('T')[0]], taken to be the same day
    in the four rounds. *)
Definition appendUrl (host today : string) (xml : string) (url : SitemapUrl) : string :=
  xml +:+ "  <url>" +:+ newline
      +:+ "    <loc>https://" +:+ host +:+ loc url +:+ "</loc>" +:+ newline
      +:+ "    <changefreq>" +:+ changefreq url +:+ "</changefreq>" +:+ newline
      +:+ "    <priority>" +:+ priority url +:+ "</priority>" +:+ newline
      +:+ "    <lastmod>" +:+ today +:+ "</lastmod>" +:+ newline
      +:+ "  </url>" +:+ newline.

Definition generateSitemap (host today : string) : string :=
  let xml := "<?xml version=" +:+ dquote +:+ "1.0" +:+ dquote +:+ " encoding=" +:+ dquote
               +:+ "UTF-8" +:+ dquote +:+ "?>" +:+ newline in
  let xml := xml +:+ "<urlset xmlns=" +:+ dquote
               +:+ "http://www.sitemaps.org/schemas/sitemap/0.9" +:+ dquote +:+ ">"
               +:+ newline in
  let xml := fold_left (appendUrl host today) sitemapUrls xml in
  xml +:+ "</urlset>".

End Router.

(* ===================================================================== *)
(** ** The content sourcer ([src/content-sourcer.js]) *)
(* ===================================================================== *)

Module Feed.
Record t : Type := {
  name : string;
  url : string;
  category : string
}.
End Feed.

Module Sourcer.
Import JS.

(** *** The configuration [config/sources.json]

    The file is not part of the sources at hand: its content is an
    argument of every function that reads it. *)

Record ContentFilters : Type := {
  required_la_keywords : list string;
  min_good_vibes_score : Z
}.

Record Sources : Type := {
  rss_feeds : list Feed.t;
  negative_keywords : list string;
  good_vibes_keywords : list string;
  content_filters : ContentFilters
}.

Record Item : Type := {
  title : jsval;
  link : jsval;
  description : jsval
}.

Record SourceEntry : Type := {
  source : string;
  category : string;
  items : list Item
}.

(** *** Item extraction: [parseRSSItems] *)

(** [/<item[^>]*>([\s\S]*?)<\/item>/gi] *)
Definition itemRegex : regex :=
  Lit "<item" ~> Rep true 0 (CNot ">") ~> Lit ">" ~> Grp 1 (Rep false 0 CAny) ~> Lit "</item>".

(** [/<tag[^>]*><!\[CDATA\[([^\]]+)\]\]><\/tag>|<tag[^>]*>([^<]+)<\/tag>/i] *)
Definition cdataOrText (tag : string) : regex :=
  Alt
    (Lit ("<" +:+ tag) ~> Rep true 0 (CNot ">") ~> Lit ">" ~> Lit "<![CDATA["
       ~> Grp 1 (Rep true 1 (CNot "]")) ~> Lit "]]>" ~> Lit ("</" +:+ tag +:+ ">"))
    (Lit ("<" +:+ tag) ~> Rep true 0 (CNot ">") ~> Lit ">"
       ~> Grp 2 (Rep true 1 (CNot "<")) ~> Lit ("</" +:+ tag +:+ ">")).

Definition titleRegex : regex := cdataOrText "title".
Definition descRegex : regex := cdataOrText "description".

(** [/<link[^>]*>([^<]+)<\/link>/i] *)
Definition linkRegex : regex :=
  Lit "<link" ~> Rep true 0 (CNot ">") ~> Lit ">" ~> Grp 1 (Rep true 1 (CNot "<")) ~> Lit "</link>".

(** The body of the [while] loop for one match of [itemRegex]. *)
Definition parseItemMatch (m : captures) : Exc (option Item) :=
  let itemContent := to_string (get_capture m 1) in
  let titleMatch := exec true titleRegex itemContent in
  let linkMatch := exec true linkRegex itemContent in
  let descMatch := exec true descRegex itemContent in
  if bool_decide (is_Some titleMatch) && bool_decide (is_Some linkMatch) then
    title1 ← index titleMatch 1;
    title2 ← index titleMatch 2;
    link1 ← index linkMatch 1;
    desc ← (if bool_decide (is_Some descMatch)
            then desc1 ← index descMatch 1;
                 desc2 ← index descMatch 2;
                 mret (or_else desc1 desc2)
            else mret (Some ""));
    mret (Some {| title := or_else title1 title2; link := link1; description := desc |})
  else mret None.

Definition parseRSSItems (rssText : string) : Exc (list Item) :=
  fold_left
    (fun acc m =>
       items ← acc;
       pushed ← parseItemMatch m;
       mret (match pushed with
             | Some it => items ++ [it]
             | None => items
             end))
    (exec_all true itemRegex rssText) (mret []).

Section WithSources.
Variable sources : Sources.

(** *** The classifier: [filterGoodVibesContent] *)

(** [`${item.title} ${item.description}`.toLowerCase()] *)
Definition itemText (item : Item) : string :=
  toLowerCase (to_string (title item) +:+ " " +:+ to_string (description item)).

Definition occursIn (text keyword : string) : bool :=
  includes text (toLowerCase keyword).

Definition hasNegative (text : string) : bool :=
  existsb (occursIn text) (negative_keywords sources).

Definition goodVibesScore (text : string) : Z :=
  fold_left (fun score keyword => if occursIn text keyword then score + 1 else score)
    (good_vibes_keywords sources) 0.

Definition hasLAKeyword (text : string) : bool :=
  existsb (occursIn text) (required_la_keywords (content_filters sources)).

(** The filter callback. *)
Definition accepts (item : Item) : bool :=
  let text := itemText item in
  if hasNegative text then false
  else (min_good_vibes_score (content_filters sources) <=? goodVibesScore text)
       && hasLAKeyword text.

Definition filterGoodVibesContent (items : list Item) : list Item :=
  List.filter accepts items.

(** *** The sourcing run: [handleSourceContent] *)

Record Platform : Type := {
  fetch_text : string -> Exc string;
  isoNow : string;
  kv_available : bool
}.

(** The namespace holds the structured value for its JSON text. *)
Record State : Type := {
  kv : gmap string (list SourceEntry);
  console : list string
}.

Inductive Response : Type :=
| Success (sources_processed items_found : nat) (storage_key : string)
| Failure (httpStatus : Z) (message : string).

(** One round of the [for] loop over [sources.rss_feeds]. *)
Definition fetchOne (p : Platform) (acc : list SourceEntry * list string) (feed : Feed.t)
    : list SourceEntry * list string :=
  match (rssText ← fetch_text p (Feed.url feed);
         items ← parseRSSItems rssText;
         mret {| source := Feed.name feed;
                 category := Feed.category feed;
                 items := firstn 5 (filterGoodVibesContent items) |}) with
  | Ok entry => (fst acc ++ [entry], snd acc)
  | Throw e => (fst acc, snd acc ++ ["Error fetching " +:+ Feed.name feed +:+ ": " +:+ e])
  end.

Definition fetchAll (p : Platform) (feeds : list Feed.t) (log : list string)
    : list SourceEntry * list string :=
  fold_left (fetchOne p) feeds ([], log).

(** [`content_${new Date().toISOString().split('T')[0]}`] *)
Definition contentKey (p : Platform) : string :=
  "content_" +:+ to_string (nth_error (split "T" (isoNow p)) 0).

Definition handleSourceContent (p : Platform) (st : State) : Response * State :=
  let '(sourcedContent, log) := fetchAll p (rss_feeds sources) (console st) in
  if kv_available p then
    (Success (length (rss_feeds sources))
       (fold_left (fun total entry => (total + length (items entry))%nat) sourcedContent O)
       (contentKey p),
     {| kv := <[contentKey p := sourcedContent]> (kv st); console := log |})
  else
    (Failure 500 "Failed to source content", {| kv := kv st; console := log |}).

End WithSources.

(** *** The digest: [generateDraftHTML] *)

Definition heading (title : string) : string :=
  "<h1>" +:+ title +:+ "</h1>" +:+ newline.

Definition byline : string :=
  "<p><em>A curated collection of Good Vibes from around LA</em></p>" +:+ newline +:+ newline.

(** The closing attribution; the robot emoji is held as its UTF-8 bytes. *)
Definition attribution : string :=
  "<hr>" +:+ newline +:+ "<p><small>🤖 <em>A project curated by Humans x AI at <a href="
    +:+ dquote +:+ "https://curations.cc" +:+ dquote
    +:+ ">Curations.cc</a></em></small></p>".

Definition sectionOpen (entry : SourceEntry) : string :=
  "<h2>" +:+ source entry +:+ " - " +:+ category entry +:+ "</h2>" +:+ newline
    +:+ "<ul>" +:+ newline.

Definition sectionClose : string := "</ul>" +:+ newline +:+ newline.

(** The inner [forEach] callback: what one item appends to [html]. *)
Definition appendItem (html : string) (item : Item) : string :=
  let html := html +:+ "<li><a href=" +:+ dquote +:+ to_string (link item) +:+ dquote
                   +:+ " target=" +:+ dquote +:+ "_blank" +:+ dquote +:+ ">"
                   +:+ to_string (title item) +:+ "</a>" in
  let html := if truthy (description item)
              then html +:+ "<br><small>" +:+ substring0 150 (to_string (description item))
                        +:+ "...</small>"
              else html in
  html +:+ "</li>" +:+ newline.

(** The outer [forEach] callback. *)
Definition appendSource (html : string) (entry : SourceEntry) : string :=
  if (0 <? length (items entry))%nat then
    fold_left appendItem (items entry) (html +:+ sectionOpen entry) +:+ sectionClose
  else html.

Record Draft : Type := {
  draft_title : string;
  html : string
}.

Definition generateDraftHTML (content : list SourceEntry) (title : string) : Draft :=
  let html := heading title +:+ byline in
  let html := fold_left appendSource content html in
  {| draft_title := title; html := html +:+ attribution |}.

(** *** Token minting: the same text as in the router *)

Definition base64urlEscape (str : string) : string :=
  replace_char "=" "" (replace_char "/" "_" (replace_char "+" "-" str)).

Definition generateGhostJWT (adminAPIKey : string) (now : Z) : string :=
  let parts := split ":" adminAPIKey in
  let id := nth_error parts 0 in
  let secret := nth_error parts 1 in
  let encodedHeader := base64urlEscape (btoa (Router.stringify_header id)) in
  let encodedPayload :=
    base64urlEscape (btoa (Router.stringify_payload (now / 1000) (now / 1000 + 5 * 60))) in
  let signature :=
    base64urlEscape
      (btoa (encodedHeader +:+ "." +:+ encodedPayload +:+ "." +:+ to_string secret)) in
  encodedHeader +:+ "." +:+ encodedPayload +:+ "." +:+ signature.

(** On a key of any code units and with the two reads of the clock told
    apart: the text of the function being the router's, so is its model. *)
Definition generateGhostJWT_wide (adminAPIKey : Wide.units) (iatNow expNow : Z)
    : Exc string :=
  Router.generateGhostJWT_wide adminAPIKey iatNow expNow.

(** *** Draft creation: [handleCreateDraft] and [createGhostDraft] *)

Record PostData : Type := {
  post_title : string;
  post_html : string;
  post_status : string;
  post_tags : list string
}.

(** The POST that [createGhostDraft] sends: its URL, its [Authorization]
    header and the posts of its JSON body. *)
Record CmsRequest : Type := {
  request_url : string;
  authorization : string;
  posts : list PostData
}.

(** The answer of the CMS: [post_ids] stands for [response.json()], the
    [id], a string or [undefined], of every entry of its [posts]; it
    throws when the body is no JSON or holds no [posts]. *)
Record CmsResponse : Type := {
  ok : bool;
  status : Z;
  statusText : string;
  post_ids : Exc (list jsval)
}.

(** The admin key is a string of any code units, or [undefined]. *)
Record Env : Type := {
  GHOST_ADMIN_API_KEY : option Wide.units;
  GHOST_SITE_URL : jsval
}.

(** What the handler reads from the platform. [kv_rejects] is the error
    with which the [get] of the namespace rejects, if it rejects;
    [draft_iatNow] and [draft_expNow] are the two reads of [Date.now()]
    in [generateGhostJWT]. *)
Record DraftPlatform : Type := {
  env : Env;
  cms_fetch : CmsRequest -> Exc CmsResponse;
  kv_rejects : option string;
  draft_isoNow : string;
  draft_localeDate : string;
  draft_iatNow : Z;
  draft_expNow : Z
}.

(** The fields that the handler reads off the body, each a string or
    absent. *)
Record DraftFields : Type := {
  body_title : jsval;
  body_publicationDate : jsval
}.

(** The three answers of the handler: 200, 404 and 500. *)
Inductive DraftResponse : Type :=
| Created (ghost_post_id : jsval) (draft_url : string)
| NoContent
| DraftFailed (message : string).

(** Returns [result.posts[0]], here the [id] of that post or [None] for
    [undefined], with the calls of [fetch] made. *)
Definition createGhostDraft (p : DraftPlatform) (postData : PostData)
    : Exc (option jsval) * list CmsRequest :=
  match GHOST_ADMIN_API_KEY (env p) with
  | None => (Throw "TypeError", [])
  | Some key =>
      match generateGhostJWT_wide key (draft_iatNow p) (draft_expNow p) with
      | Throw e => (Throw e, [])
      | Ok jwt =>
          let request :=
            {| request_url :=
                 to_string (GHOST_SITE_URL (env p)) +:+ "/ghost/api/admin/posts/";
               authorization := "Ghost " +:+ jwt;
               posts := [postData] |} in
          (response ← cms_fetch p request;
           if ok response then
             ids ← post_ids response;
             mret (nth_error ids 0)
           else Throw ("Ghost API error: " +:+ decimal (status response) +:+ " "
                         +:+ statusText response),
           [request])
      end
  end.

(** [body] is what [request.json()] gives: it throws when the promise
    rejects, and it is [None] for the body [null], on which the
    destructuring throws. The namespace holds what [handleSourceContent]
    wrote, in structured form; it is read, never written. *)
Definition handleCreateDraft (p : DraftPlatform) (kv : gmap string (list SourceEntry))
    (body : Exc (option DraftFields)) : DraftResponse * list CmsRequest :=
  match body with
  | Throw e => (DraftFailed e, [])
  | Ok None => (DraftFailed "TypeError", [])
  | Ok (Some fields) =>
      let today := to_string (nth_error (split "T" (draft_isoNow p)) 0) in
      let contentKey :=
        "content_" +:+ to_string (or_else (body_publicationDate fields) (Some today)) in
      match kv_rejects p with
      | Some e => (DraftFailed e, [])
      | None =>
          match kv !! contentKey with
          | None => (NoContent, [])
          | Some content =>
              let draftContent :=
                generateDraftHTML content
                  (to_string
                     (or_else (body_title fields)
                        (Some ("CurationsLA Good Vibes - " +:+ draft_localeDate p)))) in
              let '(ghostResponse, sent) :=
                createGhostDraft p
                  {| post_title := draft_title draftContent;
                     post_html := html draftContent;
                     post_status := "draft";
                     post_tags := ["curations-la"; "good-vibes"; "newsletter"] |} in
              (match ghostResponse with
               | Ok (Some id) =>
                   Created id
                     (to_string (GHOST_SITE_URL (env p)) +:+ "/ghost/#/editor/post/"
                        +:+ to_string id)
               | Ok None => DraftFailed "TypeError"
               | Throw e => DraftFailed e
               end, sent)
          end
      end
  end.

End Sourcer.

(* ===================================================================== *)
(** ** The first worker text of [src/content-sourcer.js] *)
(* ===================================================================== *)

Module Legacy.
Import JS.

(** [parseAndFilter]: the body as it is, or [null] (here [None]). *)
Definition bannedWords : list string :=
  ["politics"; "crime"; "shooting"; "controversy"; "death"].

(** The [for] loop over the banned words, with its early [return null]. *)
Fixpoint filterLoop (filtered : string) (words : list string) (content : string)
    : option string :=
  match words with
  | [] => Some content
  | word :: rest => if includes filtered word then None else filterLoop filtered rest content
  end.

Definition parseAndFilter (content : string) : option string :=
  filterLoop (toLowerCase content) bannedWords content.

Definition sources : list string :=
  ["https://lataco.com/rss";
   "https://la.eater.com/rss/index.xml";
   "https://laist.com/feeds/all.rss";
   "https://timeout.com/los-angeles/rss.xml"].

(** One round of the [for] loop of [sourceContent]: the [try] body pushes
    what [parseAndFilter] returns, the [catch] logs. *)
Definition fetchOne (fetch_text : string -> Exc string)
    (acc : list (option string) * list string) (source : string)
    : list (option string) * list string :=
  match fetch_text source with
  | Ok text => (fst acc ++ [parseAndFilter text], snd acc)
  | Throw e => (fst acc, snd acc ++ ["Failed to fetch " +:+ source +:+ ": " +:+ e])
  end.

(** The [content] array of the response of [sourceContent], and the
    console. *)
Definition sourceContent (fetch_text : string -> Exc string)
    : list (option string) * list string :=
  fold_left (fetchOne fetch_text) sources ([], []).

End Legacy.

(* ===================================================================== *)
(** ** The signature the specification asks for *)
(* ===================================================================== *)

Module Spec.
Import JS.
Local Open Scope N_scope.

(** The specification's token contract names HMAC-SHA256 over the text
    [encodedHeader.encodedPayload], keyed with the hex-decoded secret and
    base64url-encoded. The definitions below follow that wording (FIPS
    180-4 for the hash, RFC 2104 for the keyed hash); they are the
    reference the minted signature is compared with, not a translation of
    worker code. Bytes and 32-bit words are numbers. *)

Definition modulus : N := 4294967296.

Definition add32 (x y : N) : N := (x + y) mod modulus.
Definition rotr (n x : N) : N :=
  N.lor (N.shiftr x n) (N.shiftl x (32 - n) mod modulus).
Definition not32 (x : N) : N := modulus - 1 - x.

Definition choose (x y z : N) : N := N.lxor (N.land x y) (N.land (not32 x) z).
Definition majority (x y z : N) : N :=
  N.lxor (N.lxor (N.land x y) (N.land x z)) (N.land y z).
Definition big_sigma0 (x : N) : N := N.lxor (N.lxor (rotr 2 x) (rotr 13 x)) (rotr 22 x).
Definition big_sigma1 (x : N) : N := N.lxor (N.lxor (rotr 6 x) (rotr 11 x)) (rotr 25 x).
Definition small_sigma0 (x : N) : N := N.lxor (N.lxor (rotr 7 x) (rotr 18 x)) (N.shiftr x 3).
Definition small_sigma1 (x : N) : N := N.lxor (N.lxor (rotr 17 x) (rotr 19 x)) (N.shiftr x 10).

(** The round constants: the fractional parts of the cube roots of the
    first sixty-four primes, thirty-two bits each. *)
Definition round_constants : list N :=
  [1116352408; 1899447441; 3049323471; 3921009573; 961987163; 1508970993;
   2453635748; 2870763221; 3624381080; 310598401; 607225278; 1426881987;
   1925078388; 2162078206; 2614888103; 3248222580; 3835390401; 4022224774;
   264347078; 604807628; 770255983; 1249150122; 1555081692; 1996064986;
   2554220882; 2821834349; 2952996808; 3210313671; 3336571891; 3584528711;
   113926993; 338241895; 666307205; 773529912; 1294757372; 1396182291;
   1695183700; 1986661051; 2177026350; 2456956037; 2730485921; 2820302411;
   3259730800; 3345764771; 3516065817; 3600352804; 4094571909; 275423344;
   430227734; 506948616; 659060556; 883997877; 958139571; 1322822218;
   1537002063; 1747873779; 1955562222; 2024104815; 2227730452; 2361852424;
   2428436474; 2756734187; 3204031479; 3329325298].

(** The initial hash value: the square roots of the first eight primes. *)
Definition initial_hash : list N :=
  [1779033703; 3144134277; 1013904242; 2773480762;
   1359893119; 2600822924; 528734635; 1541459225].

(** Big-endian bytes of a number, [count] of them. *)
Fixpoint be_bytes (count : nat) (x : N) : list N :=
  match count with
  | O => []
  | S c => be_bytes c (x / 256) ++ [x mod 256]
  end.

Definition be_word (bytes : list N) : N :=
  fold_left (fun acc b => acc * 256 + b) bytes 0.

(** Padding: a one bit, zeros up to 56 modulo 64, the bit length on 8 bytes. *)
Definition pad (msg : list N) : list N :=
  let len := N.of_nat (length msg) in
  let zeros := N.to_nat ((119 - len mod 64) mod 64) in
  msg ++ [128] ++ repeat 0 zeros ++ be_bytes 8 (len * 8).

Fixpoint chunks (size : nat) (count : nat) (l : list N) : list (list N) :=
  match count with
  | O => []
  | S c => firstn size l :: chunks size c (skipn size l)
  end.

(** The message schedule, latest word first. *)
Fixpoint extend_schedule (rounds : nat) (w : list N) : list N :=
  match rounds with
  | O => w
  | S r =>
      let next :=
        add32 (add32 (small_sigma1 (nth 1 w 0)) (nth 6 w 0))
              (add32 (small_sigma0 (nth 14 w 0)) (nth 15 w 0)) in
      extend_schedule r (next :: w)
  end.

Definition schedule (block : list N) : list N :=
  rev (extend_schedule 48 (rev (map be_word (chunks 4 16 block)))).

Definition round (state : list N) (kw : N * N) : list N :=
  match state with
  | [a; b; c; d; e; f; g; h] =>
      let t1 := add32 (add32 (add32 h (big_sigma1 e)) (add32 (choose e f g) (fst kw))) (snd kw) in
      let t2 := add32 (big_sigma0 a) (majority a b c) in
      [add32 t1 t2; a; b; c; add32 d t1; e; f; g]
  | _ => state
  end.

Definition compress (hash block : list N) : list N :=
  let final := fold_left round (combine round_constants (schedule block)) hash in
  map (fun p => add32 (fst p) (snd p)) (combine hash final).

Definition sha256 (msg : list N) : list N :=
  let padded := pad msg in
  let blocks := chunks 64 (length padded / 64) padded in
  concat (map (be_bytes 4) (fold_left compress blocks initial_hash)).

(** HMAC with a 64-byte block: a longer key is hashed first. *)
Definition hmac_sha256 (key msg : list N) : list N :=
  let key := if (64 <? length key)%nat then sha256 key else key in
  let key := key ++ repeat 0 (64 - length key)%nat in
  let inner := sha256 (map (N.lxor 54) key ++ msg) in
  sha256 (map (N.lxor 92) key ++ inner).

Definition bytes_of_string (s : string) : list N := map code (list_ascii_of_string s).
Definition string_of_bytes (l : list N) : string := string_of_list_ascii (map ascii_of_N l).

Definition hex_value (c : ascii) : option N :=
  let n := code c in
  if in_range 48 57 n then Some (n - 48)
  else if in_range 97 102 n then Some (n - 87)
  else if in_range 65 70 n then Some (n - 55)
  else None.

(** The secret of an admin key is the hexadecimal text of the key bytes. *)
Fixpoint hex_decode (s : string) : option (list N) :=
  match s with
  | EmptyString => Some []
  | String hi (String lo rest) =>
      h ← hex_value hi; l ← hex_value lo; tail ← hex_decode rest;
      Some ((h * 16 + l) :: tail)
  | String _ EmptyString => None
  end.

(** The signature segment the specification requires for the two encoded
    segments and the secret. *)
Definition required_signature (encodedHeader encodedPayload secret : string) : option string :=
  key ← hex_decode secret;
  Some (Router.base64urlEscape
          (btoa (string_of_bytes
                   (hmac_sha256 key (bytes_of_string (encodedHeader +:+ "." +:+ encodedPayload)))))).

End Spec.

(* ===================================================================== *)
(** ** What the holder of a token can compute *)
(* ===================================================================== *)

Module Holder.
Import JS.
Local Open Scope N_scope.

(** Decoding of base64url text without padding, as the holder of a token
    applies it to a segment. *)
Definition sextet_of_value (n : N) : sextet :=
  (N.testbit n 5, N.testbit n 4, N.testbit n 3, N.testbit n 2, N.testbit n 1, N.testbit n 0).

Definition base64url_sextet (c : ascii) : option sextet :=
  let n := code c in
  if in_range 65 90 n then Some (sextet_of_value (n - 65))
  else if in_range 97 122 n then Some (sextet_of_value (n - 71))
  else if in_range 48 57 n then Some (sextet_of_value (n + 4))
  else if n =? 45 then Some (sextet_of_value 62)
  else if n =? 95 then Some (sextet_of_value 63)
  else None.

Definition first_byte (x y : sextet) : ascii :=
  let '(x5, x4, x3, x2, x1, x0) := x in
  let '(y5, y4, _, _, _, _) := y in
  Ascii y4 y5 x0 x1 x2 x3 x4 x5.

Definition second_byte (y z : sextet) : ascii :=
  let '(_, _, y3, y2, y1, y0) := y in
  let '(z5, z4, z3, z2, _, _) := z in
  Ascii z2 z3 z4 z5 y0 y1 y2 y3.

Definition third_byte (z w : sextet) : ascii :=
  let '(_, _, _, _, z1, z0) := z in
  let '(w5, w4, w3, w2, w1, w0) := w in
  Ascii w0 w1 w2 w3 w4 w5 z0 z1.

Fixpoint base64url_decode (s : string) : option string :=
  match s with
  | EmptyString => Some EmptyString
  | String c1 (String c2 EmptyString) =>
      x ← base64url_sextet c1; y ← base64url_sextet c2;
      Some (String (first_byte x y) EmptyString)
  | String c1 (String c2 (String c3 EmptyString)) =>
      x ← base64url_sextet c1; y ← base64url_sextet c2; z ← base64url_sextet c3;
      Some (String (first_byte x y) (String (second_byte y z) EmptyString))
  | String c1 (String c2 (String c3 (String c4 rest))) =>
      x ← base64url_sextet c1; y ← base64url_sextet c2; z ← base64url_sextet c3;
      w ← base64url_sextet c4; tail ← base64url_decode rest;
      Some (String (first_byte x y) (String (second_byte y z) (String (third_byte z w) tail)))
  | String _ EmptyString => None
  end.

(** The text that follows the first [n] dots of [s], if there are that many. *)
Fixpoint after_dots (n : nat) (s : string) : option string :=
  match n with
  | O => Some s
  | S n' =>
      match s with
      | EmptyString => None
      | String c s' => if Ascii.eqb c "." then after_dots n' s' else after_dots n s'
      end
  end.

(** What a holder of a token computes from it: the third segment,
    decoded, read after its second dot. *)
Definition recover_secret (token : string) : option string :=
  segment ← nth_error (split "." token) 2;
  decoded ← base64url_decode segment;
  after_dots 2 decoded.

End Holder.

(* ===================================================================== *)
(** ** Words of the properties *)
(* ===================================================================== *)

(** *** The classifier *)

(** [t] occurs in [s] as a substring. *)
Definition occurs (t s : string) : Prop := exists a b, s = a +:+ t +:+ b.

(** The number of configured positive keywords that occur, whatever their
    case, in the lowercase text. *)
Definition positive_count (sources : Sourcer.Sources) (text : string) : nat :=
  length (List.filter (Sourcer.occursIn text) (Sourcer.good_vibes_keywords sources)).

(** *** The token *)

(** Every code unit of [s] satisfies [p]. *)
Fixpoint all_chars (p : ascii -> bool) (s : string) : bool :=
  match s with
  | EmptyString => true
  | String c s' => p c && all_chars p s'
  end.

(** The base64url character of a sextet: [-] and [_] for [+] and [/]. *)
Definition base64url_char (x : JS.sextet) : ascii :=
  let c := JS.base64_char x in
  if Ascii.eqb c "+" then "-"%char else if Ascii.eqb c "/" then "_"%char else c.

(** What [base64urlEscape] makes of one character. *)
Definition escaped (c : ascii) : string :=
  if Ascii.eqb c "+" then "-"
  else if Ascii.eqb c "/" then "_"
  else if Ascii.eqb c "=" then ""
  else String c "".

Definition is_base64url (c : ascii) : bool :=
  bool_decide (is_Some (Holder.base64url_sextet c)).

Definition not_char (c x : ascii) : bool := negb (Ascii.eqb x c).

(** *** The digest and the sourcing runs *)

(** Concatenation of a list of texts. *)
Definition join (parts : list string) : string := fold_right String.append "" parts.




(** The configuration with another list of feeds. *)
Definition with_feeds (sources : Sourcer.Sources) (feeds : list Feed.t) : Sourcer.Sources :=
  {| Sourcer.rss_feeds := feeds;
     Sourcer.negative_keywords := Sourcer.negative_keywords sources;
     Sourcer.good_vibes_keywords := Sourcer.good_vibes_keywords sources;
     Sourcer.content_filters := Sourcer.content_filters sources |}.

(** What one feed contributes to the content sourcer's stored list: one
    entry when its body is fetched, nothing when the fetch throws. *)
Definition contribution (sources : Sourcer.Sources) (p : Sourcer.Platform) (feed : Feed.t)
    : list Sourcer.SourceEntry :=
  fst (Sourcer.fetchOne sources p ([], []) feed).

(** What one feed contributes to the router's item list. *)
Definition router_contribution (p : Router.Platform) (perFeed : Z) (sourceUrl : string)
    : list Router.Item :=
  fst (Router.fetchOne p perFeed ([], []) sourceUrl).

(** *** Item extraction *)

(** How a successful match of [r] changes the capture array. *)
Fixpoint captures_after (r : JS.regex) (before after : JS.captures) : Prop :=
  match r with
  | JS.Lit _ => after = before
  | JS.Rep _ _ _ => after = before
  | JS.Grp i r1 =>
      exists mid text, captures_after r1 before mid /\ after = JS.set_capture i (Some text) mid
  | JS.Seq r1 r2 => exists mid, captures_after r1 before mid /\ captures_after r2 mid after
  | JS.Alt r1 r2 => captures_after r1 before after \/ captures_after r2 before after
  end.

(** [cleanHtml] on a string. *)
Definition cleanText (s : string) : string :=
  JS.trim (JS.replace_all false Router.entityPattern " "
             (JS.replace_all false Router.tagPattern "" s)).

(** The text of the first [description] element of an item block that the
    router's pattern matches, if any. *)
Definition descriptionOf (block : string) : option string :=
  caps ← JS.exec true (Router.elementPattern "description") block;
  JS.get_capture caps 1.

(** The items that one item block adds to the router's result. *)
Definition itemsOf (URL_hostname : string -> JS.Exc string) (block : string)
    : list Router.Item :=
  match Router.parseItemBlock URL_hostname block with
  | JS.Ok (Some it) => [it]
  | _ => []
  end.

(** The item blocks that the router reads under a bound. *)
Definition blocksRead (xmlText : string) (maxItems : Z) : list string :=
  let itemMatches := JS.match_all true Router.itemPattern xmlText in
  firstn (Z.to_nat (Z.min (Z.of_nat (length itemMatches)) maxItems)) itemMatches.

(** The items that one match of the item pattern adds to the content
    sourcer's result. *)
Definition itemsOfMatch (m : JS.captures) : list Sourcer.Item :=
  match Sourcer.parseItemMatch m with
  | JS.Ok (Some it) => [it]
  | _ => []
  end.

(* ===================================================================== *)
(** ** Concrete inputs *)
(* ===================================================================== *)

Module Inputs.
Import JS.

(** The configuration of the specification's scenario. *)
Definition scenario : Sourcer.Sources :=
  {| Sourcer.rss_feeds := [];
     Sourcer.negative_keywords := ["crime"; "shooting"];
     Sourcer.good_vibes_keywords := ["art"; "community"; "festival"];
     Sourcer.content_filters :=
       {| Sourcer.required_la_keywords := ["LA"];
          Sourcer.min_good_vibes_score := 2 |} |}.

Definition block_party : Sourcer.Item :=
  {| Sourcer.title := Some "Block Party in LA";
     Sourcer.link := Some "https://example.com/party";
     Sourcer.description := Some "community art festival" |}.

(** The same item with a banned keyword in its text. *)
Definition block_party_shooting : Sourcer.Item :=
  {| Sourcer.title := Some "Block Party in LA";
     Sourcer.link := Some "https://example.com/party";
     Sourcer.description := Some "community art festival after a shooting" |}.

(** An item of the router with neither a banned nor a positive word. *)
Definition plain : Router.Item :=
  {| Router.title := "Hello";
     Router.link := "https://example.com/hello";
     Router.excerpt := "";
     Router.source := "example.com" |}.

Definition art_crime : Router.Item :=
  {| Router.title := "Art crime";
     Router.link := "https://example.com/art";
     Router.excerpt := "";
     Router.source := "example.com" |}.

End Inputs.

Module Batches.
Import JS.

Definition with_item : Sourcer.SourceEntry :=
  {| Sourcer.source := "A"; Sourcer.category := "news"; Sourcer.items := [Inputs.block_party] |}.

Definition without_item : Sourcer.SourceEntry :=
  {| Sourcer.source := "B"; Sourcer.category := "events"; Sourcer.items := [] |}.

(** A feed that answers and a feed whose fetch is rejected. *)
Definition good_feed : Feed.t :=
  {| Feed.name := "A"; Feed.url := "https://a.example/rss"; Feed.category := "news" |}.

Definition down_feed : Feed.t :=
  {| Feed.name := "B"; Feed.url := "https://b.example/rss"; Feed.category := "events" |}.

Definition good_body : string :=
  "<rss><item><title>Block Party in LA</title><link>https://a.example/party</link>"
    +:+ "<description>community art festival</description></item></rss>".

Definition network (url : string) : Exc string :=
  if String.eqb url "https://a.example/rss" then Ok good_body else Throw "NetworkError".

Definition sourcer_platform : Sourcer.Platform :=
  {| Sourcer.fetch_text := network;
     Sourcer.isoNow := "2024-01-15T06:00:00.000Z";
     Sourcer.kv_available := true |}.

Definition sourcer_state : Sourcer.State :=
  {| Sourcer.kv := ∅; Sourcer.console := [] |}.

(** A stand-in for the platform's URL parser, for texts of the shape
    [scheme://host/path]: the host is what stands between [://] and the
    next [/]. *)
Definition simple_hostname (link : string) : Exc string :=
  match split "/" link with
  | scheme :: "" :: host :: _ =>
      if (0 <? String.length host)%nat && negb (includes link " ") then Ok host
      else Throw "TypeError"
  | _ => Throw "TypeError"
  end.

Definition router_platform : Router.Platform :=
  {| Router.fetch_text := network;
     Router.URL_hostname := simple_hostname;
     Router.random_draws := fun _ => 1 # 2;
     Router.randomUUID := "00000000-0000-4000-8000-000000000000";
     Router.isoNow := "2024-01-15T06:00:00.000Z";
     Router.localeDate := "1/15/2024";
     Router.kv_available := true |}.

Definition router_state : Router.State :=
  {| Router.kv := ∅; Router.random_calls := 0; Router.console := [] |}.

End Batches.

Module Feeds.
Import JS.

(** A feed body with one item whose description is two characters long. *)
Definition short_block : string :=
  "<item><title>Hello LA</title><link>https://a.example/x</link>"
    +:+ "<description>Hi</description></item>".

Definition short_feed : string := "<rss><channel>" +:+ short_block +:+ "</channel></rss>".

(** A body that is no well-formed XML: the item is never closed. *)
Definition broken_feed : string := "<rss><item><title>Hello</title><link>x</link>".

End Feeds.

(* ===================================================================== *)
(** ** Words of the further properties *)
(* ===================================================================== *)

(** [w] is the literal [p], letter case apart when [ignoreCase] is set. *)
Fixpoint lit_equal (ignoreCase : bool) (p w : string) : bool :=
  match p, w with
  | EmptyString, EmptyString => true
  | String a p', String x w' => JS.char_matches ignoreCase a x && lit_equal ignoreCase p' w'
  | _, _ => false
  end.

(** What it means for the text [w] to match the pattern [r], and what the
    match does to the capture array. *)
Fixpoint matches (ignoreCase : bool) (r : JS.regex) (w : string)
    (before after : JS.captures) : Prop :=
  match r with
  | JS.Lit p => after = before /\ lit_equal ignoreCase p w = true
  | JS.Rep _ min cs =>
      after = before /\ all_chars (JS.charset_mem cs) w = true /\ (min <= String.length w)%nat
  | JS.Grp i r1 =>
      exists mid, matches ignoreCase r1 w before mid /\ after = JS.set_capture i (Some w) mid
  | JS.Seq r1 r2 =>
      exists w1 w2 mid,
        w = w1 +:+ w2
        /\ matches ignoreCase r1 w1 before mid /\ matches ignoreCase r2 w2 mid after
  | JS.Alt r1 r2 =>
      matches ignoreCase r1 w before after \/ matches ignoreCase r2 w before after
  end.

(** No [<] of [s] has a [>] anywhere after it: [s] holds no tag. *)
Fixpoint tag_free (s : string) : bool :=
  match s with
  | EmptyString => true
  | String c s' =>
      (if Ascii.eqb c "<" then all_chars (not_char ">") s' else true) && tag_free s'
  end.

(** The fields of an item that the loop body pushes. *)
Definition well_formed_item (it : Sourcer.Item) : Prop :=
  exists t l d,
    Sourcer.title it = Some t /\ (1 <= String.length t)%nat
    /\ (all_chars (not_char "]") t = true \/ all_chars (not_char "<") t = true)
    /\ Sourcer.link it = Some l /\ (1 <= String.length l)%nat
    /\ all_chars (not_char "<") l = true
    /\ Sourcer.description it = Some d.

(* ===================================================================== *)
(** ** Words of the properties of the handlers *)
(* ===================================================================== *)

(** *** The token *)

(** The JSON text of the token header for a [kid] already escaped. *)
Definition header_json (kid : string) : string :=
  "{" +:+ JS.dquote +:+ "alg" +:+ JS.dquote +:+ ":" +:+ JS.dquote +:+ "HS256" +:+ JS.dquote
      +:+ "," +:+ JS.dquote +:+ "typ" +:+ JS.dquote +:+ ":" +:+ JS.dquote +:+ "JWT"
      +:+ JS.dquote
      +:+ "," +:+ JS.dquote +:+ "kid" +:+ JS.dquote +:+ ":" +:+ JS.dquote +:+ kid
      +:+ JS.dquote +:+ "}".

(** The JSON text of the token payload. *)
Definition payload_json (iat exp : Z) : string :=
  "{" +:+ JS.dquote +:+ "iat" +:+ JS.dquote +:+ ":" +:+ JS.decimal iat
      +:+ "," +:+ JS.dquote +:+ "exp" +:+ JS.dquote +:+ ":" +:+ JS.decimal exp
      +:+ "," +:+ JS.dquote +:+ "aud" +:+ JS.dquote +:+ ":" +:+ JS.dquote +:+ "/admin/"
      +:+ JS.dquote +:+ "}".

(** *** Draft creation *)

(** The calendar day of an ISO timestamp: the text before its [T]. *)
Definition day (iso : string) : string := JS.to_string (nth_error (JS.split "T" iso) 0).

(** The key under which [handleCreateDraft] looks for the content. *)
Definition draftKey (p : Sourcer.DraftPlatform) (publicationDate : JS.jsval) : string :=
  "content_" +:+ JS.to_string
                   (JS.or_else publicationDate (Some (day (Sourcer.draft_isoNow p)))).

(** The title of the draft: the request's, or the dated default. *)
Definition draftTitle (p : Sourcer.DraftPlatform) (title : JS.jsval) : string :=
  JS.to_string
    (JS.or_else title (Some ("CurationsLA Good Vibes - " +:+ Sourcer.draft_localeDate p))).

(** The request holds one post, a draft whose html is the digest of
    [content] under [title]. *)
Definition carries_digest (content : list Sourcer.SourceEntry) (title : string)
    (request : Sourcer.CmsRequest) : Prop :=
  exists post,
    Sourcer.posts request = [post]
    /\ Sourcer.post_title post = title
    /\ Sourcer.post_html post = Sourcer.html (Sourcer.generateDraftHTML content title)
    /\ Sourcer.post_status post = "draft".

(** The one request of the content sourcer's draft handler, for a minted
    token, the stored content and the title of the body. *)
Definition draft_request (p : Sourcer.DraftPlatform) (jwt : string)
    (content : list Sourcer.SourceEntry) (title : JS.jsval) : Sourcer.CmsRequest :=
  {| Sourcer.request_url :=
       JS.to_string (Sourcer.GHOST_SITE_URL (Sourcer.env p)) +:+ "/ghost/api/admin/posts/";
     Sourcer.authorization := "Ghost " +:+ jwt;
     Sourcer.posts :=
       [ {| Sourcer.post_title := draftTitle p title;
            Sourcer.post_html :=
              Sourcer.html (Sourcer.generateDraftHTML content (draftTitle p title));
            Sourcer.post_status := "draft";
            Sourcer.post_tags := ["curations-la"; "good-vibes"; "newsletter"] |} ] |}.

(** What the spread of the body's [tags] gives, if it can be spread. *)
Definition spread (tags : Router.TagsField) : option (list string) :=
  match tags with
  | Router.TagsAbsent => Some []
  | Router.TagsList l => Some l
  | Router.TagsNotIterable => None
  end.

(** The one request of the router's draft handler, for a minted token,
    the fields of the body and the spread of its tags. *)
Definition router_draft_request (jwt localeDate : string) (fields : Router.DraftFields)
    (tags : list string) : Router.CmsRequest :=
  {| Router.request_url := "https://curationsla-1.ghost.io/ghost/api/admin/posts/";
     Router.authorization := "Ghost " +:+ jwt;
     Router.posts :=
       [ {| Router.post_title :=
              if JS.truthy (Router.body_title fields)
              then JS.to_string (Router.body_title fields)
              else "CurationsLA Draft - " +:+ localeDate;
            Router.post_html :=
              if JS.truthy (Router.body_html fields)
              then JS.to_string (Router.body_html fields)
              else "<p>Content sourced and ready for editing!</p>";
            Router.post_status := "draft";
            Router.post_tags := "curations-la" :: "newsletter" :: tags |} ] |}.

(** *** Stored content *)

(** The platform's listing names every key of the namespace that starts
    with the prefix. *)
Definition complete_listing (namespace : gmap string (Router.SourcedContent * Z))
    (listing : string -> list string) : Prop :=
  forall prefix key,
    String.prefix prefix key = true -> is_Some (namespace !! key) -> In key (listing prefix).

(** *** Dispatch *)

Definition permanent (r : Router.Route) : bool :=
  match r with
  | Router.Redirect _ 301 => true
  | _ => false
  end.

Definition canonicalHost : string := "la.curations.cc".

(** The request that follows a redirect to the canonical host. *)
Definition at_canonical (method pathname search : string) : Router.Request :=
  {| Router.method := method;
     Router.hostname := canonicalHost;
     Router.pathname := pathname;
     Router.search := search |}.

(** The answer is a page, a handler or a redirect. *)
Definition served (r : Router.Route) : bool :=
  match r with
  | Router.NotFoundPage | Router.ServerError => false
  | _ => true
  end.

(** The [<loc>] element of a sitemap entry. *)
Definition locLine (host : string) (url : Router.SitemapUrl) : string :=
  "<loc>https://" +:+ host +:+ Router.loc url +:+ "</loc>".

(** *** Filters *)

(** The router's filter asks [Math.random] about the item. *)
Definition undecided (item : Router.Item) : bool :=
  negb (Router.hasNegative item) && negb (Router.hasPositive item).

(** What one source adds to the content array of the first worker text:
    what [parseAndFilter] makes of its body, or nothing when its fetch or
    the read of its body throws. *)
Definition legacy_entry (fetch_text : string -> JS.Exc string) (source : string)
    : list (option string) :=
  match fetch_text source with
  | JS.Ok text => [Legacy.parseAndFilter text]
  | JS.Throw _ => []
  end.

(** What one source adds to the console. *)
Definition legacy_line (fetch_text : string -> JS.Exc string) (source : string)
    : list string :=
  match fetch_text source with
  | JS.Ok _ => []
  | JS.Throw error => ["Failed to fetch " +:+ source +:+ ": " +:+ error]
  end.

(** *** Concrete inputs of the handlers *)

Module Drafts.
Import JS.

(** A CMS that accepts every post and names it [p1]. *)
Definition cms_accepts (request : Sourcer.CmsRequest) : Exc Sourcer.CmsResponse :=
  Ok {| Sourcer.ok := true;
        Sourcer.status := 201;
        Sourcer.statusText := "Created";
        Sourcer.post_ids := Ok (map (fun _ => Some "p1") (Sourcer.posts request)) |}.

Definition platform : Sourcer.DraftPlatform :=
  {| Sourcer.env := {| Sourcer.GHOST_ADMIN_API_KEY := Some (Wide.widen "abc:00ff");
                       Sourcer.GHOST_SITE_URL := Some "https://cms.example" |};
     Sourcer.cms_fetch := cms_accepts;
     Sourcer.kv_rejects := None;
     Sourcer.draft_isoNow := "2024-01-15T09:30:00.000Z";
     Sourcer.draft_localeDate := "1/15/2024";
     Sourcer.draft_iatNow := 1705311000000;
     Sourcer.draft_expNow := 1705311000000 |}.

(** A body that names neither a title nor a date. *)
Definition empty_body : Exc (option Sourcer.DraftFields) :=
  Ok (Some {| Sourcer.body_title := None; Sourcer.body_publicationDate := None |}).

(** A body that names a date and no title. *)
Definition dated_body (publicationDate : string) : Exc (option Sourcer.DraftFields) :=
  Ok (Some {| Sourcer.body_title := None;
              Sourcer.body_publicationDate := Some publicationDate |}).

(** The platform with another admin key. *)
Definition with_key (key : option Wide.units) : Sourcer.DraftPlatform :=
  {| Sourcer.env := {| Sourcer.GHOST_ADMIN_API_KEY := key;
                       Sourcer.GHOST_SITE_URL := Some "https://cms.example" |};
     Sourcer.cms_fetch := cms_accepts;
     Sourcer.kv_rejects := None;
     Sourcer.draft_isoNow := "2024-01-15T09:30:00.000Z";
     Sourcer.draft_localeDate := "1/15/2024";
     Sourcer.draft_iatNow := 1705311000000;
     Sourcer.draft_expNow := 1705311000000 |}.

(** The platform whose namespace cannot be read. *)
Definition unreadable : Sourcer.DraftPlatform :=
  {| Sourcer.env := Sourcer.env platform;
     Sourcer.cms_fetch := cms_accepts;
     Sourcer.kv_rejects := Some "KV GET failed";
     Sourcer.draft_isoNow := "2024-01-15T09:30:00.000Z";
     Sourcer.draft_localeDate := "1/15/2024";
     Sourcer.draft_iatNow := 1705311000000;
     Sourcer.draft_expNow := 1705311000000 |}.

Definition sourced : gmap string (list Sourcer.SourceEntry) :=
  {[ "content_2024-01-15" := [Batches.with_item] ]}.

End Drafts.

Module Requests.

Definition legacy_about : Router.Request :=
  {| Router.method := "GET";
     Router.hostname := "curatedla.xyz";
     Router.pathname := "/about";
     Router.search := "?ref=1" |}.

Definition archived_post : Router.Request :=
  {| Router.method := "GET";
     Router.hostname := "la.curations.cc";
     Router.pathname := "/p/summer-guide";
     Router.search := "" |}.

(** The listing of a namespace that holds the one key of the run of
    [Batches.router_platform]. *)
Definition listing (prefix : string) : list string :=
  if String.prefix prefix "content:00000000-0000-4000-8000-000000000000"
  then ["content:00000000-0000-4000-8000-000000000000"]
  else [].

(** A CMS that accepts every post, names it [p1] and returns its title. *)
Definition cms_accepts (request : Router.CmsRequest) : JS.Exc Router.CmsResponse :=
  JS.Ok {| Router.ok := true;
           Router.cms_status := 201;
           Router.statusText := "Created";
           Router.created :=
             JS.Ok (map (fun post => (Some "p1", Some (Router.post_title post)))
                      (Router.posts request)) |}.

(** A body with a title, no html and the given tags. *)
Definition titled (tags : Router.TagsField) : Router.DraftFields :=
  {| Router.body_title := Some "Weekend";
     Router.body_html := None;
     Router.body_tags := tags |}.

Definition art_walk : Router.Item :=
  {| Router.title := "Art Walk";
     Router.link := "https://example.com/art-walk";
     Router.excerpt := "";
     Router.source := "example.com" |}.

End Requests.

(* ===================================================================== *)
(** ** The texts of the digest *)
(* ===================================================================== *)








(** No [<] in the text. *)
Definition plain (s : string) : bool := all_chars (not_char "<") s.



(* ===================================================================== *)
(** ** Feeds that give a run nothing *)
(* ===================================================================== *)




Module Outages.
Import JS.

(** A feed body with two items that the router keeps whatever
    [Math.random] returns. *)
Definition two_item_body : string :=
  "<rss><item><title>Art Walk in LA</title><link>https://c.example/art</link>"
    +:+ "<description>community art</description></item>"
    +:+ "<item><title>Food Festival</title><link>https://c.example/food</link>"
    +:+ "<description>street food</description></item></rss>".

(** The feed at [c.example] answers; every other fetch is rejected. *)
Definition network (url : string) : Exc string :=
  if String.eqb url "https://c.example/rss" then Ok two_item_body else Throw "NetworkError".

Definition router_platform : Router.Platform :=
  {| Router.fetch_text := network;
     Router.URL_hostname := Batches.simple_hostname;
     Router.random_draws := fun _ => 1 # 2;
     Router.randomUUID := "00000000-0000-4000-8000-000000000000";
     Router.isoNow := "2024-01-15T06:00:00.000Z";
     Router.localeDate := "1/15/2024";
     Router.kv_available := true |}.

(** The feed at [a.example] answers with its items; the one at
    [b.example] answers 503 with an error page. *)
Definition unavailable (url : string) : Exc string :=
  if String.eqb url "https://a.example/rss" then Ok Batches.good_body
  else Ok "<html><body><h1>503 Service Unavailable</h1></body></html>".

Definition sourcer_platform : Sourcer.Platform :=
  {| Sourcer.fetch_text := unavailable;
     Sourcer.isoNow := "2024-01-15T06:00:00.000Z";
     Sourcer.kv_available := true |}.

End Outages.

(* ===================================================================== *)
(** ** The description element of an item block *)
(* ===================================================================== *)

(** The code unit is no line terminator. *)
Definition on_line (c : ascii) : bool :=
  negb (Ascii.eqb c "010") && negb (Ascii.eqb c "013").

(** The text [s] starts with a closing [description] tag, in any letter
    case. *)
Definition closes_here (s : string) : Prop :=
  exists closing rest, s = closing +:+ rest /\ lit_equal true "</description>" closing = true.

(** The text [s] starts with a [description] element that opens and
    closes on one line, whose text is [d] and after whose text comes
    [tail]: an opening tag, whose name is [description] in any letter
    case and which may hold attributes, the text [d] without a line
    terminator, and [tail], which starts with a closing tag. *)
Definition element_here (s d tail : string) : Prop :=
  exists opening attributes,
    s = opening +:+ attributes +:+ ">" +:+ d +:+ tail
    /\ lit_equal true "<description" opening = true
    /\ all_chars (not_char ">") attributes = true
    /\ all_chars on_line d = true
    /\ closes_here tail.

(** [d] is the text of the first [description] element of [block] that
    opens and closes on one line, up to the nearest closing tag: no such
    element starts earlier in the block, and no closing tag starts inside
    [d]. *)
Definition description_element (block d : string) : Prop :=
  exists before rest tail,
    block = before +:+ rest
    /\ element_here rest d tail
    /\ (forall d1 d2, d = d1 +:+ d2 -> d2 <> "" -> ~ closes_here (d2 +:+ tail))
    /\ forall b1 b2 d' tail',
         before = b1 +:+ b2 -> b2 <> "" -> ~ element_here (b2 +:+ rest) d' tail'.

(* ===================================================================== *)
(** * Part II: properties *)
(* ===================================================================== *)

(** ** Strings *)

Lemma append_cons (c : ascii) (s t : string) : String c s +:+ t = String c (s +:+ t).
Proof. reflexivity. Qed.

Lemma append_nil_l (s : string) : "" +:+ s = s.
Proof. reflexivity. Qed.

Lemma append_nil_r (s : string) : s +:+ "" = s.
Proof. induction s as [|c s IH]; [reflexivity|]. rewrite append_cons, IH. reflexivity. Qed.

Lemma append_assoc (s t u : string) : (s +:+ t) +:+ u = s +:+ (t +:+ u).
Proof.
  induction s as [|c s IH]; [reflexivity|].
  rewrite !append_cons, IH. reflexivity.
Qed.

(** Pushes the leading constructors of an append outwards. *)
Ltac string_norm := repeat (rewrite append_cons || rewrite append_nil_l).

Lemma bind_Ok {A B} (a : A) (k : A -> JS.Exc B) : (JS.Ok a ≫= k) = k a.
Proof. reflexivity. Qed.

Lemma bind_mret {A B} (a : A) (k : A -> JS.Exc B) : (mret a ≫= k) = k a.
Proof. reflexivity. Qed.

(** Runs the binds whose first computation has returned. *)
Ltac exc_norm := repeat (rewrite bind_Ok || rewrite bind_mret).

Lemma length_append (s t : string) :
  String.length (s +:+ t) = (String.length s + String.length t)%nat.
Proof.
  induction s as [|c s IH]; [reflexivity|].
  rewrite append_cons. simpl. rewrite IH. reflexivity.
Qed.

Lemma prefix_spec (t s : string) : String.prefix t s = true <-> exists b, s = t +:+ b.
Proof.
  revert s. induction t as [|c t IH]; intros s.
  - destruct s; simpl; split; eauto.
  - destruct s as [|d s]; simpl.
    + split; [discriminate|]. intros [b Hb]. discriminate.
    + destruct (ascii_dec c d) as [->|Hne].
      * rewrite IH. split; intros [b Hb]; exists b.
        -- rewrite append_cons. congruence.
        -- rewrite append_cons in Hb. congruence.
      * split; [discriminate|]. intros [b Hb].
        rewrite append_cons in Hb. congruence.
Qed.

Lemma includes_nil (t : string) : JS.includes "" t = String.prefix t "" || false.
Proof. reflexivity. Qed.

Lemma includes_cons (c : ascii) (s t : string) :
  JS.includes (String c s) t = String.prefix t (String c s) || JS.includes s t.
Proof. reflexivity. Qed.

Lemma includes_occurs (s t : string) : JS.includes s t = true <-> occurs t s.
Proof.
  induction s as [|c s IH].
  - rewrite includes_nil, orb_false_r, prefix_spec. split.
    + intros [b Hb]. exists "", b. exact Hb.
    + intros [a [b Hab]]. destruct a; [eauto|discriminate].
  - rewrite includes_cons, orb_true_iff, prefix_spec, IH. split.
    + intros [[b Hb]|[a [b Hab]]].
      * exists "", b. exact Hb.
      * exists (String c a), b. rewrite append_cons. congruence.
    + intros [a [b Hab]]. destruct a as [|d a].
      * left. exists b. exact Hab.
      * right. exists a, b. rewrite append_cons in Hab. congruence.
Qed.

Lemma includes_false_iff (s t : string) : JS.includes s t = false <-> ~ occurs t s.
Proof.
  rewrite <- includes_occurs. destruct (JS.includes s t); split; congruence.
Qed.

Lemma prefix_cons_ne (c d : ascii) (p s : string) :
  c <> d -> String.prefix (String c p) (String d s) = false.
Proof. intros Hne. simpl. destruct (ascii_dec c d); [contradiction|reflexivity]. Qed.

Lemma all_chars_substring0 (p : ascii -> bool) (n : nat) (s : string) :
  all_chars p s = true -> all_chars p (JS.substring0 n s) = true.
Proof.
  unfold JS.substring0. revert s. induction n as [|n IH]; intros s Hs.
  - destruct s; reflexivity.
  - destruct s as [|c s]; [reflexivity|]. cbn [String.substring all_chars] in *.
    apply andb_true_iff in Hs as [Hc Hs]. rewrite Hc, (IH s Hs). reflexivity.
Qed.

(** ** The classifier of the content sourcer *)

Section Classifier.
Variable sources : Sourcer.Sources.

Lemma occursIn_occurs (text keyword : string) :
  Sourcer.occursIn text keyword = true <-> occurs (JS.toLowerCase keyword) text.
Proof. apply includes_occurs. Qed.

Lemma hasNegative_true (text : string) :
  Sourcer.hasNegative sources text = true <->
  exists k, In k (Sourcer.negative_keywords sources) /\ occurs (JS.toLowerCase k) text.
Proof.
  unfold Sourcer.hasNegative. rewrite existsb_exists.
  split; intros [k [Hin Hk]]; exists k; split; auto; apply occursIn_occurs; exact Hk.
Qed.

Lemma hasNegative_false (text : string) :
  Sourcer.hasNegative sources text = false <->
  forall k, In k (Sourcer.negative_keywords sources) -> ~ occurs (JS.toLowerCase k) text.
Proof.
  split.
  - intros Hf k Hin Hk.
    assert (Sourcer.hasNegative sources text = true) as Ht
      by (apply hasNegative_true; eauto).
    congruence.
  - intros Hall. destruct (Sourcer.hasNegative sources text) eqn:E; [|reflexivity].
    apply hasNegative_true in E as [k [Hin Hk]]. destruct (Hall k Hin Hk).
Qed.

Lemma hasLAKeyword_true (text : string) :
  Sourcer.hasLAKeyword sources text = true <->
  exists k, In k (Sourcer.required_la_keywords (Sourcer.content_filters sources))
            /\ occurs (JS.toLowerCase k) text.
Proof.
  unfold Sourcer.hasLAKeyword. rewrite existsb_exists.
  split; intros [k [Hin Hk]]; exists k; split; auto; apply occursIn_occurs; exact Hk.
Qed.

(** The [reduce] of the source counts the keywords that occur. *)
Lemma score_fold (text : string) (keywords : list string) (start : Z) :
  fold_left (fun score keyword => if Sourcer.occursIn text keyword then score + 1 else score)
    keywords start
  = start + Z.of_nat (length (List.filter (Sourcer.occursIn text) keywords)).
Proof.
  revert start. induction keywords as [|k ks IH]; intros start; cbn [fold_left List.filter].
  - cbn [length]. lia.
  - rewrite IH. destruct (Sourcer.occursIn text k).
    + cbn [length]. rewrite Nat2Z.inj_succ. lia.
    + lia.
Qed.

Lemma goodVibesScore_count (text : string) :
  Sourcer.goodVibesScore sources text = Z.of_nat (positive_count sources text).
Proof. unfold Sourcer.goodVibesScore, positive_count. rewrite score_fold. lia. Qed.

(** C1, as amended. The classifier accepts an item if and only if no
    configured banned keyword occurs in the item's lowercase text, the
    number of configured positive keywords that occur in it is at least
    the configured minimum score, and at least one required-locality
    keyword occurs in it. An item that fails any of the three is rejected. *)
Theorem accepts_iff (item : Sourcer.Item) :
  Sourcer.accepts sources item = true <->
  (forall k, In k (Sourcer.negative_keywords sources) ->
             ~ occurs (JS.toLowerCase k) (Sourcer.itemText item))
  /\ Sourcer.min_good_vibes_score (Sourcer.content_filters sources)
       <= Z.of_nat (positive_count sources (Sourcer.itemText item))
  /\ (exists k, In k (Sourcer.required_la_keywords (Sourcer.content_filters sources))
                /\ occurs (JS.toLowerCase k) (Sourcer.itemText item)).
Proof.
  unfold Sourcer.accepts.
  rewrite <- hasNegative_false, <- hasLAKeyword_true, <- goodVibesScore_count.
  destruct (Sourcer.hasNegative sources (Sourcer.itemText item)).
  - split; [discriminate|]. intros [Hneg _]. discriminate.
  - rewrite andb_true_iff, Z.leb_le. tauto.
Qed.

(** C2. If a configured banned keyword occurs, whatever its case, in the
    item's lowercase text, the classifier rejects the item and the filter
    never returns it, whatever else occurs in the text. *)
Theorem banned_keyword_rejects (item : Sourcer.Item) (keyword : string) :
  In keyword (Sourcer.negative_keywords sources) ->
  occurs (JS.toLowerCase keyword) (Sourcer.itemText item) ->
  Sourcer.accepts sources item = false
  /\ forall items, ~ In item (Sourcer.filterGoodVibesContent sources items).
Proof.
  intros Hin Hocc.
  assert (Sourcer.accepts sources item = false) as Hrej.
  { unfold Sourcer.accepts.
    replace (Sourcer.hasNegative sources (Sourcer.itemText item)) with true; [reflexivity|].
    symmetry. apply hasNegative_true. eauto. }
  split; [exact Hrej|].
  intros items Hitem. unfold Sourcer.filterGoodVibesContent in Hitem.
  apply filter_In in Hitem as [_ Hacc]. congruence.
Qed.

(** The decision and the score are functions of the text and of the
    configuration alone: two items with the same text get the same score
    and the same decision. *)
Lemma accepts_text_only (item1 item2 : Sourcer.Item) :
  Sourcer.itemText item1 = Sourcer.itemText item2 ->
  Sourcer.goodVibesScore sources (Sourcer.itemText item1)
    = Sourcer.goodVibesScore sources (Sourcer.itemText item2)
  /\ Sourcer.accepts sources item1 = Sourcer.accepts sources item2.
Proof. intros Heq. unfold Sourcer.accepts. rewrite Heq. split; reflexivity. Qed.

End Classifier.

(** C1, the statement without the veto, at a concrete item: the count of
    positive keywords reaches the minimum and a locality keyword occurs,
    and yet the classifier rejects, because a banned keyword occurs too. *)
Lemma accepts_needs_no_banned_keyword :
  Sourcer.min_good_vibes_score (Sourcer.content_filters Inputs.scenario)
    <= Z.of_nat (positive_count Inputs.scenario (Sourcer.itemText Inputs.block_party_shooting))
  /\ Sourcer.hasLAKeyword Inputs.scenario (Sourcer.itemText Inputs.block_party_shooting) = true
  /\ Sourcer.accepts Inputs.scenario Inputs.block_party_shooting = false.
Proof. vm_compute. repeat split; discriminate. Qed.

(** The specification's scenario: three positive keywords, the locality
    keyword, no banned keyword. *)
Example scenario_accepted :
  Sourcer.goodVibesScore Inputs.scenario (Sourcer.itemText Inputs.block_party) = 3
  /\ Sourcer.accepts Inputs.scenario Inputs.block_party = true.
Proof. split; reflexivity. Qed.

Lemma occurs_intro (a t b s : string) : s = a +:+ t +:+ b -> occurs t s.
Proof. intros ->. exists a, b. reflexivity. Qed.

Lemma banned_keyword_rejects_witness :
  Sourcer.accepts Inputs.scenario Inputs.block_party_shooting = false
  /\ forall items,
       ~ In Inputs.block_party_shooting (Sourcer.filterGoodVibesContent Inputs.scenario items).
Proof.
  apply (banned_keyword_rejects Inputs.scenario Inputs.block_party_shooting "shooting").
  - simpl. auto.
  - apply (occurs_intro "block party in la community art festival after a " _ "").
    reflexivity.
Defined.

(** ** The classifier of the router *)

Lemma router_hasNegative_true (item : Router.Item) :
  Router.hasNegative item = true <->
  exists word, In word Router.bannedWords /\ occurs word (Router.itemText item).
Proof.
  unfold Router.hasNegative. rewrite existsb_exists.
  split; intros [w [Hin Hw]]; exists w; split; auto; apply includes_occurs; exact Hw.
Qed.

(** The router's classifier rejects on a banned word as well, whatever
    [Math.random] returns. *)
Lemma router_banned_word_rejects (item : Router.Item) (word : string) :
  In word Router.bannedWords ->
  occurs word (Router.itemText item) ->
  (forall random, Router.keeps item random = false)
  /\ forall draws calls items, ~ In item (fst (Router.filterGoodVibes draws calls items)).
Proof.
  intros Hin Hocc.
  assert (Router.hasNegative item = true) as Hneg
    by (apply router_hasNegative_true; eauto).
  split.
  - intros random. unfold Router.keeps. rewrite Hneg. reflexivity.
  - intros draws calls items. revert calls.
    induction items as [|it rest IH]; intros calls; cbn [Router.filterGoodVibes].
    + simpl. tauto.
    + destruct (Router.hasNegative it) eqn:Eneg; [apply IH|].
      assert (it <> item) as Hne by (intros ->; congruence).
      destruct (Router.hasPositive it).
      * specialize (IH calls). destruct (Router.filterGoodVibes draws calls rest) as [kept c].
        simpl in *. intros [H|H]; auto.
      * specialize (IH (S calls)).
        destruct (Router.filterGoodVibes draws (S calls) rest) as [kept c].
        destruct (negb (Qle_bool (draws calls) Router.threshold)); simpl in *; [|exact IH].
        intros [H|H]; auto.
Qed.

(** C3, on the router's classifier. The same item under the same word
    lists is kept when [Math.random] returns one half and dropped when it
    returns zero: the decision is not a function of the input. *)
Theorem filterGoodVibes_follows_random :
  Router.keeps Inputs.plain (1 # 2) = true
  /\ Router.keeps Inputs.plain 0%Q = false
  /\ fst (Router.filterGoodVibes (fun _ => 1 # 2) 0 [Inputs.plain]) = [Inputs.plain]
  /\ fst (Router.filterGoodVibes (fun _ => 0%Q) 0 [Inputs.plain]) = [].
Proof. vm_compute. repeat split. Qed.

(** ** Token minting *)

(** Induction on strings three code units at a time, as [btoa] reads them. *)
Lemma string_ind3 (P : string -> Prop) :
  P "" ->
  (forall a, P (String a "")) ->
  (forall a b, P (String a (String b ""))) ->
  (forall a b c rest, P rest -> P (String a (String b (String c rest)))) ->
  forall s, P s.
Proof.
  intros H0 H1 H2 H3.
  assert (forall s, P s /\ (forall a, P (String a s)) /\ (forall a b, P (String a (String b s))))
    as Hall.
  { induction s as [|c s [IH0 [IH1 IH2]]]; [auto|].
    split; [apply IH1|]. split; [intros a; apply IH2|]. intros a b. apply H3, IH0. }
  intros s. apply Hall.
Qed.

Lemma replace_char_cons (c x : ascii) (repl s : string) :
  JS.replace_char c repl (String x s)
  = if Ascii.eqb x c then repl +:+ JS.replace_char c repl s
    else String x (JS.replace_char c repl s).
Proof. reflexivity. Qed.

Lemma base64urlEscape_cons (c : ascii) (s : string) :
  Router.base64urlEscape (String c s) = escaped c +:+ Router.base64urlEscape s.
Proof.
  unfold Router.base64urlEscape, escaped. rewrite replace_char_cons.
  destruct (Ascii.eqb_spec c "+") as [->|Hplus]; [reflexivity|].
  rewrite replace_char_cons.
  destruct (Ascii.eqb_spec c "/") as [->|Hslash]; [reflexivity|].
  rewrite replace_char_cons.
  destruct (Ascii.eqb_spec c "=") as [->|Heq]; reflexivity.
Qed.

Lemma base64urlEscape_nil : Router.base64urlEscape "" = "".
Proof. reflexivity. Qed.

Lemma escaped_base64_char (x : JS.sextet) :
  escaped (JS.base64_char x) = String (base64url_char x) "".
Proof. destruct x as [[[[[[] []] []] []] []] []]; reflexivity. Qed.

Lemma base64url_sextet_char (x : JS.sextet) :
  Holder.base64url_sextet (base64url_char x) = Some x.
Proof. destruct x as [[[[[[] []] []] []] []] []]; reflexivity. Qed.

Lemma escaped_pad : escaped "=" = "".
Proof. reflexivity. Qed.

(** Decoding undoes [base64urlEscape] after [btoa]. *)
Lemma base64url_decode_encode (s : string) :
  Holder.base64url_decode (Router.base64urlEscape (JS.btoa s)) = Some s.
Proof.
  induction s as [| a | a b | a b c rest IH] using string_ind3.
  - reflexivity.
  - destruct a as [a0 a1 a2 a3 a4 a5 a6 a7]. cbn [JS.btoa].
    rewrite !base64urlEscape_cons, base64urlEscape_nil, !escaped_base64_char, escaped_pad.
    string_norm. cbn [Holder.base64url_decode].
    rewrite !base64url_sextet_char. reflexivity.
  - destruct a as [a0 a1 a2 a3 a4 a5 a6 a7], b as [b0 b1 b2 b3 b4 b5 b6 b7]. cbn [JS.btoa].
    rewrite !base64urlEscape_cons, base64urlEscape_nil, !escaped_base64_char, escaped_pad.
    string_norm. cbn [Holder.base64url_decode].
    rewrite !base64url_sextet_char. reflexivity.
  - destruct a as [a0 a1 a2 a3 a4 a5 a6 a7], b as [b0 b1 b2 b3 b4 b5 b6 b7],
      c as [c0 c1 c2 c3 c4 c5 c6 c7]. cbn [JS.btoa].
    rewrite !base64urlEscape_cons, !escaped_base64_char.
    string_norm. cbn [Holder.base64url_decode].
    rewrite !base64url_sextet_char, IH. reflexivity.
Qed.

Lemma all_chars_app (p : ascii -> bool) (a b : string) :
  all_chars p (a +:+ b) = all_chars p a && all_chars p b.
Proof.
  induction a as [|c a IH]; [reflexivity|].
  rewrite append_cons. cbn [all_chars]. rewrite IH, andb_assoc. reflexivity.
Qed.

Lemma all_chars_impl (p q : ascii -> bool) (s : string) :
  (forall c, p c = true -> q c = true) -> all_chars p s = true -> all_chars q s = true.
Proof.
  intros Hpq. induction s as [|c s IH]; [reflexivity|].
  cbn [all_chars]. rewrite !andb_true_iff. intros [Hc Hs]. auto.
Qed.

Lemma is_base64url_char (x : JS.sextet) : is_base64url (base64url_char x) = true.
Proof. destruct x as [[[[[[] []] []] []] []] []]; reflexivity. Qed.

Lemma is_base64url_not_dot (c : ascii) : is_base64url c = true -> not_char "." c = true.
Proof.
  intros H. destruct c as [[] [] [] [] [] [] [] []];
    first [reflexivity | vm_compute in H; discriminate].
Qed.

(** The encoded segments are written in the base64url alphabet. *)
Lemma encoded_alphabet (s : string) :
  all_chars is_base64url (Router.base64urlEscape (JS.btoa s)) = true.
Proof.
  induction s as [| a | a b | a b c rest IH] using string_ind3.
  - reflexivity.
  - destruct a as [a0 a1 a2 a3 a4 a5 a6 a7]. cbn [JS.btoa].
    rewrite !base64urlEscape_cons, base64urlEscape_nil, !escaped_base64_char, escaped_pad.
    string_norm. cbn [all_chars]. rewrite !is_base64url_char. reflexivity.
  - destruct a as [a0 a1 a2 a3 a4 a5 a6 a7], b as [b0 b1 b2 b3 b4 b5 b6 b7]. cbn [JS.btoa].
    rewrite !base64urlEscape_cons, base64urlEscape_nil, !escaped_base64_char, escaped_pad.
    string_norm. cbn [all_chars]. rewrite !is_base64url_char. reflexivity.
  - destruct a as [a0 a1 a2 a3 a4 a5 a6 a7], b as [b0 b1 b2 b3 b4 b5 b6 b7],
      c as [c0 c1 c2 c3 c4 c5 c6 c7]. cbn [JS.btoa].
    rewrite !base64urlEscape_cons, !escaped_base64_char.
    string_norm. cbn [all_chars]. rewrite !is_base64url_char, IH. reflexivity.
Qed.

Lemma encoded_no_dot (s : string) :
  all_chars (not_char ".") (Router.base64urlEscape (JS.btoa s)) = true.
Proof. eapply all_chars_impl; [apply is_base64url_not_dot|apply encoded_alphabet]. Qed.

(** [split] on a text free of the separator, and across a separator. *)
Lemma split_free (sep : ascii) (s : string) :
  all_chars (not_char sep) s = true -> JS.split sep s = [s].
Proof.
  induction s as [|c s IH]; [reflexivity|].
  cbn [all_chars JS.split]. rewrite andb_true_iff. unfold not_char at 1.
  intros [Hc Hs]. apply negb_true_iff in Hc. rewrite Hc, (IH Hs). reflexivity.
Qed.

Lemma split_app (sep : ascii) (a b : string) :
  all_chars (not_char sep) a = true ->
  JS.split sep (a +:+ String sep b) = a :: JS.split sep b.
Proof.
  induction a as [|c a IH].
  - intros _. rewrite append_nil_l. cbn [JS.split]. rewrite Ascii.eqb_refl. reflexivity.
  - cbn [all_chars]. rewrite andb_true_iff. unfold not_char at 1.
    intros [Hc Ha]. apply negb_true_iff in Hc.
    rewrite append_cons. cbn [JS.split]. rewrite Hc, (IH Ha). reflexivity.
Qed.

Lemma after_dots_0 (s : string) : Holder.after_dots 0 s = Some s.
Proof. destruct s; reflexivity. Qed.

Lemma after_dots_app (n : nat) (a b : string) :
  all_chars (not_char ".") a = true ->
  Holder.after_dots (S n) (a +:+ String "." b) = Holder.after_dots n b.
Proof.
  induction a as [|c a IH].
  - intros _. reflexivity.
  - cbn [all_chars]. rewrite andb_true_iff. unfold not_char at 1.
    intros [Hc Ha]. apply negb_true_iff in Hc.
    rewrite append_cons. cbn [Holder.after_dots]. rewrite Hc. apply IH, Ha.
Qed.

Lemma includes_char_free (c : ascii) (s : string) :
  JS.includes s (String c "") = false -> all_chars (not_char c) s = true.
Proof.
  induction s as [|x s IH]; [reflexivity|].
  rewrite includes_cons, orb_false_iff. intros [Hp Hs].
  cbn [all_chars]. rewrite (IH Hs), andb_true_r. unfold not_char.
  destruct (Ascii.eqb_spec x c) as [->|Hne]; [|reflexivity].
  assert (String.prefix (String c "") (String c s) = true) as Ht
    by (apply prefix_spec; exists s; reflexivity).
  congruence.
Qed.

Lemma option_bind_Some {A B} (a : A) (k : A -> option B) : (Some a ≫= k) = k a.
Proof. reflexivity. Qed.

(** An admin key [id:secret] splits into its two parts. *)
Lemma split_admin_key (id secret : string) :
  JS.includes id ":" = false -> JS.includes secret ":" = false ->
  JS.split ":" (id +:+ ":" +:+ secret) = [id; secret].
Proof.
  intros Hid Hsecret.
  change (id +:+ ":" +:+ secret) with (id +:+ String ":" secret).
  rewrite split_app by (apply includes_char_free, Hid).
  rewrite split_free by (apply includes_char_free, Hsecret). reflexivity.
Qed.

(** The two workers mint the same token. *)
Lemma generateGhostJWT_same (adminAPIKey : string) (now : Z) :
  Sourcer.generateGhostJWT adminAPIKey now = Router.generateGhostJWT adminAPIKey now.
Proof. reflexivity. Qed.

(** C5. For an admin key [id:secret], the minted token has three
    dot-separated segments, and decoding the third from base64url gives
    the first two segments and the secret joined by dots: the secret
    stands in the clear as the suffix after the dot that follows the
    second segment, and the holder of the token reads it off. *)
Theorem minted_token_reveals_secret (id secret : string) (now : Z) :
  JS.includes id ":" = false ->
  JS.includes secret ":" = false ->
  let token := Router.generateGhostJWT (id +:+ ":" +:+ secret) now in
  exists header payload signature,
    JS.split "." token = [header; payload; signature]
    /\ Holder.base64url_decode signature
       = Some (header +:+ "." +:+ payload +:+ "." +:+ secret)
    /\ Holder.recover_secret token = Some secret.
Proof.
  intros Hid Hsecret token.
  exists (Router.encodedHeader (Some id)), (Router.encodedPayload now),
         (Router.signature (Some id) (Some secret) now).
  assert (JS.split "." token
          = [Router.encodedHeader (Some id); Router.encodedPayload now;
             Router.signature (Some id) (Some secret) now]) as Hsplit.
  { unfold token, Router.generateGhostJWT. rewrite (split_admin_key _ _ Hid Hsecret).
    cbn [nth_error].
    change (?a +:+ "." +:+ ?b +:+ "." +:+ ?c) with (a +:+ String "." (b +:+ String "." c)).
    rewrite split_app by apply encoded_no_dot.
    rewrite split_app by apply encoded_no_dot.
    rewrite split_free by apply encoded_no_dot. reflexivity. }
  assert (Holder.base64url_decode (Router.signature (Some id) (Some secret) now)
          = Some (Router.encodedHeader (Some id) +:+ "." +:+ Router.encodedPayload now
                    +:+ "." +:+ secret)) as Hdecode.
  { unfold Router.signature. apply base64url_decode_encode. }
  split; [exact Hsplit|]. split; [exact Hdecode|].
  unfold Holder.recover_secret. rewrite Hsplit. cbn [nth_error].
  rewrite option_bind_Some, Hdecode, option_bind_Some.
  change (?a +:+ "." +:+ ?b +:+ "." +:+ ?c) with (a +:+ String "." (b +:+ String "." c)).
  rewrite after_dots_app by apply encoded_no_dot.
  rewrite after_dots_app by apply encoded_no_dot. apply after_dots_0.
Qed.

Lemma minted_token_reveals_secret_witness :
  let token := Router.generateGhostJWT ("abc" +:+ ":" +:+ "00ff") 1700000000123 in
  exists header payload signature,
    JS.split "." token = [header; payload; signature]
    /\ Holder.base64url_decode signature
       = Some (header +:+ "." +:+ payload +:+ "." +:+ "00ff")
    /\ Holder.recover_secret token = Some "00ff".
Proof.
  apply (minted_token_reveals_secret "abc" "00ff" 1700000000123); reflexivity.
Defined.

(** C4, at the admin key [abc:00ff] minted at 1700000000123 ms. The third
    segment of the token is the base64url text of the two segments and the
    secret, 168 characters long; the HMAC-SHA256 signature that the
    specification requires for the same segments and secret is another
    text, 43 characters long. *)
Theorem signature_is_not_hmac :
  let token := Router.generateGhostJWT "abc:00ff" 1700000000123 in
  let header := Router.encodedHeader (Some "abc") in
  let payload := Router.encodedPayload 1700000000123 in
  let signature := Router.signature (Some "abc") (Some "00ff") 1700000000123 in
  let required := "HZYr5ZkaY4yplwkd0qb04aYq07VqYEV3Fdr5VxspqL4" in
  JS.split "." token = [header; payload; signature]
  /\ Spec.required_signature header payload "00ff" = Some required
  /\ String.eqb signature required = false
  /\ String.length signature = 168%nat
  /\ String.length required = 43%nat.
Proof. vm_compute. repeat split. Qed.

(** The hash and the keyed hash on published test vectors (FIPS 180-4
    "abc", RFC 4231 test case 2). *)
Example sha256_abc :
  Spec.sha256 (Spec.bytes_of_string "abc")
  = [186; 120; 22; 191; 143; 1; 207; 234; 65; 65; 64; 222; 93; 174; 34; 35;
     176; 3; 97; 163; 150; 23; 122; 156; 180; 16; 255; 97; 242; 0; 21; 173]%N.
Proof. vm_compute. reflexivity. Qed.

Example hmac_sha256_rfc4231_2 :
  Spec.hmac_sha256 (Spec.bytes_of_string "Jefe")
    (Spec.bytes_of_string "what do ya want for nothing?")
  = [91; 220; 193; 70; 191; 96; 117; 78; 106; 4; 36; 38; 8; 149; 117; 199;
     90; 0; 63; 8; 157; 39; 57; 131; 157; 236; 88; 185; 100; 236; 56; 67]%N.
Proof. vm_compute. reflexivity. Qed.

(** ** The digest *)






Lemma occurs_join (x : string) (parts : list string) : In x parts -> occurs x (join parts).
Proof.
  induction parts as [|y parts IH]; [intros []|].
  intros [->|Hin]; cbn [join fold_right].
  - exists "", (fold_right String.append "" parts). reflexivity.
  - destruct (IH Hin) as [a [b Hab]]. exists (y +:+ a), b.
    fold (join parts). rewrite Hab, !append_assoc. reflexivity.
Qed.

Lemma occurs_append (x a s b : string) : occurs x s -> occurs x (a +:+ s +:+ b).
Proof.
  intros [u [v ->]]. exists (a +:+ u), (v +:+ b). rewrite !append_assoc. reflexivity.
Qed.

Lemma occurs_prefix (x rest : string) : occurs x (x +:+ rest).
Proof. exists "", rest. reflexivity. Qed.

(** *** The digest in the words of its template *)

















(** The digest of a batch of two sources, one of them without items,
    written out. *)
Example digest_example :
  Sourcer.html (Sourcer.generateDraftHTML [Batches.without_item; Batches.with_item] "Digest")
  = "<h1>Digest</h1>" +:+ JS.newline
      +:+ "<p><em>A curated collection of Good Vibes from around LA</em></p>" +:+ JS.newline
      +:+ JS.newline
      +:+ "<h2>A - news</h2>" +:+ JS.newline
      +:+ "<ul>" +:+ JS.newline
      +:+ "<li><a href=" +:+ JS.dquote +:+ "https://example.com/party" +:+ JS.dquote
      +:+ " target=" +:+ JS.dquote +:+ "_blank" +:+ JS.dquote +:+ ">Block Party in LA</a>"
      +:+ "<br><small>community art festival...</small></li>" +:+ JS.newline
      +:+ "</ul>" +:+ JS.newline +:+ JS.newline
      +:+ "<hr>" +:+ JS.newline
      +:+ "<p><small>🤖 <em>A project curated by Humans x AI at <a href=" +:+ JS.dquote
      +:+ "https://curations.cc" +:+ JS.dquote +:+ ">Curations.cc</a></em></small></p>".
Proof. vm_compute. reflexivity. Qed.

(** ** The sourcing loops *)

Section SourcerLoop.
Variable sources : Sourcer.Sources.
Variable p : Sourcer.Platform.

Lemma sourcer_fetchOne_items (acc : list Sourcer.SourceEntry * list string) (feed : Feed.t) :
  fst (Sourcer.fetchOne sources p acc feed) = fst acc ++ contribution sources p feed.
Proof.
  unfold contribution, Sourcer.fetchOne.
  destruct (_ ≫= _) as [entry|e]; cbn [fst]; [reflexivity|].
  rewrite app_nil_r. reflexivity.
Qed.

Lemma sourcer_fold_items (feeds : list Feed.t) (acc : list Sourcer.SourceEntry * list string) :
  fst (fold_left (Sourcer.fetchOne sources p) feeds acc)
  = fst acc ++ flat_map (contribution sources p) feeds.
Proof.
  revert acc. induction feeds as [|feed feeds IH]; intros acc; cbn [fold_left flat_map].
  - rewrite app_nil_r. reflexivity.
  - rewrite IH, sourcer_fetchOne_items, <- app_assoc. reflexivity.
Qed.

(** The stored list is the concatenation of what each feed contributes. *)
Lemma sourcer_fetchAll_items (feeds : list Feed.t) (log : list string) :
  fst (Sourcer.fetchAll sources p feeds log) = flat_map (contribution sources p) feeds.
Proof. unfold Sourcer.fetchAll. rewrite sourcer_fold_items. reflexivity. Qed.


Lemma contribution_with_feeds (feeds : list Feed.t) (feed : Feed.t) :
  contribution (with_feeds sources feeds) p feed = contribution sources p feed.
Proof. reflexivity. Qed.

End SourcerLoop.

Section SourcerRun.
Variable sources : Sourcer.Sources.
Variable p : Sourcer.Platform.

Lemma sourcer_run_kv (feeds : list Feed.t) (st : Sourcer.State) :
  Sourcer.kv (snd (Sourcer.handleSourceContent (with_feeds sources feeds) p st))
  = if Sourcer.kv_available p
    then <[Sourcer.contentKey p := flat_map (contribution sources p) feeds]> (Sourcer.kv st)
    else Sourcer.kv st.
Proof.
  unfold Sourcer.handleSourceContent.
  pose proof (sourcer_fetchAll_items sources p feeds (Sourcer.console st)) as Hitems.
  change (Sourcer.rss_feeds (with_feeds sources feeds)) with feeds.
  change (Sourcer.fetchAll (with_feeds sources feeds)) with (Sourcer.fetchAll sources).
  destruct (Sourcer.fetchAll sources p feeds (Sourcer.console st)) as [stored log].
  cbn [fst] in Hitems. subst stored.
  destruct (Sourcer.kv_available p); reflexivity.
Qed.


End SourcerRun.

Section RouterLoop.
Variable p : Router.Platform.
Variable perFeed : Z.

Lemma router_fetchOne_items (acc : list Router.Item * list string) (sourceUrl : string) :
  fst (Router.fetchOne p perFeed acc sourceUrl)
  = fst acc ++ router_contribution p perFeed sourceUrl.
Proof.
  unfold router_contribution, Router.fetchOne.
  destruct (_ ≫= _) as [items|e]; cbn [fst]; [reflexivity|].
  rewrite app_nil_r. reflexivity.
Qed.

Lemma router_fold_items (urls : list string) (acc : list Router.Item * list string) :
  fst (fold_left (Router.fetchOne p perFeed) urls acc)
  = fst acc ++ flat_map (router_contribution p perFeed) urls.
Proof.
  revert acc. induction urls as [|u urls IH]; intros acc; cbn [fold_left flat_map].
  - rewrite app_nil_r. reflexivity.
  - rewrite IH, router_fetchOne_items, <- app_assoc. reflexivity.
Qed.

(** The fetched items are the concatenation of what each feed contributes. *)
Lemma router_fetchAll_items (urls : list string) (log : list string) :
  fst (Router.fetchAll p perFeed urls log) = flat_map (router_contribution p perFeed) urls.
Proof. unfold Router.fetchAll. rewrite router_fold_items. reflexivity. Qed.

Lemma router_contribution_failed (sourceUrl error : string) :
  Router.fetch_text p sourceUrl = JS.Throw error ->
  router_contribution p perFeed sourceUrl = [].
Proof. intros H. unfold router_contribution, Router.fetchOne. rewrite H. reflexivity. Qed.

End RouterLoop.

(** The router's run on a non-empty list of feeds, the store being
    available: the response and the stored items. *)
Lemma router_run (p : Router.Platform) (st : Router.State)
    (urls : list string) (category : string) (maxItems : Z) :
  urls <> [] ->
  Router.kv_available p = true ->
  let perFeed := Router.ceil_div maxItems (Z.of_nat (length urls)) in
  let run := Router.handleSourceContent p st urls category maxItems in
  let kept := fst (Router.filterGoodVibes (Router.random_draws p) (Router.random_calls st)
                     (flat_map (router_contribution p perFeed) urls)) in
  fst run = Router.Success (Router.randomUUID p) (length kept)
  /\ exists stored,
       Router.kv (snd run) !! ("content:" +:+ Router.randomUUID p) = Some (stored, 604800)
       /\ Router.content_items stored = kept
       /\ Router.sources stored = urls.
Proof.
  intros Hne Hkv perFeed run kept. subst run kept. unfold Router.handleSourceContent.
  assert (match urls with [] => Router.defaultSources | _ :: _ => urls end = urls) as ->
    by (destruct urls; congruence).
  fold perFeed.
  pose proof (router_fetchAll_items p perFeed urls (Router.console st)) as Hitems.
  destruct (Router.fetchAll p perFeed urls (Router.console st)) as [fetched log].
  cbn [fst] in Hitems. subst fetched.
  destruct (Router.filterGoodVibes _ _ _) as [kept calls].
  rewrite Hkv. cbn [fst snd Router.kv Router.id]. split; [reflexivity|].
  eexists. split; [apply lookup_insert_eq|]. split; reflexivity.
Qed.

(** *** A feed that gives nothing *)











(** The concrete run: the answering feed's item is stored, the failed
    feed leaves a line on the console, and the response is a success. *)
Example sourcer_run_example :
  let run := Sourcer.handleSourceContent
               (with_feeds Inputs.scenario [Batches.good_feed; Batches.down_feed])
               Batches.sourcer_platform Batches.sourcer_state in
  fst run = Sourcer.Success 2 1 "content_2024-01-15"
  /\ Sourcer.kv (snd run) !! "content_2024-01-15"
     = Some [ {| Sourcer.source := "A"; Sourcer.category := "news";
                 Sourcer.items :=
                   [ {| Sourcer.title := Some "Block Party in LA";
                        Sourcer.link := Some "https://a.example/party";
                        Sourcer.description := Some "community art festival" |} ] |} ]
  /\ Sourcer.console (snd run) = ["Error fetching B: NetworkError"].
Proof. vm_compute. repeat split. Qed.

(** ** Regular-expression matching *)

Section MatcherFacts.
Context {R : Type}.
Variable ignoreCase : bool.

Lemma match_lit_inv (p s : string) (n : nat) (k : string -> nat -> option R) (x : R) :
  JS.match_lit ignoreCase p s n k = Some x -> exists s' n', k s' n' = Some x.
Proof.
  revert s n. induction p as [|a p IH]; intros s n; cbn [JS.match_lit].
  - eauto.
  - destruct s as [|c s]; [discriminate|].
    destruct (JS.char_matches ignoreCase a c); [apply IH|discriminate].
Qed.

Lemma rep_greedy_inv (cs : JS.charset) (min : nat) (s : string) (n : nat)
    (k : string -> nat -> option R) (x : R) :
  JS.rep_greedy cs min s n k = Some x -> exists s' n', k s' n' = Some x.
Proof.
  revert min n. induction s as [|c s IH]; intros min n; cbn [JS.rep_greedy].
  - destruct min; [eauto|discriminate].
  - destruct (JS.charset_mem cs c).
    + destruct (JS.rep_greedy cs (Nat.pred min) s (S n) k) eqn:E.
      * intros [= <-]. apply (IH _ _ E).
      * destruct min; [eauto|discriminate].
    + destruct min; [eauto|discriminate].
Qed.

Lemma rep_lazy_inv (cs : JS.charset) (min : nat) (s : string) (n : nat)
    (k : string -> nat -> option R) (x : R) :
  JS.rep_lazy cs min s n k = Some x -> exists s' n', k s' n' = Some x.
Proof.
  revert min n. induction s as [|c s IH]; intros min n; cbn [JS.rep_lazy].
  - destruct min; [|discriminate]. destruct (k "" n) eqn:E; [|discriminate].
    intros [= <-]. eauto.
  - destruct min.
    + destruct (k (String c s) n) eqn:E.
      * intros [= <-]. eauto.
      * destruct (JS.charset_mem cs c); [apply IH|discriminate].
    + destruct (JS.charset_mem cs c); [apply IH|discriminate].
Qed.

(** A successful run reaches its continuation, with the captures that the
    pattern's groups have set. *)
Lemma run_inv (r : JS.regex) (s : string) (n : nat) (caps : JS.captures)
    (k : string -> nat -> JS.captures -> option R) (x : R) :
  JS.run ignoreCase r s n caps k = Some x ->
  exists s' n' caps', k s' n' caps' = Some x /\ captures_after r caps caps'.
Proof.
  revert s n caps k.
  induction r as [p | greedy min cs | i r1 IH1 | r1 IH1 r2 IH2 | r1 IH1 r2 IH2];
    intros s n caps k; cbn [JS.run captures_after].
  - intros H. apply match_lit_inv in H as [s' [n' H]]. eauto.
  - intros H. destruct greedy.
    + apply rep_greedy_inv in H as [s' [n' H]]. eauto.
    + apply rep_lazy_inv in H as [s' [n' H]]. eauto.
  - intros H. apply IH1 in H as [s' [n' [caps' [H Hcaps]]]]. eauto 8.
  - intros H. apply IH1 in H as [s1 [n1 [caps1 [H Hcaps1]]]].
    apply IH2 in H as [s2 [n2 [caps2 [H Hcaps2]]]]. eauto 8.
  - destruct (JS.run ignoreCase r1 s n caps k) eqn:E.
    + intros [= <-]. apply IH1 in E as [s' [n' [caps' [H Hcaps]]]]. eauto 8.
    + intros H. apply IH2 in H as [s' [n' [caps' [H Hcaps]]]]. eauto 8.
Qed.

End MatcherFacts.

Lemma match_here_inv (ignoreCase : bool) (r : JS.regex) (s : string) (n : nat)
    (caps : JS.captures) :
  JS.match_here ignoreCase r s = Some (n, caps) ->
  exists mid whole, captures_after r [] mid /\ caps = JS.set_capture 0 (Some whole) mid.
Proof.
  unfold JS.match_here. intros H.
  apply run_inv in H as [s' [n' [caps' [H Hcaps]]]].
  injection H as <- <-. eauto.
Qed.

Lemma exec_inv (ignoreCase : bool) (r : JS.regex) (s : string) (caps : JS.captures) :
  JS.exec ignoreCase r s = Some caps ->
  exists mid whole, captures_after r [] mid /\ caps = JS.set_capture 0 (Some whole) mid.
Proof.
  induction s as [|c s IH]; cbn [JS.exec].
  - destruct (JS.match_here ignoreCase r "") as [[n caps']|] eqn:E; [|discriminate].
    intros [= <-]. eapply match_here_inv, E.
  - destruct (JS.match_here ignoreCase r (String c s)) as [[n caps']|] eqn:E; [|exact IH].
    intros [= <-]. eapply match_here_inv, E.
Qed.

(** A match of the router's element pattern has its group 1 defined. *)
Lemma elementPattern_group (tag block : string) (caps : JS.captures) :
  JS.exec true (Router.elementPattern tag) block = Some caps ->
  exists text, JS.get_capture caps 1 = Some text.
Proof.
  intros H. apply exec_inv in H as [mid [whole [Hmid ->]]].
  unfold Router.elementPattern in Hmid. cbn [captures_after] in Hmid.
  destruct Hmid as [m1 [-> [m2 [-> [m3 [-> [m4 [[m5 [text [-> ->]]] ->]]]]]]]].
  exists text. reflexivity.
Qed.

(** ** Item extraction in the router *)

Lemma cleanHtml_string (s : string) : Router.cleanHtml (Some s) = JS.Ok (cleanText s).
Proof. reflexivity. Qed.

Section RouterExtraction.
Variable URL_hostname : string -> JS.Exc string.

(** [extractDomain] catches what the URL parser throws. *)
Lemma extractDomain_cases (url : JS.jsval) :
  Router.extractDomain URL_hostname url
  = JS.Ok (match URL_hostname (JS.to_string url) with
           | JS.Ok hostname => JS.replace_first "www." "" hostname
           | JS.Throw _ => "Unknown"
           end).
Proof.
  unfold Router.extractDomain. destruct (URL_hostname (JS.to_string url)); reflexivity.
Qed.

(** The loop body returns: a match array is read only under the test
    that it is not [null], and the groups read are defined. *)
Lemma parseItemBlock_cases (block : string) :
  Router.parseItemBlock URL_hostname block = JS.Ok None
  \/ exists title link source,
       Router.parseItemBlock URL_hostname block
       = JS.Ok (Some {| Router.title := title; Router.link := link;
                        Router.excerpt :=
                          match descriptionOf block with
                          | Some d => JS.substring0 200 (cleanText d) +:+ "..."
                          | None => ""
                          end;
                        Router.source := source |}).
Proof.
  unfold Router.parseItemBlock, descriptionOf.
  destruct (JS.exec true (Router.elementPattern "title") block) as [tcaps|] eqn:Et;
    [|left; reflexivity].
  destruct (JS.exec true (Router.elementPattern "link") block) as [lcaps|] eqn:El;
    [|left; reflexivity].
  right.
  destruct (elementPattern_group _ _ _ Et) as [t Ht].
  destruct (elementPattern_group _ _ _ El) as [l Hl].
  cbn [JS.index bool_decide]. rewrite !bool_decide_eq_true_2 by eauto. cbn [andb].
  do 3 eexists.
  exc_norm. rewrite Ht, Hl, cleanHtml_string. exc_norm. cbn [JS.method]. exc_norm.
  rewrite extractDomain_cases.
  destruct (JS.exec true (Router.elementPattern "description") block) as [dcaps|] eqn:Ed.
  - destruct (elementPattern_group _ _ _ Ed) as [d Hd].
    rewrite bool_decide_eq_true_2 by eauto. cbn [JS.index].
    exc_norm. rewrite Hd, cleanHtml_string. exc_norm.
    rewrite option_bind_Some, Hd. reflexivity.
  - rewrite bool_decide_eq_false_2 by (intros [? ?]; discriminate).
    exc_norm. reflexivity.
Qed.

Lemma parseItemBlock_itemsOf (block : string) :
  exists pushed,
    Router.parseItemBlock URL_hostname block = JS.Ok pushed
    /\ itemsOf URL_hostname block = match pushed with Some it => [it] | None => [] end.
Proof.
  unfold itemsOf.
  destruct (parseItemBlock_cases block) as [H|[t [l [src H]]]]; rewrite H; eauto.
Qed.

Lemma parse_fold (blocks : list string) (acc : list Router.Item) :
  fold_left
    (fun acc item =>
       items ← acc;
       pushed ← Router.parseItemBlock URL_hostname item;
       mret (match pushed with
             | Some it => items ++ [it]
             | None => items
             end))
    blocks (JS.Ok acc)
  = JS.Ok (acc ++ flat_map (itemsOf URL_hostname) blocks).
Proof.
  revert acc. induction blocks as [|block blocks IH]; intros acc; cbn [fold_left flat_map].
  - rewrite app_nil_r. reflexivity.
  - destruct (parseItemBlock_itemsOf block) as [pushed [Hparse Hitems]].
    rewrite bind_Ok, Hparse, bind_Ok, Hitems.
    destruct pushed as [it|]; unfold mret, JS.Exc_ret; rewrite IH.
    + rewrite <- app_assoc. reflexivity.
    + reflexivity.
Qed.

(** The extractor returns, and returns the items of the blocks read. *)
Lemma parseRSSFeed_items (xmlText : string) (maxItems : Z) :
  Router.parseRSSFeed URL_hostname xmlText maxItems
  = JS.Ok (flat_map (itemsOf URL_hostname) (blocksRead xmlText maxItems)).
Proof. unfold Router.parseRSSFeed, mret, JS.Exc_ret. rewrite parse_fold. reflexivity. Qed.

Lemma itemsOf_length (block : string) : (length (itemsOf URL_hostname block) <= 1)%nat.
Proof. unfold itemsOf. destruct (Router.parseItemBlock _ _) as [[it|]|e]; simpl; lia. Qed.

Lemma flat_map_itemsOf_length (blocks : list string) :
  (length (flat_map (itemsOf URL_hostname) blocks) <= length blocks)%nat.
Proof.
  induction blocks as [|block blocks IH]; [reflexivity|].
  cbn [flat_map]. rewrite length_app. pose proof (itemsOf_length block). simpl. lia.
Qed.

Lemma blocksRead_length (xmlText : string) (maxItems : Z) :
  (length (blocksRead xmlText maxItems)
   <= length (JS.match_all true Router.itemPattern xmlText))%nat.
Proof. unfold blocksRead. rewrite length_firstn. lia. Qed.

End RouterExtraction.

Lemma in_firstn {A} (n : nat) (l : list A) (x : A) : In x (firstn n l) -> In x l.
Proof.
  intros H. rewrite <- (firstn_skipn n l). apply in_or_app. left. exact H.
Qed.

Lemma substring0_length (n : nat) (s : string) : (String.length (JS.substring0 n s) <= n)%nat.
Proof.
  unfold JS.substring0. revert s. induction n as [|n IH]; intros s.
  - destruct s; simpl; lia.
  - destruct s as [|c s]; simpl; [lia|]. specialize (IH s). lia.
Qed.

(** C7, the statement with the conditional marker, at a concrete feed:
    the cleaned description [Hi] has two characters, nothing is cut, and
    the stored excerpt still ends with the three-dot marker. *)
Lemma short_description_is_marked :
  Router.parseRSSFeed Batches.simple_hostname Feeds.short_feed 5
  = JS.Ok [ {| Router.title := "Hello LA";
               Router.link := "https://a.example/x";
               Router.excerpt := "Hi...";
               Router.source := "a.example" |} ]
  /\ descriptionOf Feeds.short_block = Some "Hi"
  /\ cleanText "Hi" = "Hi"
  /\ (String.length (cleanText "Hi") <=? 200)%nat = true.
Proof. vm_compute. repeat split. Qed.

(** ** Domain derivation *)

Lemma replace_first_cons (pat repl : string) (c : ascii) (s : string) :
  String.prefix pat (String c s) = false ->
  JS.replace_first pat repl (String c s) = String c (JS.replace_first pat repl s).
Proof. intros H. cbn [JS.replace_first]. rewrite H. reflexivity. Qed.

Lemma replace_first_here (pat repl s : string) :
  String.prefix pat s = true ->
  JS.replace_first pat repl s = repl +:+ JS.drop (String.length pat) s.
Proof. intros H. destruct s; cbn [JS.replace_first]; rewrite H; reflexivity. Qed.

(** [replace] removes the first [www.] wherever it stands. *)
Lemma replace_first_inner (a b : string) :
  all_chars (not_char "w") a = true ->
  JS.replace_first "www." "" (a +:+ "www." +:+ b) = a +:+ b.
Proof.
  induction a as [|c a IH].
  - intros _. rewrite replace_first_here by (apply prefix_spec; eauto). reflexivity.
  - cbn [all_chars]. rewrite andb_true_iff. unfold not_char at 1.
    intros [Hc Ha]. apply negb_true_iff, Ascii.eqb_neq in Hc.
    change (String c a +:+ "www." +:+ b) with (String c (a +:+ "www." +:+ b)).
    change (String c a +:+ b) with (String c (a +:+ b)).
    rewrite replace_first_cons, (IH Ha); [reflexivity|].
    apply prefix_cons_ne. congruence.
Qed.

(** C8, where the code departs from it. When the link's hostname holds
    [www.] after a first part [a] without the letter w, the derived domain
    is the hostname with that inner [www.] cut out, not the hostname with
    a leading prefix removed. *)
Theorem extractDomain_cuts_inner_www (URL_hostname : string -> JS.Exc string)
    (url : JS.jsval) (a b : string) :
  all_chars (not_char "w") a = true ->
  URL_hostname (JS.to_string url) = JS.Ok (a +:+ "www." +:+ b) ->
  Router.extractDomain URL_hostname url = JS.Ok (a +:+ b).
Proof.
  intros Ha Hhost. rewrite extractDomain_cases, Hhost, (replace_first_inner _ _ Ha).
  reflexivity.
Qed.

Lemma extractDomain_cuts_inner_www_witness :
  Router.extractDomain Batches.simple_hostname (Some "https://static.www.example.com/feed")
  = JS.Ok ("static." +:+ "example.com").
Proof.
  apply (extractDomain_cuts_inner_www Batches.simple_hostname
           (Some "https://static.www.example.com/feed") "static." "example.com");
    reflexivity.
Defined.

(** The same derivation evaluated: the hostname [static.www.example.com]
    loses its inner label, and [www.example.com] its leading one. *)
Example extractDomain_examples :
  Router.extractDomain Batches.simple_hostname (Some "https://static.www.example.com/feed")
  = JS.Ok "static.example.com"
  /\ Router.extractDomain Batches.simple_hostname (Some "https://www.example.com/feed")
     = JS.Ok "example.com"
  /\ Router.extractDomain Batches.simple_hostname (Some "not a link") = JS.Ok "Unknown"
  /\ Router.extractDomain Batches.simple_hostname None = JS.Ok "Unknown".
Proof. vm_compute. repeat split. Qed.

(** The parts of the domain derivation that hold: it never throws, a link
    that the parser rejects gives the sentinel, and a leading [www.] is
    removed. *)
Lemma extractDomain_total (URL_hostname : string -> JS.Exc string) (url : JS.jsval) :
  (exists domain, Router.extractDomain URL_hostname url = JS.Ok domain)
  /\ (forall error, URL_hostname (JS.to_string url) = JS.Throw error ->
      Router.extractDomain URL_hostname url = JS.Ok "Unknown")
  /\ (forall rest, URL_hostname (JS.to_string url) = JS.Ok ("www." +:+ rest) ->
      Router.extractDomain URL_hostname url = JS.Ok rest).
Proof.
  rewrite extractDomain_cases. split; [eauto|]. split.
  - intros error ->. reflexivity.
  - intros rest ->. rewrite replace_first_here by (apply prefix_spec; eauto).
    reflexivity.
Qed.

(** ** Item extraction in the content sourcer *)

Lemma parseItemMatch_itemsOf (m : JS.captures) :
  exists pushed,
    Sourcer.parseItemMatch m = JS.Ok pushed
    /\ itemsOfMatch m = match pushed with Some it => [it] | None => [] end.
Proof.
  unfold itemsOfMatch, Sourcer.parseItemMatch.
  destruct (JS.exec true Sourcer.titleRegex _) as [tcaps|];
    [|eexists; split; reflexivity].
  destruct (JS.exec true Sourcer.linkRegex _) as [lcaps|];
    [|eexists; split; reflexivity].
  rewrite !bool_decide_eq_true_2 by eauto. cbn [andb JS.index]. exc_norm.
  destruct (JS.exec true Sourcer.descRegex _) as [dcaps|].
  - rewrite bool_decide_eq_true_2 by eauto. cbn [JS.index]. exc_norm.
    eexists. split; reflexivity.
  - rewrite bool_decide_eq_false_2 by (intros [? ?]; discriminate). exc_norm.
    eexists. split; reflexivity.
Qed.

Lemma parse_match_fold (matches : list JS.captures) (acc : list Sourcer.Item) :
  fold_left
    (fun acc m =>
       items ← acc;
       pushed ← Sourcer.parseItemMatch m;
       mret (match pushed with
             | Some it => items ++ [it]
             | None => items
             end))
    matches (JS.Ok acc)
  = JS.Ok (acc ++ flat_map itemsOfMatch matches).
Proof.
  revert acc. induction matches as [|m matches IH]; intros acc; cbn [fold_left flat_map].
  - rewrite app_nil_r. reflexivity.
  - destruct (parseItemMatch_itemsOf m) as [pushed [Hparse Hitems]].
    rewrite bind_Ok, Hparse, bind_Ok, Hitems.
    destruct pushed as [it|]; unfold mret, JS.Exc_ret; rewrite IH.
    + rewrite <- app_assoc. reflexivity.
    + reflexivity.
Qed.

Lemma parseRSSItems_items (rssText : string) :
  Sourcer.parseRSSItems rssText
  = JS.Ok (flat_map itemsOfMatch (JS.exec_all true Sourcer.itemRegex rssText)).
Proof. unfold Sourcer.parseRSSItems, mret, JS.Exc_ret. rewrite parse_match_fold. reflexivity. Qed.

Lemma flat_map_itemsOfMatch_length (matches : list JS.captures) :
  (length (flat_map itemsOfMatch matches) <= length matches)%nat.
Proof.
  induction matches as [|m matches IH]; [reflexivity|].
  cbn [flat_map]. rewrite length_app.
  assert (length (itemsOfMatch m) <= 1)%nat.
  { unfold itemsOfMatch. destruct (Sourcer.parseItemMatch m) as [[it|]|e]; simpl; lia. }
  simpl. lia.
Qed.

(** C10. On every text the router's extractor and the content sourcer's
    extractor return a list of items and do not throw; the list has at
    most one item per item block that the item pattern finds, so a text
    without such a block gives the empty list. *)
Theorem extractors_return :
  (forall (URL_hostname : string -> JS.Exc string) (xmlText : string) (maxItems : Z),
     exists items,
       Router.parseRSSFeed URL_hostname xmlText maxItems = JS.Ok items
       /\ (length items <= length (JS.match_all true Router.itemPattern xmlText))%nat)
  /\ (forall rssText : string,
     exists items,
       Sourcer.parseRSSItems rssText = JS.Ok items
       /\ (length items <= length (JS.exec_all true Sourcer.itemRegex rssText))%nat).
Proof.
  split.
  - intros URL_hostname xmlText maxItems. eexists. split; [apply parseRSSFeed_items|].
    etransitivity; [apply flat_map_itemsOf_length|apply blocksRead_length].
  - intros rssText. eexists. split; [apply parseRSSItems_items|].
    apply flat_map_itemsOfMatch_length.
Qed.

(** A body whose item is never closed has no item block: both extractors
    return the empty list. *)
Example broken_feed_gives_no_item :
  Router.parseRSSFeed Batches.simple_hostname Feeds.broken_feed 5 = JS.Ok []
  /\ Sourcer.parseRSSItems Feeds.broken_feed = JS.Ok [].
Proof. vm_compute. split; reflexivity. Qed.

(** ** Lengths: the minted signature is never the required one *)

Lemma be_bytes_length (count : nat) (x : N) : length (Spec.be_bytes count x) = count.
Proof.
  revert x. induction count as [|count IH]; intros x; cbn [Spec.be_bytes]; [reflexivity|].
  rewrite length_app, IH. simpl. lia.
Qed.

Lemma round_length (state : list N) (kw : N * N) :
  length (Spec.round state kw) = length state.
Proof.
  unfold Spec.round.
  do 9 (destruct state as [|? state]; [reflexivity|]). reflexivity.
Qed.

Lemma fold_round_length (kws : list (N * N)) (state : list N) :
  length (fold_left Spec.round kws state) = length state.
Proof.
  revert state. induction kws as [|kw kws IH]; intros state; cbn [fold_left]; [reflexivity|].
  rewrite IH. apply round_length.
Qed.

Lemma compress_length (hash block : list N) :
  length (Spec.compress hash block) = length hash.
Proof.
  unfold Spec.compress. rewrite length_map, length_combine, fold_round_length. lia.
Qed.

Lemma fold_compress_length (blocks : list (list N)) (hash : list N) :
  length (fold_left Spec.compress blocks hash) = length hash.
Proof.
  revert hash. induction blocks as [|block blocks IH]; intros hash; cbn [fold_left];
    [reflexivity|].
  rewrite IH. apply compress_length.
Qed.

Lemma concat_be_bytes_length (words : list N) :
  length (concat (map (Spec.be_bytes 4) words)) = (4 * length words)%nat.
Proof.
  induction words as [|w words IH]; [reflexivity|].
  cbn [map concat]. rewrite length_app, be_bytes_length, IH. simpl. lia.
Qed.

(** The hash has thirty-two bytes, and so has the keyed hash. *)
Lemma sha256_length (msg : list N) : length (Spec.sha256 msg) = 32%nat.
Proof.
  unfold Spec.sha256. rewrite concat_be_bytes_length, fold_compress_length. reflexivity.
Qed.

Lemma hmac_sha256_length (key msg : list N) : length (Spec.hmac_sha256 key msg) = 32%nat.
Proof. unfold Spec.hmac_sha256. apply sha256_length. Qed.

Lemma string_of_bytes_length (bytes : list N) :
  String.length (Spec.string_of_bytes bytes) = length bytes.
Proof.
  unfold Spec.string_of_bytes. induction bytes as [|b bytes IH]; [reflexivity|].
  cbn [map string_of_list_ascii String.length]. rewrite IH. reflexivity.
Qed.

(** The length of an encoded segment: base64 without its padding. *)
Lemma encoded_length (s : string) :
  String.length (Router.base64urlEscape (JS.btoa s))
  = ((4 * String.length s + 2) / 3)%nat.
Proof.
  induction s as [| a | a b | a b c rest IH] using string_ind3.
  - reflexivity.
  - destruct a as [a0 a1 a2 a3 a4 a5 a6 a7]. cbn [JS.btoa].
    rewrite !base64urlEscape_cons, base64urlEscape_nil, !escaped_base64_char, escaped_pad.
    reflexivity.
  - destruct a as [a0 a1 a2 a3 a4 a5 a6 a7], b as [b0 b1 b2 b3 b4 b5 b6 b7]. cbn [JS.btoa].
    rewrite !base64urlEscape_cons, base64urlEscape_nil, !escaped_base64_char, escaped_pad.
    reflexivity.
  - destruct a as [a0 a1 a2 a3 a4 a5 a6 a7], b as [b0 b1 b2 b3 b4 b5 b6 b7],
      c as [c0 c1 c2 c3 c4 c5 c6 c7]. cbn [JS.btoa].
    rewrite !base64urlEscape_cons, !escaped_base64_char. string_norm.
    cbn [String.length]. rewrite IH.
    replace (4 * S (S (S (String.length rest))) + 2)%nat
      with (4 * String.length rest + 2 + 4 * 3)%nat by lia.
    rewrite Nat.div_add by lia. lia.
Qed.

Lemma stringify_header_length (id : JS.jsval) :
  (27 <= String.length (Router.stringify_header id))%nat.
Proof.
  unfold Router.stringify_header. rewrite !length_append.
  change (String.length "{") with 1%nat.
  change (String.length (JS.json_string "alg")) with 5%nat.
  change (String.length (JS.json_string "HS256")) with 7%nat.
  change (String.length (JS.json_string "typ")) with 5%nat.
  change (String.length (JS.json_string "JWT")) with 5%nat.
  change (String.length ":") with 1%nat.
  change (String.length ",") with 1%nat.
  change (String.length "}") with 1%nat. lia.
Qed.

Lemma signature_length (id secret : JS.jsval) (now : Z) :
  (50 <= String.length (Router.signature id secret now))%nat.
Proof.
  unfold Router.signature. rewrite encoded_length, !length_append.
  unfold Router.encodedHeader. rewrite encoded_length.
  pose proof (stringify_header_length id) as Hheader.
  assert (36 <= (4 * String.length (Router.stringify_header id) + 2) / 3)%nat as H36.
  { change 36%nat with ((4 * 27 + 2) / 3)%nat. apply Nat.Div0.div_le_mono. lia. }
  change (String.length ".") with 1%nat.
  change 50%nat with ((4 * 37 + 2) / 3)%nat. apply Nat.Div0.div_le_mono. lia.
Qed.

Lemma required_signature_length (encodedHeader encodedPayload secret required : string) :
  Spec.required_signature encodedHeader encodedPayload secret = Some required ->
  String.length required = 43%nat.
Proof.
  unfold Spec.required_signature.
  destruct (Spec.hex_decode secret) as [key|]; [|discriminate].
  rewrite option_bind_Some. intros [= <-].
  rewrite encoded_length, string_of_bytes_length, hmac_sha256_length. reflexivity.
Qed.

(** X1. For every key and every time, the minted signature segment differs
    from the signature that the specification requires for the same two
    segments, whatever hexadecimal secret keys it: the required one has 43
    characters, the minted one at least 50. *)
Theorem signature_never_required (id secret : JS.jsval) (now : Z)
    (hexSecret required : string) :
  Spec.required_signature (Router.encodedHeader id) (Router.encodedPayload now) hexSecret
  = Some required ->
  String.length required = 43%nat
  /\ (50 <= String.length (Router.signature id secret now))%nat
  /\ String.eqb (Router.signature id secret now) required = false.
Proof.
  intros Hreq. pose proof (required_signature_length _ _ _ _ Hreq) as H43.
  pose proof (signature_length id secret now) as H50.
  split; [exact H43|]. split; [exact H50|].
  apply String.eqb_neq. intros Heq. rewrite Heq in H50. lia.
Qed.

Lemma signature_never_required_witness :
  String.length "HZYr5ZkaY4yplwkd0qb04aYq07VqYEV3Fdr5VxspqL4" = 43%nat
  /\ (50 <= String.length (Router.signature (Some "abc") (Some "00ff") 1700000000123))%nat
  /\ String.eqb (Router.signature (Some "abc") (Some "00ff") 1700000000123)
       "HZYr5ZkaY4yplwkd0qb04aYq07VqYEV3Fdr5VxspqL4" = false.
Proof.
  apply (signature_never_required (Some "abc") (Some "00ff") 1700000000123 "00ff").
  vm_compute. reflexivity.
Defined.

(** ** Bounds on the items of one feed *)

(** X2. The router reads at most [maxItems] item blocks of a feed, so it
    extracts at most that many items. *)
Theorem parseRSSFeed_bound (URL_hostname : string -> JS.Exc string)
    (xmlText : string) (maxItems : Z) :
  exists items,
    Router.parseRSSFeed URL_hostname xmlText maxItems = JS.Ok items
    /\ (length items <= Z.to_nat maxItems)%nat.
Proof.
  eexists. split; [apply parseRSSFeed_items|].
  etransitivity; [apply flat_map_itemsOf_length|].
  unfold blocksRead. rewrite length_firstn. lia.
Qed.

(** X3. The content sourcer stores at most five items for a source, all of
    them accepted by the classifier. *)
Theorem contribution_bound (sources : Sourcer.Sources) (p : Sourcer.Platform)
    (feed : Feed.t) :
  Forall
    (fun entry =>
       (length (Sourcer.items entry) <= 5)%nat
       /\ Forall (fun item => Sourcer.accepts sources item = true) (Sourcer.items entry))
    (contribution sources p feed).
Proof.
  unfold contribution, Sourcer.fetchOne.
  destruct (Sourcer.fetch_text p (Feed.url feed)) as [rssText|e]; exc_norm;
    [|constructor].
  rewrite parseRSSItems_items. exc_norm. cbn [fst app].
  constructor; [|constructor]. cbn [Sourcer.items]. split.
  - rewrite length_firstn. lia.
  - apply List.Forall_forall. intros item Hin. apply in_firstn in Hin.
    unfold Sourcer.filterGoodVibesContent in Hin. apply filter_In in Hin. tauto.
Qed.

(* ===================================================================== *)
(** * Part III: further properties of the code *)
(* ===================================================================== *)

(** ** The shape of a minted token *)

Lemma narrow_widen (s : string) : Wide.narrow (Wide.widen s) = Some s.
Proof.
  induction s as [|c s IH]; cbn [Wide.widen Wide.narrow]; [reflexivity|].
  unfold JS.code. rewrite IH.
  assert (N_of_ascii c < 256)%N as Hlt by apply N_ascii_bounded.
  apply N.ltb_lt in Hlt. rewrite Hlt, ascii_N_embedding. reflexivity.
Qed.

Lemma widen_app (a b : string) : Wide.widen (a +:+ b) = Wide.widen a ++ Wide.widen b.
Proof.
  induction a as [|c a IH]; string_norm; cbn [Wide.widen app]; [reflexivity|].
  rewrite IH. reflexivity.
Qed.

Lemma narrow_app (a b : Wide.units) :
  Wide.narrow (a ++ b)
  = match Wide.narrow a, Wide.narrow b with
    | Some x, Some y => Some (x +:+ y)
    | _, _ => None
    end.
Proof.
  induction a as [|x a IH]; cbn [app Wide.narrow].
  - destruct (Wide.narrow b); reflexivity.
  - destruct (x <? 256)%N; [|reflexivity]. rewrite IH.
    destruct (Wide.narrow a), (Wide.narrow b); reflexivity.
Qed.

Lemma wide_split_cons (sep : N) (u : Wide.units) : exists h t, Wide.split sep u = h :: t.
Proof.
  induction u as [|x u [h [t IH]]]; cbn [Wide.split]; [eauto|].
  destruct (x =? sep)%N; [eauto|]. rewrite IH. eauto.
Qed.

(** The header of a key always has a [kid]: its text is what stands
    before the first colon of the key. *)
Lemma wide_id (adminAPIKey : Wide.units) :
  exists id, nth_error (Wide.split 58 adminAPIKey) 0 = Some id.
Proof. destruct (wide_split_cons 58 adminAPIKey) as [h [t ->]]. eauto. Qed.

Lemma narrow_header (id : Wide.units) :
  Wide.narrow (Router.stringify_header_wide (Some id))
  = match Wide.narrow (Wide.json_escape id) with
    | Some kid => Some (header_json kid)
    | None => None
    end.
Proof.
  unfold Router.stringify_header_wide. rewrite !narrow_app, !narrow_widen.
  destruct (Wide.narrow (Wide.json_escape id)) as [kid|]; [|reflexivity].
  f_equal. unfold header_json, JS.json_string. cbn [JS.json_escape JS.json_escape_char].
  rewrite !append_assoc. string_norm. reflexivity.
Qed.

Lemma payload_json_stringify (iat exp : Z) : Router.stringify_payload iat exp = payload_json iat exp.
Proof.
  unfold Router.stringify_payload, payload_json, JS.json_string.
  cbn [JS.json_escape JS.json_escape_char]. rewrite !append_assoc. string_norm. reflexivity.
Qed.

Lemma btoa_widen (s : string) : Wide.btoa (Wide.widen s) = JS.Ok (JS.btoa s).
Proof. unfold Wide.btoa. rewrite narrow_widen. reflexivity. Qed.

Lemma btoa_header (id : Wide.units) :
  Wide.btoa (Router.stringify_header_wide (Some id))
  = match Wide.narrow (Wide.json_escape id) with
    | Some kid => JS.Ok (JS.btoa (header_json kid))
    | None => JS.Throw "InvalidCharacterError"
    end.
Proof.
  unfold Wide.btoa. rewrite narrow_header.
  destruct (Wide.narrow (Wide.json_escape id)); reflexivity.
Qed.

(** What the minting returns, from the texts of its three [btoa] calls. *)
Lemma generateGhostJWT_wide_cases (adminAPIKey : Wide.units) (iatNow expNow : Z) :
  exists id,
    nth_error (Wide.split 58 adminAPIKey) 0 = Some id
    /\ Router.generateGhostJWT_wide adminAPIKey iatNow expNow
       = match Wide.narrow (Wide.json_escape id),
               Wide.narrow (Wide.to_units (nth_error (Wide.split 58 adminAPIKey) 1)) with
         | Some kid, Some secret =>
             let encodedHeader := Router.base64urlEscape (JS.btoa (header_json kid)) in
             let encodedPayload :=
               Router.base64urlEscape
                 (JS.btoa (payload_json (iatNow / 1000) (expNow / 1000 + 300))) in
             JS.Ok (encodedHeader +:+ "." +:+ encodedPayload +:+ "."
                      +:+ Router.base64urlEscape
                            (JS.btoa (encodedHeader +:+ "." +:+ encodedPayload +:+ "."
                                        +:+ secret)))
         | _, _ => JS.Throw "InvalidCharacterError"
         end.
Proof.
  destruct (wide_id adminAPIKey) as [id Hid]. exists id. split; [exact Hid|].
  unfold Router.generateGhostJWT_wide. cbn zeta. rewrite Hid.
  rewrite btoa_header.
  destruct (Wide.narrow (Wide.json_escape id)) as [kid|]; [|reflexivity].
  exc_norm. rewrite btoa_widen. exc_norm.
  unfold Wide.btoa. rewrite narrow_app, narrow_widen.
  rewrite payload_json_stringify. change (5 * 60) with 300.
  destruct (Wide.narrow (Wide.to_units _)) as [secret|]; [|reflexivity].
  exc_norm. rewrite !append_assoc. reflexivity.
Qed.

(** X4. Minting on any admin key, a string of any code units, [iatNow] and
    [expNow] being what the two reads of the clock return. The [kid] is
    the text of the key before its first colon, the secret the text
    between the first and the second colon, or [undefined]. The minting
    throws [InvalidCharacterError] exactly when the [kid], as
    [JSON.stringify] escapes it, or the secret holds a code unit above
    255. Otherwise the token is three dot-separated segments written in
    the base64url alphabet: the first decodes to the header object with
    the algorithm, the type and the [kid], the second to the payload with
    [iat] the first read in whole seconds, [exp] the second read in whole
    seconds plus 300 and the audience, the third to the first two
    segments and the secret, dot-separated. *)
Theorem minted_token_structure (adminAPIKey : Wide.units) (iatNow expNow : Z) :
  exists id,
    nth_error (Wide.split 58 adminAPIKey) 0 = Some id
    /\ match Router.generateGhostJWT_wide adminAPIKey iatNow expNow with
       | JS.Throw error =>
           error = "InvalidCharacterError"
           /\ (Wide.narrow (Wide.json_escape id) = None
               \/ Wide.narrow (Wide.to_units (nth_error (Wide.split 58 adminAPIKey) 1)) = None)
       | JS.Ok token =>
           exists kid secret header payload signature,
             Wide.narrow (Wide.json_escape id) = Some kid
             /\ Wide.narrow (Wide.to_units (nth_error (Wide.split 58 adminAPIKey) 1))
                = Some secret
             /\ JS.split "." token = [header; payload; signature]
             /\ all_chars is_base64url header = true
             /\ all_chars is_base64url payload = true
             /\ all_chars is_base64url signature = true
             /\ Holder.base64url_decode header = Some (header_json kid)
             /\ Holder.base64url_decode payload
                = Some (payload_json (iatNow / 1000) (expNow / 1000 + 300))
             /\ Holder.base64url_decode signature
                = Some (header +:+ "." +:+ payload +:+ "." +:+ secret)
       end.
Proof.
  destruct (generateGhostJWT_wide_cases adminAPIKey iatNow expNow) as (id & Hid & ->).
  exists id. split; [exact Hid|].
  destruct (Wide.narrow (Wide.json_escape id)) as [kid|]; [|auto].
  destruct (Wide.narrow (Wide.to_units _)) as [secret|]; [|auto].
  cbn zeta.
  set (header := Router.base64urlEscape (JS.btoa (header_json kid))).
  set (payload := Router.base64urlEscape (JS.btoa (payload_json _ _))).
  exists kid, secret, header, payload,
    (Router.base64urlEscape (JS.btoa (header +:+ "." +:+ payload +:+ "." +:+ secret))).
  split; [reflexivity|]. split; [reflexivity|]. split.
  { change (?a +:+ "." +:+ ?b +:+ "." +:+ ?c) with (a +:+ String "." (b +:+ String "." c)).
    rewrite split_app by apply encoded_no_dot.
    rewrite split_app by apply encoded_no_dot.
    rewrite split_free by apply encoded_no_dot. reflexivity. }
  split; [apply encoded_alphabet|]. split; [apply encoded_alphabet|].
  split; [apply encoded_alphabet|].
  split; [apply base64url_decode_encode|]. split; apply base64url_decode_encode.
Qed.

(** ** The byte model is the wide one on keys below 256 *)

Lemma code_bounded (c : ascii) : (JS.code c <? 256)%N = true.
Proof. apply N.ltb_lt, N_ascii_bounded. Qed.

Lemma code_not_surrogate (c : ascii) :
  Wide.is_high (JS.code c) = false /\ Wide.is_low (JS.code c) = false.
Proof.
  pose proof (N_ascii_bounded c) as H. unfold Wide.is_high, Wide.is_low, JS.in_range, JS.code.
  split; apply andb_false_iff; left; apply N.leb_gt; lia.
Qed.

Lemma json_escape_widen (s : string) :
  Wide.json_escape (Wide.widen s) = Wide.widen (JS.json_escape s).
Proof.
  induction s as [|c s IH]; cbn [Wide.widen Wide.json_escape JS.json_escape]; [reflexivity|].
  destruct (code_not_surrogate c) as [-> ->]. rewrite code_bounded, IH, widen_app.
  unfold JS.code at 1. rewrite ascii_N_embedding. reflexivity.
Qed.

Lemma code_eqb (c d : ascii) : (JS.code c =? JS.code d)%N = Ascii.eqb c d.
Proof.
  unfold JS.code. destruct (Ascii.eqb_spec c d) as [->|Hne]; [apply N.eqb_refl|].
  apply N.eqb_neq. intros H. apply Hne.
  rewrite <- (ascii_N_embedding c), <- (ascii_N_embedding d), H. reflexivity.
Qed.

Lemma split_widen (sep : ascii) (s : string) :
  Wide.split (JS.code sep) (Wide.widen s) = map Wide.widen (JS.split sep s).
Proof.
  induction s as [|c s IH]; cbn [Wide.widen Wide.split JS.split map]; [reflexivity|].
  rewrite code_eqb, IH. destruct (Ascii.eqb c sep); [reflexivity|].
  destruct (JS.split sep s); reflexivity.
Qed.

Lemma nth_error_widen (parts : list string) (i : nat) :
  nth_error (map Wide.widen parts) i = option_map Wide.widen (nth_error parts i).
Proof. apply nth_error_map. Qed.

(** On a key of code units below 256, with both reads of the clock
    giving the same time, the minting returns the token of the byte
    model. *)
Lemma generateGhostJWT_wide_bytes (adminAPIKey : string) (now : Z) :
  Router.generateGhostJWT_wide (Wide.widen adminAPIKey) now now
  = JS.Ok (Router.generateGhostJWT adminAPIKey now).
Proof.
  destruct (generateGhostJWT_wide_cases (Wide.widen adminAPIKey) now now) as (id & Hid & ->).
  change 58%N with (JS.code ":") in *. rewrite split_widen in *.
  rewrite nth_error_widen in *.
  unfold Router.generateGhostJWT, Router.signature, Router.encodedHeader, Router.encodedPayload.
  destruct (nth_error (JS.split ":" adminAPIKey) 0) as [i|] eqn:Hi; [|discriminate].
  injection Hid as <-. rewrite json_escape_widen, narrow_widen.
  assert (Hsec : Wide.narrow
                   (Wide.to_units (option_map Wide.widen (nth_error (JS.split ":" adminAPIKey) 1)))
                 = Some (JS.to_string (nth_error (JS.split ":" adminAPIKey) 1))).
  { destruct (nth_error (JS.split ":" adminAPIKey) 1); apply narrow_widen. }
  rewrite Hsec. cbn zeta.
  assert (Hh : header_json (JS.json_escape i) = Router.stringify_header (Some i)).
  { unfold header_json, Router.stringify_header, JS.json_member, JS.json_string.
    cbn [JS.json_escape JS.json_escape_char]. rewrite !append_assoc. string_norm. reflexivity. }
  rewrite Hh, <- payload_json_stringify. reflexivity.
Qed.

(** The token of the scenario key, evaluated. *)
Example minted_token_example :
  Holder.base64url_decode (Router.encodedPayload 1700000000123)
  = Some ("{" +:+ JS.json_string "iat" +:+ ":1700000000," +:+ JS.json_string "exp"
              +:+ ":1700000300," +:+ JS.json_string "aud" +:+ ":" +:+ JS.json_string "/admin/"
              +:+ "}").
Proof. vm_compute. reflexivity. Qed.

(** Minting on keys beyond Latin-1. A quote, a backslash and a surrogate
    without its partner in the [kid] are escaped and the token is minted,
    with the two reads of the clock a second apart; a surrogate pair in
    the [kid] and a euro sign in the secret make [btoa] throw; a key
    without a colon has the secret [undefined]. *)
Example minted_token_wide_example :
  match Router.generateGhostJWT_wide [97; 34; 92; 55357; 58; 115]%N
          1700000000999 1700000001000 with
  | JS.Ok token =>
      map Holder.base64url_decode (firstn 2 (JS.split "." token))
      = [ Some (header_json ("a" +:+ JS.backslash +:+ JS.dquote +:+ JS.backslash
                               +:+ JS.backslash +:+ JS.backslash +:+ "ud83d"));
          Some (payload_json 1700000000 1700000301) ]
  | JS.Throw _ => False
  end
  /\ Router.generateGhostJWT_wide [55357; 56832; 58; 115]%N 1700000000999 1700000001000
     = JS.Throw "InvalidCharacterError"
  /\ Router.generateGhostJWT_wide [97; 58; 8364]%N 1700000000999 1700000001000
     = JS.Throw "InvalidCharacterError"
  /\ match Router.generateGhostJWT_wide [97]%N 1700000000999 1700000001000 with
     | JS.Ok token =>
         match JS.split "." token with
         | [header; payload; signature] =>
             Holder.base64url_decode signature
             = Some (header +:+ "." +:+ payload +:+ ".undefined")
         | _ => False
         end
     | JS.Throw _ => False
     end.
Proof. vm_compute. repeat split. Qed.

(** ** Soundness of the matcher *)

Lemma substring0_app (w rest : string) : JS.substring0 (String.length w) (w +:+ rest) = w.
Proof.
  unfold JS.substring0. induction w as [|c w IH].
  - destruct rest; reflexivity.
  - rewrite append_cons. cbn [String.length String.substring]. rewrite IH. reflexivity.
Qed.

Section MatcherSoundness.
Context {R : Type}.
Variable ignoreCase : bool.

Lemma match_lit_sound (p s : string) (n : nat) (k : string -> nat -> option R) (x : R) :
  JS.match_lit ignoreCase p s n k = Some x ->
  exists w s', s = w +:+ s' /\ lit_equal ignoreCase p w = true
               /\ k s' (n + String.length w)%nat = Some x.
Proof.
  revert s n. induction p as [|a p IH]; intros s n; cbn [JS.match_lit].
  - intros H. exists "", s. rewrite Nat.add_0_r. auto.
  - destruct s as [|c s]; [discriminate|].
    destruct (JS.char_matches ignoreCase a c) eqn:Ec; [|discriminate].
    intros H. apply IH in H as [w [s' [-> [Hw Hk]]]].
    exists (String c w), s'. cbn [lit_equal String.length]. rewrite Ec, Hw.
    replace (n + S (String.length w))%nat with (S n + String.length w)%nat by lia. auto.
Qed.

Lemma rep_greedy_sound (cs : JS.charset) (min : nat) (s : string) (n : nat)
    (k : string -> nat -> option R) (x : R) :
  JS.rep_greedy cs min s n k = Some x ->
  exists w s', s = w +:+ s' /\ all_chars (JS.charset_mem cs) w = true
               /\ (min <= String.length w)%nat /\ k s' (n + String.length w)%nat = Some x.
Proof.
  assert (forall s n, k s n = Some x ->
            exists w s', s = w +:+ s' /\ all_chars (JS.charset_mem cs) w = true
                         /\ (0 <= String.length w)%nat
                         /\ k s' (n + String.length w)%nat = Some x) as Hstop.
  { intros s0 n0 H. exists "", s0. rewrite Nat.add_0_r. simpl. auto with arith. }
  revert min n. induction s as [|c s IH]; intros min n; cbn [JS.rep_greedy].
  - destruct min; [apply Hstop|discriminate].
  - destruct (JS.charset_mem cs c) eqn:Ec.
    + destruct (JS.rep_greedy cs (Nat.pred min) s (S n) k) eqn:E.
      * intros [= <-]. apply IH in E as [w [s' [-> [Hw [Hmin Hk]]]]].
        exists (String c w), s'. cbn [all_chars String.length]. rewrite Ec, Hw.
        replace (n + S (String.length w))%nat with (S n + String.length w)%nat by lia.
        repeat split; auto. lia.
      * destruct min; [apply Hstop|discriminate].
    + destruct min; [apply Hstop|discriminate].
Qed.

Lemma rep_lazy_sound (cs : JS.charset) (min : nat) (s : string) (n : nat)
    (k : string -> nat -> option R) (x : R) :
  JS.rep_lazy cs min s n k = Some x ->
  exists w s', s = w +:+ s' /\ all_chars (JS.charset_mem cs) w = true
               /\ (min <= String.length w)%nat /\ k s' (n + String.length w)%nat = Some x.
Proof.
  assert (forall s n, k s n = Some x ->
            exists w s', s = w +:+ s' /\ all_chars (JS.charset_mem cs) w = true
                         /\ (0 <= String.length w)%nat
                         /\ k s' (n + String.length w)%nat = Some x) as Hstop.
  { intros s0 n0 H. exists "", s0. rewrite Nat.add_0_r. simpl. auto with arith. }
  assert (forall c s min n,
            (forall min n, JS.rep_lazy cs min s n k = Some x ->
               exists w s', s = w +:+ s' /\ all_chars (JS.charset_mem cs) w = true
                            /\ (min <= String.length w)%nat
                            /\ k s' (n + String.length w)%nat = Some x) ->
            (if JS.charset_mem cs c then JS.rep_lazy cs (Nat.pred min) s (S n) k else None)
            = Some x ->
            exists w s', String c s = w +:+ s' /\ all_chars (JS.charset_mem cs) w = true
                         /\ (min <= String.length w)%nat
                         /\ k s' (n + String.length w)%nat = Some x) as Hmore.
  { clear s min n. intros c s min n IH H.
    destruct (JS.charset_mem cs c) eqn:Ec; [|discriminate].
    apply IH in H as [w [s' [-> [Hw [Hmin Hk]]]]].
    exists (String c w), s'. cbn [all_chars String.length]. rewrite Ec, Hw.
    replace (n + S (String.length w))%nat with (S n + String.length w)%nat by lia.
    repeat split; auto. lia. }
  revert min n. induction s as [|c s IH]; intros min n; cbn [JS.rep_lazy].
  - destruct min; [|discriminate]. destruct (k "" n) eqn:E; [|discriminate].
    intros [= <-]. apply Hstop, E.
  - destruct min.
    + destruct (k (String c s) n) eqn:E.
      * intros [= <-]. apply Hstop, E.
      * apply Hmore, IH.
    + apply Hmore, IH.
Qed.

(** A successful run has consumed a text that matches the pattern, and
    goes on at the end of that text with the captures of the match. *)
Lemma run_sound (r : JS.regex) (s : string) (n : nat) (caps : JS.captures)
    (k : string -> nat -> JS.captures -> option R) (x : R) :
  JS.run ignoreCase r s n caps k = Some x ->
  exists w s' caps',
    s = w +:+ s' /\ matches ignoreCase r w caps caps'
    /\ k s' (n + String.length w)%nat caps' = Some x.
Proof.
  revert s n caps k.
  induction r as [p | greedy min cs | i r1 IH1 | r1 IH1 r2 IH2 | r1 IH1 r2 IH2];
    intros s n caps k; cbn [JS.run matches].
  - intros H. apply match_lit_sound in H as [w [s' [-> [Hw Hk]]]]. eauto 8.
  - intros H. destruct greedy.
    + apply rep_greedy_sound in H as [w [s' [-> [Hw [Hmin Hk]]]]]. eauto 10.
    + apply rep_lazy_sound in H as [w [s' [-> [Hw [Hmin Hk]]]]]. eauto 10.
  - intros H. apply IH1 in H as [w [s' [caps' [-> [Hm Hk]]]]].
    replace (n + String.length w - n)%nat with (String.length w) in Hk by lia.
    rewrite substring0_app in Hk. eauto 8.
  - intros H. apply IH1 in H as [w1 [s1 [caps1 [-> [Hm1 H]]]]].
    apply IH2 in H as [w2 [s2 [caps2 [-> [Hm2 H]]]]].
    exists (w1 +:+ w2), s2, caps2. rewrite append_assoc, length_append, Nat.add_assoc.
    eauto 10.
  - destruct (JS.run ignoreCase r1 s n caps k) eqn:E.
    + intros [= <-]. apply IH1 in E as [w [s' [caps' [-> [Hm Hk]]]]]. eauto 8.
    + intros H. apply IH2 in H as [w [s' [caps' [-> [Hm Hk]]]]]. eauto 8.
Qed.

End MatcherSoundness.

Lemma match_here_sound (ignoreCase : bool) (r : JS.regex) (s : string) (n : nat)
    (caps : JS.captures) :
  JS.match_here ignoreCase r s = Some (n, caps) ->
  exists w s' mid,
    s = w +:+ s' /\ n = String.length w /\ matches ignoreCase r w [] mid
    /\ caps = JS.set_capture 0 (Some w) mid.
Proof.
  unfold JS.match_here. intros H.
  apply run_sound in H as [w [s' [mid [-> [Hm H]]]]].
  cbn [Nat.add] in H. injection H as <- <-. rewrite substring0_app. eauto 8.
Qed.

Lemma exec_sound (ignoreCase : bool) (r : JS.regex) (s : string) (caps : JS.captures) :
  JS.exec ignoreCase r s = Some caps ->
  exists w mid, occurs w s /\ matches ignoreCase r w [] mid
                /\ caps = JS.set_capture 0 (Some w) mid.
Proof.
  induction s as [|c s IH]; cbn [JS.exec].
  - destruct (JS.match_here ignoreCase r "") as [[n caps']|] eqn:E; [|discriminate].
    intros [= <-]. apply match_here_sound in E as [w [s' [mid [Hs [_ [Hm ->]]]]]].
    exists w, mid. split; [exists "", s'; exact Hs|auto].
  - destruct (JS.match_here ignoreCase r (String c s)) as [[n caps']|] eqn:E.
    + intros [= <-]. apply match_here_sound in E as [w [s' [mid [Hs [_ [Hm ->]]]]]].
      exists w, mid. split; [exists "", s'; exact Hs|auto].
    + intros H. apply IH in H as [w [mid [[a [b ->]] Hm]]].
      exists w, mid. split; [exists (String c a), b; reflexivity|exact Hm].
Qed.

(** ** The description that the router's extractor reads *)

Lemma on_line_dot (c : ascii) : JS.charset_mem JS.CDot c = on_line c.
Proof.
  unfold JS.charset_mem, on_line, JS.code.
  rewrite negb_orb. f_equal; f_equal.
  - destruct (Ascii.eqb_spec c "010") as [->|Hne]; [reflexivity|].
    apply N.eqb_neq. intros H. apply Hne. rewrite <- (ascii_N_embedding c), H. reflexivity.
  - destruct (Ascii.eqb_spec c "013") as [->|Hne]; [reflexivity|].
    apply N.eqb_neq. intros H. apply Hne. rewrite <- (ascii_N_embedding c), H. reflexivity.
Qed.

Lemma all_chars_ext (p q : ascii -> bool) (s : string) :
  (forall c, p c = q c) -> all_chars p s = all_chars q s.
Proof. intros H. induction s as [|c s IH]; cbn [all_chars]; [reflexivity|]. rewrite H, IH. reflexivity. Qed.

Lemma canonicalize_gt (x : ascii) : JS.canonicalize x = ">"%char -> x = ">"%char.
Proof.
  unfold JS.canonicalize.
  destruct (JS.in_range 97 122 (JS.code x)) eqn:Hx; [|auto].
  intros H. exfalso. unfold JS.in_range, JS.code in Hx.
  apply andb_true_iff in Hx as [H1 H2]. apply N.leb_le in H1, H2.
  assert (N_of_ascii (ascii_of_N (JS.code x - 32)) = 62%N) as E by (rewrite H; reflexivity).
  unfold JS.code in E. rewrite N_ascii_embedding in E by lia. lia.
Qed.

Lemma lit_equal_gt (w : string) : lit_equal true ">" w = true -> w = ">".
Proof.
  destruct w as [|x [|y w]]; cbn [lit_equal]; try discriminate.
  - rewrite andb_true_r. unfold JS.char_matches. intros H.
    apply Ascii.eqb_eq in H. symmetry in H. apply canonicalize_gt in H. subst x. reflexivity.
  - intros H. apply andb_true_iff in H as [_ H]. discriminate.
Qed.

Section MatcherOrder.
Context {R : Type}.
Variable ignoreCase : bool.

(** A literal that stands in front of the text is consumed. *)
Lemma match_lit_complete (p w s : string) (n : nat) (k : string -> nat -> option R) :
  lit_equal ignoreCase p w = true ->
  JS.match_lit ignoreCase p (w +:+ s) n k = k s (n + String.length w)%nat.
Proof.
  revert w n. induction p as [|a p IH]; intros w n; destruct w as [|c w];
    cbn [lit_equal]; try discriminate.
  - intros _. cbn [JS.match_lit String.length]. string_norm. rewrite Nat.add_0_r. reflexivity.
  - intros H. apply andb_true_iff in H as [Hc Hw]. string_norm.
    cbn [JS.match_lit String.length]. rewrite Hc, (IH w (S n) Hw).
    replace (S n + String.length w)%nat with (n + S (String.length w))%nat by lia.
    reflexivity.
Qed.

(** A lazy repetition stops at the first place where what follows
    succeeds. *)
Lemma rep_lazy_first (cs : JS.charset) (s : string) (n : nat)
    (k : string -> nat -> option R) (x : R) :
  JS.rep_lazy cs 0 s n k = Some x ->
  exists w s',
    s = w +:+ s' /\ all_chars (JS.charset_mem cs) w = true
    /\ k s' (n + String.length w)%nat = Some x
    /\ forall w1 w2, w = w1 +:+ w2 -> w2 <> "" ->
                     k (w2 +:+ s') (n + String.length w1)%nat = None.
Proof.
  revert n. induction s as [|c s IH]; intros n; cbn [JS.rep_lazy].
  - destruct (k "" n) eqn:E; [|discriminate]. intros [= <-].
    exists "", "". rewrite Nat.add_0_r. repeat split; auto.
    intros [|a w1] [|b w2]; discriminate || contradiction.
  - destruct (k (String c s) n) eqn:E.
    + intros [= <-]. exists "", (String c s). rewrite Nat.add_0_r. repeat split; auto.
      intros [|a w1] [|b w2]; discriminate || contradiction.
    + destruct (JS.charset_mem cs c) eqn:Ec; [|discriminate]. cbn [Nat.pred].
      intros H. apply IH in H as (w & s' & -> & Hw & Hk & Hfirst).
      exists (String c w), s'. cbn [all_chars String.length]. rewrite Ec, Hw.
      replace (n + S (String.length w))%nat with (S n + String.length w)%nat by lia.
      repeat split; auto.
      intros [|a w1] w2 Hsplit Hne.
      * rewrite append_nil_l in Hsplit. subst w2. rewrite append_cons.
        cbn [String.length]. rewrite Nat.add_0_r. exact E.
      * rewrite append_cons in Hsplit. injection Hsplit as <- ->.
        cbn [String.length].
        replace (n + S (String.length w1))%nat with (S n + String.length w1)%nat by lia.
        apply Hfirst; [reflexivity|exact Hne].
Qed.

Lemma rep_greedy_none (cs : JS.charset) (min : nat) (s : string) (n : nat)
    (k : string -> nat -> option R) :
  JS.rep_greedy cs min s n k = None ->
  forall w s', s = w +:+ s' -> all_chars (JS.charset_mem cs) w = true ->
               (min <= String.length w)%nat -> k s' (n + String.length w)%nat = None.
Proof.
  revert min n. induction s as [|c s IH]; intros min n H w s' Hs Hw Hmin.
  - destruct w as [|a w]; [|discriminate Hs]. rewrite append_nil_l in Hs. subst s'.
    cbn [JS.rep_greedy] in H. cbn [String.length] in *. rewrite Nat.add_0_r.
    destruct min; [exact H|lia].
  - cbn [JS.rep_greedy] in H. destruct w as [|a w].
    + rewrite append_nil_l in Hs. subst s'. cbn [String.length] in *. rewrite Nat.add_0_r.
      assert (min = O) as -> by lia.
      destruct (JS.charset_mem cs c); [|exact H].
      destruct (JS.rep_greedy cs (Nat.pred 0) s (S n) k); [discriminate|exact H].
    + rewrite append_cons in Hs. injection Hs as <- ->.
      cbn [all_chars] in Hw. apply andb_true_iff in Hw as [Hc Hw]. rewrite Hc in H.
      destruct (JS.rep_greedy cs (Nat.pred min) (w +:+ s') (S n) k) eqn:E; [discriminate|].
      cbn [String.length] in *.
      replace (n + S (String.length w))%nat with (S n + String.length w)%nat by lia.
      apply (IH _ _ E w s'); [reflexivity|exact Hw|lia].
Qed.

Lemma rep_lazy_none (cs : JS.charset) (min : nat) (s : string) (n : nat)
    (k : string -> nat -> option R) :
  JS.rep_lazy cs min s n k = None ->
  forall w s', s = w +:+ s' -> all_chars (JS.charset_mem cs) w = true ->
               (min <= String.length w)%nat -> k s' (n + String.length w)%nat = None.
Proof.
  revert min n. induction s as [|c s IH]; intros min n H w s' Hs Hw Hmin.
  - destruct w as [|a w]; [|discriminate Hs]. rewrite append_nil_l in Hs. subst s'.
    cbn [JS.rep_lazy] in H. cbn [String.length] in *. rewrite Nat.add_0_r.
    destruct min; [|lia]. destruct (k "" n); [discriminate|reflexivity].
  - cbn [JS.rep_lazy] in H. destruct w as [|a w].
    + rewrite append_nil_l in Hs. subst s'. cbn [String.length] in *. rewrite Nat.add_0_r.
      assert (min = O) as -> by lia.
      destruct (k (String c s) n); [discriminate|reflexivity].
    + rewrite append_cons in Hs. injection Hs as <- ->.
      cbn [all_chars] in Hw. apply andb_true_iff in Hw as [Hc Hw]. rewrite Hc in H.
      assert (JS.rep_lazy cs (Nat.pred min) (w +:+ s') (S n) k = None) as E.
      { destruct min; [|exact H]. destruct (k (String c (w +:+ s')) n); [discriminate|exact H]. }
      cbn [String.length] in *.
      replace (n + S (String.length w))%nat with (S n + String.length w)%nat by lia.
      apply (IH _ _ E w s'); [reflexivity|exact Hw|lia].
Qed.

(** A run that fails leaves no match of the pattern after which what
    follows succeeds. *)
Lemma run_none (r : JS.regex) (s : string) (n : nat) (caps : JS.captures)
    (k : string -> nat -> JS.captures -> option R) :
  JS.run ignoreCase r s n caps k = None ->
  forall w s' caps',
    s = w +:+ s' -> matches ignoreCase r w caps caps' ->
    k s' (n + String.length w)%nat caps' = None.
Proof.
  revert s n caps k.
  induction r as [p | greedy min cs | i r1 IH1 | r1 IH1 r2 IH2 | r1 IH1 r2 IH2];
    intros s n caps k H w s' caps' Hs Hm; cbn [JS.run matches] in *.
  - destruct Hm as [-> Hw]. subst s. rewrite (match_lit_complete _ _ _ _ _ Hw) in H. exact H.
  - destruct Hm as (-> & Hw & Hmin). destruct greedy.
    + apply (rep_greedy_none _ _ _ _ _ H w s' Hs Hw Hmin).
    + apply (rep_lazy_none _ _ _ _ _ H w s' Hs Hw Hmin).
  - destruct Hm as (mid & Hm & ->).
    pose proof (IH1 _ _ _ _ H w s' mid Hs Hm) as Hk. cbn beta in Hk.
    replace (n + String.length w - n)%nat with (String.length w) in Hk by lia.
    subst s. rewrite substring0_app in Hk. exact Hk.
  - destruct Hm as (w1 & w2 & mid & -> & Hm1 & Hm2). rewrite append_assoc in Hs.
    pose proof (IH1 _ _ _ _ H w1 (w2 +:+ s') mid Hs Hm1) as H2. cbn beta in H2.
    pose proof (IH2 _ _ _ _ H2 w2 s' caps' eq_refl Hm2) as Hk.
    rewrite length_append, Nat.add_assoc. exact Hk.
  - destruct (JS.run ignoreCase r1 s n caps k) eqn:E; [discriminate|].
    destruct Hm as [Hm|Hm]; [apply (IH1 _ _ _ _ E w s' caps' Hs Hm)|].
    apply (IH2 _ _ _ _ H w s' caps' Hs Hm).
Qed.

End MatcherOrder.

(** Where the pattern has a match at the front of the text, an attempt
    there succeeds. *)
Lemma match_here_complete (ignoreCase : bool) (r : JS.regex) (w s : string)
    (mid : JS.captures) :
  matches ignoreCase r w [] mid -> JS.match_here ignoreCase r (w +:+ s) <> None.
Proof.
  intros Hm H. unfold JS.match_here in H.
  pose proof (run_none ignoreCase r _ _ _ _ H w s mid eq_refl Hm) as Hk. discriminate.
Qed.

(** The match found by [exec] is the leftmost one. *)
Lemma exec_first (ignoreCase : bool) (r : JS.regex) (s : string) (caps : JS.captures) :
  JS.exec ignoreCase r s = Some caps ->
  exists before rest n,
    s = before +:+ rest /\ JS.match_here ignoreCase r rest = Some (n, caps)
    /\ forall b1 b2, before = b1 +:+ b2 -> b2 <> "" ->
                     JS.match_here ignoreCase r (b2 +:+ rest) = None.
Proof.
  induction s as [|c s IH]; cbn [JS.exec].
  - destruct (JS.match_here ignoreCase r "") as [[n caps']|] eqn:E; [|discriminate].
    intros [= <-]. exists "", "", n. repeat split; auto.
    intros [|a b1] [|b b2]; discriminate || contradiction.
  - destruct (JS.match_here ignoreCase r (String c s)) as [[n caps']|] eqn:E.
    + intros [= <-]. exists "", (String c s), n. repeat split; auto.
      intros [|a b1] [|b b2]; discriminate || contradiction.
    + intros H. apply IH in H as (before & rest & n & -> & H & Hfirst).
      exists (String c before), rest, n. repeat split; auto.
      intros [|a b1] b2 Hsplit Hne.
      * rewrite append_nil_l in Hsplit. subst b2. rewrite append_cons. exact E.
      * rewrite append_cons in Hsplit. injection Hsplit as <- ->.
        apply (Hfirst b1 b2); [reflexivity|exact Hne].
Qed.

Lemma on_line_chars (d : string) :
  all_chars (JS.charset_mem JS.CDot) d = all_chars on_line d.
Proof. apply all_chars_ext, on_line_dot. Qed.

(** A [description] element at the front of a text is a match of the
    pattern. *)
Lemma element_here_matches (s d tail : string) :
  element_here s d tail ->
  exists w rest mid,
    s = w +:+ rest /\ matches true (Router.elementPattern "description") w [] mid.
Proof.
  intros (opening & attributes & -> & Hopen & Hattr & Hd & closing & after & -> & Hclose).
  exists (opening +:+ attributes +:+ ">" +:+ d +:+ closing), after, (JS.set_capture 1 (Some d) []).
  split; [rewrite !append_assoc; reflexivity|].
  unfold Router.elementPattern. cbn [matches].
  exists opening, (attributes +:+ ">" +:+ d +:+ closing), []. repeat split; auto.
  exists attributes, (">" +:+ d +:+ closing), []. repeat split; auto with arith.
  exists ">", (d +:+ closing), []. repeat split; auto.
  exists d, closing, (JS.set_capture 1 (Some d) []). split; [reflexivity|]. split.
  - exists []. rewrite on_line_chars. repeat split; auto with arith.
  - split; [reflexivity|exact Hclose].
Qed.

Lemma descriptionOf_element (block d : string) :
  descriptionOf block = Some d -> description_element block d.
Proof.
  unfold descriptionOf.
  destruct (JS.exec true (Router.elementPattern "description") block) as [caps|] eqn:E;
    [|discriminate].
  rewrite option_bind_Some. intros Hd.
  apply exec_first in E as (before & rest & n & -> & E & Hleft).
  unfold JS.match_here, Router.elementPattern in E. cbn [JS.run] in E.
  apply match_lit_sound in E as (opening & s1 & -> & Hopen & E).
  apply rep_greedy_sound in E as (attributes & s2 & -> & Hattr & _ & E).
  apply match_lit_sound in E as (gt & s3 & -> & Hgt & E).
  apply lit_equal_gt in Hgt. subst gt.
  apply rep_lazy_first in E as (text & s4 & -> & Htext & E & Hfirst).
  pose proof E as E'.
  apply match_lit_sound in E' as (closing & after & -> & Hclose & E').
  injection E' as _ <-.
  cbn [JS.set_capture JS.get_capture nth] in Hd.
  match type of Hd with
  | Some (JS.substring0 ?m ?t) = _ =>
      replace m with (String.length text) in Hd by lia;
      rewrite substring0_app in Hd
  end.
  injection Hd as <-.
  exists before, (opening +:+ attributes +:+ ">" +:+ text +:+ closing +:+ after),
    (closing +:+ after).
  split; [reflexivity|]. split; [|split].
  - exists opening, attributes. split; [reflexivity|]. split; [exact Hopen|].
    split; [exact Hattr|]. split; [rewrite <- on_line_chars; exact Htext|].
    exists closing, after. auto.
  - intros d1 d2 Hsplit Hne (c & r & Hc & Hlit).
    specialize (Hfirst d1 d2 Hsplit Hne). rewrite Hc in Hfirst.
    rewrite (match_lit_complete true _ c r _ _ Hlit) in Hfirst. discriminate.
  - intros b1 b2 d' tail' Hsplit Hne Hel.
    apply element_here_matches in Hel as (w & r & mid & Hw & Hm).
    specialize (Hleft b1 b2 Hsplit Hne). unfold JS.match_here, Router.elementPattern in Hleft.
    cbn [JS.run] in Hleft. fold (Router.elementPattern "description") in Hm.
    apply (match_here_complete true _ w r mid Hm). rewrite <- Hw.
    exact Hleft.
Qed.

(** Where [exec] finds nothing, no attempt succeeds anywhere in the text. *)
Lemma exec_none (ignoreCase : bool) (r : JS.regex) (s : string) :
  JS.exec ignoreCase r s = None ->
  forall before rest, s = before +:+ rest -> JS.match_here ignoreCase r rest = None.
Proof.
  induction s as [|c s IH]; cbn [JS.exec]; intros H before rest Hs.
  - destruct before; [|discriminate]. rewrite append_nil_l in Hs. subst rest.
    destruct (JS.match_here ignoreCase r "") as [[n caps]|]; [discriminate|reflexivity].
  - destruct (JS.match_here ignoreCase r (String c s)) as [[n caps]|] eqn:E; [discriminate|].
    destruct before as [|a before].
    + rewrite append_nil_l in Hs. subst rest. exact E.
    + rewrite append_cons in Hs. injection Hs as _ Hs. apply (IH H before rest Hs).
Qed.

Lemma descriptionOf_none (block : string) :
  descriptionOf block = None ->
  forall before rest d tail, block = before +:+ rest -> ~ element_here rest d tail.
Proof.
  unfold descriptionOf.
  destruct (JS.exec true (Router.elementPattern "description") block) as [caps|] eqn:E.
  - destruct (elementPattern_group _ _ _ E) as [text Htext].
    rewrite option_bind_Some, Htext. discriminate.
  - intros _ before rest d tail Hs Hel.
    apply element_here_matches in Hel as (w & r & mid & -> & Hm).
    apply (match_here_complete true _ w r mid Hm). apply (exec_none _ _ _ E before). exact Hs.
Qed.

(** C7, as amended. The extractor returns, and every item it returns is
    the item of one of the matched item blocks, with the excerpt of that
    block. When the block holds a [description] element that opens and
    closes on one line, the excerpt is the text of the first such element,
    up to the nearest closing tag, as [cleanHtml] returns it (every match
    of the tag pattern removed, every match of the entity pattern replaced
    by a space, the result trimmed), cut to its first 200 characters and
    always followed by the three-dot marker, whether or not anything was
    cut. When the block holds no such element
    the excerpt is the empty text. The excerpt has at most 203 characters. *)
Theorem excerpt_always_marked (URL_hostname : string -> JS.Exc string)
    (xmlText : string) (maxItems : Z) :
  exists items,
    Router.parseRSSFeed URL_hostname xmlText maxItems = JS.Ok items
    /\ Forall
         (fun it =>
            exists block,
              In block (JS.match_all true Router.itemPattern xmlText)
              /\ Router.parseItemBlock URL_hostname block = JS.Ok (Some it)
              /\ ((exists d cleaned,
                     description_element block d
                     /\ Router.cleanHtml (Some d) = JS.Ok cleaned
                     /\ cleaned
                        = JS.trim
                            (JS.replace_all false
                               (JS.Lit "&" ~> JS.Rep true 1 (JS.CNot ";") ~> JS.Lit ";") " "
                               (JS.replace_all false
                                  (JS.Lit "<" ~> JS.Rep true 0 (JS.CNot ">") ~> JS.Lit ">")
                                  "" d))
                     /\ Router.excerpt it = JS.substring0 200 cleaned +:+ "...")
                  \/ ((forall before rest d tail,
                         block = before +:+ rest -> ~ element_here rest d tail)
                      /\ Router.excerpt it = ""))
              /\ (String.length (Router.excerpt it) <= 203)%nat)
         items.
Proof.
  eexists. split; [apply parseRSSFeed_items|].
  apply List.Forall_forall. intros it Hin.
  apply in_flat_map in Hin as [block [Hblock Hit]].
  exists block. split; [unfold blocksRead in Hblock; eapply in_firstn, Hblock|].
  unfold itemsOf in Hit.
  destruct (parseItemBlock_cases URL_hostname block) as [H|[t [l [src H]]]];
    rewrite H in Hit; [destruct Hit|].
  destruct Hit as [<-|[]]. split; [exact H|]. cbn [Router.excerpt].
  destruct (descriptionOf block) as [d|] eqn:Hd.
  - split.
    + left. exists d, (cleanText d). split; [apply descriptionOf_element, Hd|].
      repeat split.
    + rewrite length_append. pose proof (substring0_length 200 (cleanText d)). simpl. lia.
  - split; [|simpl; lia].
    right. split; [apply descriptionOf_none, Hd|reflexivity].
Qed.

(** A description that runs over two lines is not read, and the entity
    pattern takes any text from an ampersand to the next semicolon. *)
Example excerpt_examples :
  Router.parseRSSFeed Batches.simple_hostname
    ("<item><title>A</title><link>https://a.example/x</link><description>first" +:+ JS.newline
       +:+ "second</description></item>") 5
  = JS.Ok [ {| Router.title := "A"; Router.link := "https://a.example/x";
               Router.excerpt := ""; Router.source := "a.example" |} ]
  /\ Router.cleanHtml (Some "Tom & Jerry; friends") = JS.Ok "Tom   friends".
Proof. vm_compute. repeat split. Qed.

(** ** The fields of the items the content sourcer extracts *)

(** Takes apart the existentials and conjunctions among the hypotheses. *)
Ltac break_hyps :=
  repeat match goal with
         | H : exists _, _ |- _ => destruct H
         | H : _ /\ _ |- _ => destruct H
         end.

Lemma truthy_nonempty (g : string) : (1 <= String.length g)%nat -> JS.truthy (Some g) = true.
Proof. destruct g; simpl; [lia|reflexivity]. Qed.

(** A match of a title or description pattern sets exactly one of the two
    groups, to a non-empty text. *)
Lemma cdataOrText_captures (tag w : string) (mid : JS.captures) :
  matches true (Sourcer.cdataOrText tag) w [] mid ->
  exists g,
    (1 <= String.length g)%nat
    /\ ((mid = JS.set_capture 1 (Some g) [] /\ all_chars (not_char "]") g = true)
        \/ (mid = JS.set_capture 2 (Some g) [] /\ all_chars (not_char "<") g = true)).
Proof.
  unfold Sourcer.cdataOrText. cbn [matches]. intros [H|H]; break_hyps; subst; eauto 10.
Qed.

Lemma cdataOrText_value (tag block : string) (caps : JS.captures) :
  JS.exec true (Sourcer.cdataOrText tag) block = Some caps ->
  exists g,
    JS.or_else (JS.get_capture caps 1) (JS.get_capture caps 2) = Some g
    /\ (1 <= String.length g)%nat
    /\ (all_chars (not_char "]") g = true \/ all_chars (not_char "<") g = true).
Proof.
  intros H. apply exec_sound in H as [w [mid [_ [Hm ->]]]].
  apply cdataOrText_captures in Hm as [g [Hlen [[-> Hg]|[-> Hg]]]]; exists g.
  - cbn [JS.set_capture JS.get_capture nth]. unfold JS.or_else.
    rewrite (truthy_nonempty g Hlen). auto.
  - cbn [JS.set_capture JS.get_capture nth]. unfold JS.or_else. cbn [JS.truthy]. auto.
Qed.

Lemma linkRegex_value (block : string) (caps : JS.captures) :
  JS.exec true Sourcer.linkRegex block = Some caps ->
  exists g,
    JS.get_capture caps 1 = Some g /\ (1 <= String.length g)%nat
    /\ all_chars (not_char "<") g = true.
Proof.
  intros H. apply exec_sound in H as [w [mid [_ [Hm ->]]]].
  unfold Sourcer.linkRegex in Hm. cbn [matches] in Hm. break_hyps; subst.
  eexists. cbn [JS.set_capture JS.get_capture nth]. eauto.
Qed.

Lemma itemsOfMatch_fields (m : JS.captures) : Forall well_formed_item (itemsOfMatch m).
Proof.
  unfold itemsOfMatch, Sourcer.parseItemMatch.
  destruct (JS.exec true Sourcer.titleRegex _) as [tcaps|] eqn:Et;
    [|cbn [bool_decide andb]; rewrite bool_decide_eq_false_2 by (intros [? ?]; discriminate);
      constructor].
  destruct (JS.exec true Sourcer.linkRegex _) as [lcaps|] eqn:El;
    [|rewrite andb_comm, (bool_decide_eq_false_2 (is_Some None))
        by (intros [? ?]; discriminate); constructor].
  rewrite !bool_decide_eq_true_2 by eauto. cbn [andb JS.index]. exc_norm.
  destruct (cdataOrText_value _ _ _ Et) as [t [Ht [Htlen Htchars]]].
  destruct (linkRegex_value _ _ El) as [l [Hl [Hllen Hlchars]]].
  destruct (JS.exec true Sourcer.descRegex _) as [dcaps|] eqn:Ed.
  - rewrite bool_decide_eq_true_2 by eauto. cbn [JS.index]. exc_norm.
    destruct (cdataOrText_value _ _ _ Ed) as [d [Hd _]].
    constructor; [|constructor]. exists t, l, d.
    cbn [Sourcer.title Sourcer.link Sourcer.description]. auto 10.
  - rewrite bool_decide_eq_false_2 by (intros [? ?]; discriminate). exc_norm.
    constructor; [|constructor]. exists t, l, "".
    cbn [Sourcer.title Sourcer.link Sourcer.description]. auto 10.
Qed.

(** X5. Every item that the content sourcer extracts has a non-empty title and
    a non-empty link, and a description that is a string (empty when the
    item has none). The link holds no [<]; the title holds no [<], or no
    [\]] when it comes from a CDATA section. *)
Theorem parseRSSItems_fields (rssText : string) :
  exists items,
    Sourcer.parseRSSItems rssText = JS.Ok items /\ Forall well_formed_item items.
Proof.
  eexists. split; [apply parseRSSItems_items|].
  induction (JS.exec_all true Sourcer.itemRegex rssText) as [|m ms IH]; cbn [flat_map].
  - constructor.
  - apply Forall_app. split; [apply itemsOfMatch_fields|exact IH].
Qed.

(** ** What [cleanHtml] leaves *)

(** A greedy run of characters other than [c], followed by [c]: it fails
    exactly on a text without [c]. *)
Lemma greedy_then_char {R : Type} (c : ascii) (f : nat -> R) (s : string) (n : nat) :
  JS.rep_greedy (JS.CNot c) 0 s n
    (fun s0 n0 =>
       match s0 with
       | EmptyString => None
       | String x _ => if JS.char_matches false c x then Some (f n0) else None
       end) = None
  <-> all_chars (not_char c) s = true.
Proof.
  revert n. induction s as [|x s IH]; intros n; cbn [JS.rep_greedy all_chars].
  - tauto.
  - unfold JS.charset_mem, not_char at 1, JS.char_matches.
    destruct (Ascii.eqb_spec x c) as [->|Hne]; cbn [negb andb].
    + rewrite Ascii.eqb_refl. split; discriminate.
    + rewrite <- (IH (S n)).
      destruct (JS.rep_greedy _ _ _ _ _); [split; discriminate|].
      replace (Ascii.eqb c x) with false; [tauto|].
      symmetry. apply Ascii.eqb_neq. congruence.
Qed.

(** Where the tag pattern does not match. *)
Lemma tag_match_here (c : ascii) (s : string) :
  JS.match_here false Router.tagPattern (String c s) = None
  <-> Ascii.eqb c "<" = false \/ all_chars (not_char ">") s = true.
Proof.
  unfold JS.match_here, Router.tagPattern. cbn [JS.run JS.match_lit].
  unfold JS.char_matches at 1. rewrite Ascii.eqb_sym.
  destruct (Ascii.eqb c "<").
  - rewrite (greedy_then_char ">"
               (fun n' => (S n', JS.set_capture 0 (Some (JS.substring0 (S n') (String c s))) []))).
    split; [auto|]. intros [H|H]; [discriminate|exact H].
  - split; auto.
Qed.

Lemma tag_match_nonempty (s : string) (caps : JS.captures) :
  JS.match_here false Router.tagPattern s = Some (O, caps) -> False.
Proof.
  intros H. apply match_here_sound in H as [w [s' [mid [_ [Hlen [Hm _]]]]]].
  unfold Router.tagPattern in Hm. cbn [matches] in Hm. break_hyps. subst.
  destruct x as [|a x]; [discriminate|]. rewrite append_cons in Hlen. discriminate.
Qed.

(** A global replacement keeps what holds of every character of the text
    and of the replacement. *)
Lemma all_chars_replace_scan (p : ascii -> bool) (ignoreCase : bool) (r : JS.regex)
    (repl s : string) (skip : nat) :
  all_chars p repl = true -> all_chars p s = true ->
  all_chars p (JS.replace_scan ignoreCase r repl skip s) = true.
Proof.
  intros Hrepl. revert skip. induction s as [|c s IH]; intros skip Hs.
  - destruct skip; cbn [JS.replace_scan]; [|reflexivity].
    destruct (JS.match_here ignoreCase r "") as [[[|len] caps]|];
      rewrite ?all_chars_app, ?Hrepl; reflexivity.
  - cbn [all_chars] in Hs. apply andb_true_iff in Hs as [Hc Hs].
    destruct skip; cbn [JS.replace_scan]; [|apply IH, Hs].
    destruct (JS.match_here ignoreCase r (String c s)) as [[[|len] caps]|];
      rewrite ?all_chars_app, ?Hrepl; cbn [all_chars andb]; rewrite ?Hc, ?IH; auto.
Qed.

Lemma tag_free_append_l (a b : string) :
  all_chars (not_char "<") a = true -> tag_free b = true -> tag_free (a +:+ b) = true.
Proof.
  intros Ha Hb. induction a as [|c a IH]; [exact Hb|].
  cbn [all_chars] in Ha. apply andb_true_iff in Ha as [Hc Ha].
  rewrite append_cons. cbn [tag_free]. unfold not_char in Hc.
  apply negb_true_iff in Hc. rewrite Hc, (IH Ha). reflexivity.
Qed.

Lemma tag_free_append_r (a b : string) :
  tag_free a = true -> all_chars (not_char ">") b = true -> tag_free b = true ->
  tag_free (a +:+ b) = true.
Proof.
  intros Ha Hgt Hb. induction a as [|c a IH]; [exact Hb|].
  cbn [tag_free] in Ha. apply andb_true_iff in Ha as [Hc Ha].
  rewrite append_cons. cbn [tag_free]. rewrite (IH Ha), andb_true_r.
  destruct (Ascii.eqb c "<"); [|reflexivity]. rewrite all_chars_app, Hc, Hgt. reflexivity.
Qed.

(** One pass of the tag replacement leaves no tag. *)
Lemma tag_free_strip (s : string) (skip : nat) :
  tag_free (JS.replace_scan false Router.tagPattern "" skip s) = true.
Proof.
  revert skip. induction s as [|c s IH]; intros skip.
  - destruct skip; cbn [JS.replace_scan]; reflexivity.
  - destruct skip; cbn [JS.replace_scan]; [|apply IH].
    destruct (JS.match_here false Router.tagPattern (String c s)) as [[[|len] caps]|] eqn:E.
    + destruct (tag_match_nonempty _ _ E).
    + rewrite append_nil_l. apply IH.
    + cbn [tag_free]. rewrite IH, andb_true_r.
      destruct (Ascii.eqb c "<") eqn:Ec; [|reflexivity].
      apply tag_match_here in E as [E|E]; [congruence|].
      apply all_chars_replace_scan; [reflexivity|exact E].
Qed.

(** A global replacement by a text without [<] and [>] makes no tag. *)
Lemma tag_free_replace (ignoreCase : bool) (r : JS.regex) (repl s : string) (skip : nat) :
  all_chars (not_char "<") repl = true -> all_chars (not_char ">") repl = true ->
  tag_free s = true ->
  tag_free (JS.replace_scan ignoreCase r repl skip s) = true.
Proof.
  intros Hlt Hgt. revert skip. induction s as [|c s IH]; intros skip Hs.
  - destruct skip; cbn [JS.replace_scan]; [|reflexivity].
    destruct (JS.match_here ignoreCase r "") as [[[|len] caps]|];
      try reflexivity; apply tag_free_append_l; auto.
  - cbn [tag_free] in Hs. apply andb_true_iff in Hs as [Hc Hs].
    assert (tag_free (String c (JS.replace_scan ignoreCase r repl 0 s)) = true) as Hkeep.
    { cbn [tag_free]. rewrite (IH 0%nat Hs), andb_true_r.
      destruct (Ascii.eqb c "<"); [|reflexivity].
      apply all_chars_replace_scan; assumption. }
    destruct skip; cbn [JS.replace_scan]; [|apply IH, Hs].
    destruct (JS.match_here ignoreCase r (String c s)) as [[[|len] caps]|];
      [apply tag_free_append_l; auto | apply tag_free_append_l; auto | exact Hkeep].
Qed.

Lemma tag_free_trimStart (s : string) : tag_free s = true -> tag_free (JS.trimStart s) = true.
Proof.
  induction s as [|c s IH]; [auto|]. intros Hs. cbn [JS.trimStart].
  destruct (JS.is_space c); [|exact Hs].
  cbn [tag_free] in Hs. apply andb_true_iff in Hs as [_ Hs]. auto.
Qed.

Lemma all_chars_trimEnd (p : ascii -> bool) (s : string) :
  all_chars p s = true -> all_chars p (JS.trimEnd s) = true.
Proof.
  induction s as [|c s IH]; [auto|]. cbn [all_chars JS.trimEnd].
  intros Hs. apply andb_true_iff in Hs as [Hc Hs]. specialize (IH Hs).
  destruct (JS.trimEnd s) as [|d r].
  - destruct (JS.is_space c); cbn [all_chars]; rewrite ?Hc; reflexivity.
  - cbn [all_chars] in *. rewrite Hc, IH. reflexivity.
Qed.

Lemma tag_free_trimEnd (s : string) : tag_free s = true -> tag_free (JS.trimEnd s) = true.
Proof.
  induction s as [|c s IH]; [auto|]. cbn [tag_free JS.trimEnd].
  intros Hs. apply andb_true_iff in Hs as [Hc Hs]. specialize (IH Hs).
  pose proof (all_chars_trimEnd (not_char ">") s) as Hgt.
  destruct (JS.trimEnd s) as [|d r].
  - destruct (JS.is_space c); cbn [tag_free all_chars]; [reflexivity|].
    destruct (Ascii.eqb c "<"); reflexivity.
  - cbn [tag_free]. cbn [tag_free] in IH. rewrite IH, andb_true_r.
    destruct (Ascii.eqb c "<"); [|reflexivity]. apply Hgt, Hc.
Qed.

Lemma tag_free_no_match (s : string) :
  tag_free s = true -> JS.exec false Router.tagPattern s = None.
Proof.
  induction s as [|c s IH]; [reflexivity|].
  cbn [tag_free]. intros Hs. apply andb_true_iff in Hs as [Hc Hs].
  cbn [JS.exec].
  replace (JS.match_here false Router.tagPattern (String c s)) with (@None (nat * JS.captures)).
  - apply IH, Hs.
  - symmetry. apply tag_match_here. destruct (Ascii.eqb c "<"); auto.
Qed.

Lemma cleanText_tag_free (s : string) : tag_free (cleanText s) = true.
Proof.
  unfold cleanText, JS.trim, JS.replace_all.
  apply tag_free_trimEnd, tag_free_trimStart, tag_free_replace;
    [reflexivity|reflexivity|apply tag_free_strip].
Qed.

(** X6. [cleanHtml] returns on every string, and what it returns holds no
    tag: no [<] of the result has a [>] after it, so the tag pattern
    finds nothing more to strip. *)
Theorem cleanHtml_leaves_no_tag (str : string) :
  exists cleaned,
    Router.cleanHtml (Some str) = JS.Ok cleaned
    /\ tag_free cleaned = true
    /\ JS.exec false Router.tagPattern cleaned = None.
Proof.
  exists (cleanText str). split; [reflexivity|].
  split; [apply cleanText_tag_free|apply tag_free_no_match, cleanText_tag_free].
Qed.

(** Tags nested in tags, stray brackets and entities, evaluated. *)
Example cleanHtml_examples :
  Router.cleanHtml (Some "<p>Tacos &amp; <b>art</b> in <i>LA</i></p> ") = JS.Ok "Tacos   art in LA"
  /\ Router.cleanHtml (Some "a <<b>> c") = JS.Ok "a > c"
  /\ Router.cleanHtml (Some "1 < 2 and 3 > 2") = JS.Ok "1  2"
  /\ Router.cleanHtml None = JS.Throw "TypeError".
Proof. vm_compute. repeat split. Qed.

(** ** The text fields of the items the router extracts *)

Lemma tag_free_substring0 (n : nat) (s : string) :
  tag_free s = true -> tag_free (JS.substring0 n s) = true.
Proof.
  revert s. induction n as [|n IH]; intros s Hs.
  - destruct s; reflexivity.
  - destruct s as [|c s]; [reflexivity|].
    change (JS.substring0 (S n) (String c s)) with (String c (JS.substring0 n s)).
    cbn [tag_free] in *. apply andb_true_iff in Hs as [Hc Hs].
    rewrite (IH s Hs), andb_true_r.
    destruct (Ascii.eqb c "<"); [|reflexivity]. apply all_chars_substring0, Hc.
Qed.

Lemma parseItemBlock_fields (URL_hostname : string -> JS.Exc string) (block : string) :
  Router.parseItemBlock URL_hostname block = JS.Ok None
  \/ exists t l source,
       Router.parseItemBlock URL_hostname block
       = JS.Ok (Some {| Router.title := cleanText t; Router.link := JS.trim l;
                        Router.excerpt :=
                          match descriptionOf block with
                          | Some d => JS.substring0 200 (cleanText d) +:+ "..."
                          | None => ""
                          end;
                        Router.source := source |}).
Proof.
  unfold Router.parseItemBlock, descriptionOf.
  destruct (JS.exec true (Router.elementPattern "title") block) as [tcaps|] eqn:Et;
    [|left; reflexivity].
  destruct (JS.exec true (Router.elementPattern "link") block) as [lcaps|] eqn:El;
    [|left; reflexivity].
  right.
  destruct (elementPattern_group _ _ _ Et) as [t Ht].
  destruct (elementPattern_group _ _ _ El) as [l Hl].
  cbn [JS.index bool_decide]. rewrite !bool_decide_eq_true_2 by eauto. cbn [andb].
  do 3 eexists.
  exc_norm. rewrite Ht, Hl, cleanHtml_string. exc_norm. cbn [JS.method]. exc_norm.
  rewrite extractDomain_cases.
  destruct (JS.exec true (Router.elementPattern "description") block) as [dcaps|] eqn:Ed.
  - destruct (elementPattern_group _ _ _ Ed) as [d Hd].
    rewrite bool_decide_eq_true_2 by eauto. cbn [JS.index].
    exc_norm. rewrite Hd, cleanHtml_string. exc_norm.
    rewrite option_bind_Some, Hd. reflexivity.
  - rewrite bool_decide_eq_false_2 by (intros [? ?]; discriminate).
    exc_norm. reflexivity.
Qed.

(** X7. Every item that the router extracts has a title and an excerpt
    without a tag, whatever the feed body holds. *)
Theorem parseRSSFeed_strips_tags (URL_hostname : string -> JS.Exc string)
    (xmlText : string) (maxItems : Z) :
  exists items,
    Router.parseRSSFeed URL_hostname xmlText maxItems = JS.Ok items
    /\ Forall
         (fun it =>
            tag_free (Router.title it) = true /\ tag_free (Router.excerpt it) = true)
         items.
Proof.
  eexists. split; [apply parseRSSFeed_items|].
  apply List.Forall_forall. intros it Hin.
  apply in_flat_map in Hin as [block [_ Hit]]. unfold itemsOf in Hit.
  destruct (parseItemBlock_fields URL_hostname block) as [H|[t [l [src H]]]];
    rewrite H in Hit; [destruct Hit|].
  destruct Hit as [<-|[]]. cbn [Router.title Router.excerpt].
  split; [apply cleanText_tag_free|].
  destruct (descriptionOf block) as [d|]; [|reflexivity].
  apply tag_free_append_r; [|reflexivity|reflexivity].
  apply tag_free_substring0, cleanText_tag_free.
Qed.

(** ** Draft creation in the content sourcer *)

Lemma or_else_nonempty (a : JS.jsval) (b : string) :
  b <> "" -> JS.to_string (JS.or_else a (Some b)) <> "".
Proof.
  intros Hb. unfold JS.or_else. destruct a as [[|c s]|]; simpl; try assumption. discriminate.
Qed.

Lemma draftTitle_nonempty (p : Sourcer.DraftPlatform) (title : JS.jsval) :
  draftTitle p title <> "".
Proof. apply or_else_nonempty. discriminate. Qed.

(** The run of [handleCreateDraft], step by step: the body, the read of
    the namespace, the key, the token, the answer of the CMS. *)
Lemma handleCreateDraft_cases (p : Sourcer.DraftPlatform)
    (kv : gmap string (list Sourcer.SourceEntry))
    (body : JS.Exc (option Sourcer.DraftFields)) :
  Sourcer.handleCreateDraft p kv body
  = match body with
    | JS.Throw e => (Sourcer.DraftFailed e, [])
    | JS.Ok None => (Sourcer.DraftFailed "TypeError", [])
    | JS.Ok (Some fields) =>
        match Sourcer.kv_rejects p with
        | Some e => (Sourcer.DraftFailed e, [])
        | None =>
            match kv !! draftKey p (Sourcer.body_publicationDate fields) with
            | None => (Sourcer.NoContent, [])
            | Some content =>
                match Sourcer.GHOST_ADMIN_API_KEY (Sourcer.env p) with
                | None => (Sourcer.DraftFailed "TypeError", [])
                | Some key =>
                    match Sourcer.generateGhostJWT_wide key (Sourcer.draft_iatNow p)
                            (Sourcer.draft_expNow p) with
                    | JS.Throw e => (Sourcer.DraftFailed e, [])
                    | JS.Ok jwt =>
                        let request :=
                          draft_request p jwt content (Sourcer.body_title fields) in
                        (match Sourcer.cms_fetch p request with
                         | JS.Throw e => Sourcer.DraftFailed e
                         | JS.Ok response =>
                             if Sourcer.ok response then
                               match Sourcer.post_ids response with
                               | JS.Throw e => Sourcer.DraftFailed e
                               | JS.Ok ids =>
                                   match nth_error ids 0 with
                                   | Some id =>
                                       Sourcer.Created id
                                         (JS.to_string
                                            (Sourcer.GHOST_SITE_URL (Sourcer.env p))
                                            +:+ "/ghost/#/editor/post/" +:+ JS.to_string id)
                                   | None => Sourcer.DraftFailed "TypeError"
                                   end
                               end
                             else
                               Sourcer.DraftFailed
                                 ("Ghost API error: "
                                    +:+ JS.decimal (Sourcer.status response) +:+ " "
                                    +:+ Sourcer.statusText response)
                         end, [request])
                    end
                end
            end
        end
    end.
Proof.
  unfold Sourcer.handleCreateDraft.
  destruct body as [[fields|]|e]; try reflexivity.
  cbn zeta.
  change ("content_" +:+ JS.to_string (JS.or_else (Sourcer.body_publicationDate fields) _))
    with (draftKey p (Sourcer.body_publicationDate fields)).
  destruct (Sourcer.kv_rejects p) as [e|]; [reflexivity|].
  destruct (kv !! draftKey p (Sourcer.body_publicationDate fields)) as [content|];
    [|reflexivity].
  unfold Sourcer.createGhostDraft.
  destruct (Sourcer.GHOST_ADMIN_API_KEY (Sourcer.env p)) as [key|]; [|reflexivity].
  destruct (Sourcer.generateGhostJWT_wide key _ _) as [jwt|e]; [|reflexivity].
  cbn zeta. cbn [Sourcer.draft_title Sourcer.html Sourcer.generateDraftHTML].
  change (JS.to_string (JS.or_else (Sourcer.body_title fields) _))
    with (draftTitle p (Sourcer.body_title fields)).
  fold (draft_request p jwt content (Sourcer.body_title fields)).
  destruct (Sourcer.cms_fetch p _) as [response|e]; exc_norm; [|reflexivity].
  destruct (Sourcer.ok response); [|reflexivity].
  destruct (Sourcer.post_ids response) as [ids|e]; exc_norm; [|reflexivity].
  destruct (nth_error ids 0) as [id|]; reflexivity.
Qed.

(** X8. The draft handler of the content sourcer, on any body, key and
    namespace of stored batches. It answers 404 exactly when the body
    parses to an object, the namespace is read and holds nothing under
    the key of the named date or of today. It calls [fetch] at most once,
    and it does exactly when the body parses to an object, the namespace
    is read and holds content under the key, the admin key is defined and
    a token is minted from it: the call is then the POST to the posts
    endpoint of the site with the token after [Ghost ] and the one post,
    a draft with the three tags whose html is the digest of the stored
    content under the title, which is never empty. *)
Theorem draft_requests (p : Sourcer.DraftPlatform)
    (kv : gmap string (list Sourcer.SourceEntry))
    (body : JS.Exc (option Sourcer.DraftFields)) :
  let run := Sourcer.handleCreateDraft p kv body in
  (fst run = Sourcer.NoContent <->
   exists fields,
     body = JS.Ok (Some fields)
     /\ Sourcer.kv_rejects p = None
     /\ kv !! draftKey p (Sourcer.body_publicationDate fields) = None)
  /\ (forall request,
        In request (snd run) <->
        exists fields content key jwt,
          body = JS.Ok (Some fields)
          /\ Sourcer.kv_rejects p = None
          /\ kv !! draftKey p (Sourcer.body_publicationDate fields) = Some content
          /\ Sourcer.GHOST_ADMIN_API_KEY (Sourcer.env p) = Some key
          /\ Sourcer.generateGhostJWT_wide key (Sourcer.draft_iatNow p)
               (Sourcer.draft_expNow p) = JS.Ok jwt
          /\ request = draft_request p jwt content (Sourcer.body_title fields))
  /\ (length (snd run) <= 1)%nat
  /\ (forall title, draftTitle p title <> "").
Proof.
  cbn zeta. rewrite handleCreateDraft_cases.
  split; [|split; [|split; [|apply draftTitle_nonempty]]].
  - destruct body as [[fields|]|e];
      [|split; [discriminate|intros (f & H & _); discriminate]..].
    destruct (Sourcer.kv_rejects p) as [e|] eqn:Hget;
      [split; [discriminate|intros (f & _ & H & _); discriminate]|].
    destruct (kv !! draftKey p (Sourcer.body_publicationDate fields)) as [content|] eqn:Hkv.
    + split.
      * destruct (Sourcer.GHOST_ADMIN_API_KEY _); [|discriminate].
        destruct (Sourcer.generateGhostJWT_wide _ _ _); [|discriminate].
        cbn zeta. cbn [fst].
        destruct (Sourcer.cms_fetch p _) as [response|]; [|discriminate].
        destruct (Sourcer.ok response); [|discriminate].
        destruct (Sourcer.post_ids response) as [ids|]; [|discriminate].
        destruct (nth_error ids 0); discriminate.
      * intros (f & Hf & _ & Hnone). injection Hf as <-. congruence.
    + split; [|reflexivity]. intros _. exists fields. repeat split. exact Hkv.
  - intros request.
    destruct body as [[fields|]|e];
      [|split; [intros []|intros (f & c & k & j & H & _); discriminate]..].
    destruct (Sourcer.kv_rejects p) as [e|] eqn:Hget;
      [split; [intros []|intros (f & c & k & j & _ & H & _); discriminate]|].
    destruct (kv !! draftKey p (Sourcer.body_publicationDate fields)) as [content|] eqn:Hkv;
      [|split; [intros []|intros (f & c & k & j & Hf & _ & H & _);
                          injection Hf as <-; congruence]].
    destruct (Sourcer.GHOST_ADMIN_API_KEY (Sourcer.env p)) as [key|] eqn:Hkey;
      [|split; [intros []|intros (f & c & k & j & _ & _ & _ & H & _); discriminate]].
    destruct (Sourcer.generateGhostJWT_wide key _ _) as [jwt|e] eqn:Hmint.
    + cbn zeta. cbn [snd]. split.
      * intros [<-|[]]. exists fields, content, key, jwt. repeat split; assumption.
      * intros (f & c & k & j & Hf & _ & Hc & Hk & Hj & ->).
        injection Hf as <-. rewrite Hkv in Hc. injection Hc as <-. injection Hk as <-.
        rewrite Hmint in Hj. injection Hj as <-. left. reflexivity.
    + split; [intros []|].
      intros (f & c & k & j & _ & _ & _ & Hk & Hj & _). injection Hk as <-.
      rewrite Hmint in Hj. discriminate.
  - destruct body as [[fields|]|e]; [|simpl; lia..].
    destruct (Sourcer.kv_rejects p); [simpl; lia|].
    destruct (kv !! _); [|simpl; lia].
    destruct (Sourcer.GHOST_ADMIN_API_KEY _); [|simpl; lia].
    destruct (Sourcer.generateGhostJWT_wide _ _ _); simpl; lia.
Qed.

(** X9. The draft handler answers that a draft was created only when the CMS
    accepted the one request and returned a post: the id of the answer is
    that post's, and the editor link of the answer ends with it. *)
Theorem created_means_accepted (p : Sourcer.DraftPlatform)
    (kv : gmap string (list Sourcer.SourceEntry))
    (body : JS.Exc (option Sourcer.DraftFields)) (id : JS.jsval) (url : string) :
  fst (Sourcer.handleCreateDraft p kv body) = Sourcer.Created id url ->
  exists request response ids,
    snd (Sourcer.handleCreateDraft p kv body) = [request]
    /\ Sourcer.cms_fetch p request = JS.Ok response
    /\ Sourcer.ok response = true
    /\ Sourcer.post_ids response = JS.Ok (id :: ids)
    /\ url = JS.to_string (Sourcer.GHOST_SITE_URL (Sourcer.env p))
               +:+ "/ghost/#/editor/post/" +:+ JS.to_string id.
Proof.
  rewrite handleCreateDraft_cases.
  destruct body as [[fields|]|e]; [|discriminate..].
  destruct (Sourcer.kv_rejects p); [discriminate|].
  destruct (kv !! _) as [content|]; [|discriminate].
  destruct (Sourcer.GHOST_ADMIN_API_KEY _) as [key|]; [|discriminate].
  destruct (Sourcer.generateGhostJWT_wide _ _ _) as [jwt|]; [|discriminate].
  cbn zeta. cbn [fst snd].
  set (request := draft_request p jwt content (Sourcer.body_title fields)).
  destruct (Sourcer.cms_fetch p request) as [response|e] eqn:Hfetch; [|discriminate].
  destruct (Sourcer.ok response) eqn:Hok; [|discriminate].
  destruct (Sourcer.post_ids response) as [ids|e] eqn:Hids; [|discriminate].
  destruct ids as [|first ids]; [discriminate|].
  cbn [nth_error]. intros H. injection H as <- <-.
  exists request, response, ids. repeat split; assumption.
Qed.

Lemma created_means_accepted_witness :
  exists request response ids,
    snd (Sourcer.handleCreateDraft Drafts.platform Drafts.sourced Drafts.empty_body)
    = [request]
    /\ Sourcer.cms_fetch Drafts.platform request = JS.Ok response
    /\ Sourcer.ok response = true
    /\ Sourcer.post_ids response = JS.Ok (Some "p1" :: ids)
    /\ "https://cms.example/ghost/#/editor/post/p1"
       = JS.to_string (Sourcer.GHOST_SITE_URL (Sourcer.env Drafts.platform))
           +:+ "/ghost/#/editor/post/" +:+ JS.to_string (Some "p1").
Proof.
  apply (created_means_accepted Drafts.platform Drafts.sourced Drafts.empty_body
           (Some "p1") "https://cms.example/ghost/#/editor/post/p1").
  vm_compute. reflexivity.
Defined.

Lemma with_own_feeds (sources : Sourcer.Sources) :
  with_feeds sources (Sourcer.rss_feeds sources) = sources.
Proof. destruct sources; reflexivity. Qed.

(** X10. Sourcing and drafting compose: after a sourcing run that could write
    to the namespace, a draft request of the same calendar day that names
    no publication date finds the run's content, so it is never answered
    with the 404, and every request it sends carries the digest of what
    the run stored. *)
Theorem sourced_content_is_drafted (sources : Sourcer.Sources) (p : Sourcer.Platform)
    (st : Sourcer.State) (dp : Sourcer.DraftPlatform)
    (body : JS.Exc (option Sourcer.DraftFields)) :
  Sourcer.kv_available p = true ->
  day (Sourcer.draft_isoNow dp) = day (Sourcer.isoNow p) ->
  (forall fields,
     body = JS.Ok (Some fields) -> JS.truthy (Sourcer.body_publicationDate fields) = false) ->
  let stored := Sourcer.kv (snd (Sourcer.handleSourceContent sources p st)) in
  let run := Sourcer.handleCreateDraft dp stored body in
  (forall publicationDate,
     JS.truthy publicationDate = false ->
     stored !! draftKey dp publicationDate
     = Some (flat_map (contribution sources p) (Sourcer.rss_feeds sources)))
  /\ fst run <> Sourcer.NoContent
  /\ Forall (fun request =>
               exists fields,
                 body = JS.Ok (Some fields)
                 /\ carries_digest
                      (flat_map (contribution sources p) (Sourcer.rss_feeds sources))
                      (draftTitle dp (Sourcer.body_title fields)) request)
       (snd run).
Proof.
  intros Hkv Hday Hdate stored run.
  assert (Hstored : forall publicationDate,
             JS.truthy publicationDate = false ->
             stored !! draftKey dp publicationDate
             = Some (flat_map (contribution sources p) (Sourcer.rss_feeds sources))).
  { intros publicationDate Hfalsy. subst stored. rewrite <- (with_own_feeds sources) at 1.
    rewrite sourcer_run_kv, Hkv.
    unfold draftKey, JS.or_else. rewrite Hfalsy, Hday.
    apply lookup_insert_eq. }
  split; [exact Hstored|].
  subst run. rewrite handleCreateDraft_cases.
  destruct body as [[fields|]|e]; [|split; [discriminate|constructor]..].
  rewrite (Hstored _ (Hdate fields eq_refl)).
  destruct (Sourcer.kv_rejects dp); [split; [discriminate|constructor]|].
  destruct (Sourcer.GHOST_ADMIN_API_KEY _); [|split; [discriminate|constructor]].
  destruct (Sourcer.generateGhostJWT_wide _ _ _); [|split; [discriminate|constructor]].
  cbn zeta. cbn [fst snd]. split.
  - destruct (Sourcer.cms_fetch dp _) as [response|]; [|discriminate].
    destruct (Sourcer.ok response); [|discriminate].
    destruct (Sourcer.post_ids response) as [ids|]; [|discriminate].
    destruct (nth_error ids 0); discriminate.
  - constructor; [|constructor]. exists fields. split; [reflexivity|].
    eexists. split; [reflexivity|]. repeat split.
Qed.

Lemma sourced_content_is_drafted_witness :
  let sources := with_feeds Inputs.scenario [Batches.good_feed; Batches.down_feed] in
  let stored :=
    Sourcer.kv (snd (Sourcer.handleSourceContent sources Batches.sourcer_platform
                       Batches.sourcer_state)) in
  let run := Sourcer.handleCreateDraft Drafts.platform stored Drafts.empty_body in
  (forall publicationDate,
     JS.truthy publicationDate = false ->
     stored !! draftKey Drafts.platform publicationDate
     = Some (flat_map (contribution sources Batches.sourcer_platform)
               (Sourcer.rss_feeds sources)))
  /\ fst run <> Sourcer.NoContent
  /\ Forall (fun request =>
               exists fields,
                 Drafts.empty_body = JS.Ok (Some fields)
                 /\ carries_digest
                      (flat_map (contribution sources Batches.sourcer_platform)
                         (Sourcer.rss_feeds sources))
                      (draftTitle Drafts.platform (Sourcer.body_title fields)) request)
       (snd run).
Proof.
  apply (sourced_content_is_drafted
           (with_feeds Inputs.scenario [Batches.good_feed; Batches.down_feed])
           Batches.sourcer_platform Batches.sourcer_state Drafts.platform
           Drafts.empty_body).
  - reflexivity.
  - reflexivity.
  - intros fields H. injection H as <-. reflexivity.
Defined.

(** The concrete composition: the sourced item reaches the CMS as a draft
    and the answer names the created post; a body that names another day
    is answered with the 404, and a body that does not parse, a namespace
    that cannot be read and a key with a code unit above 255 with the 500,
    no request sent. *)
Example source_then_draft_example :
  let sources := with_feeds Inputs.scenario [Batches.good_feed; Batches.down_feed] in
  let stored :=
    Sourcer.kv (snd (Sourcer.handleSourceContent sources Batches.sourcer_platform
                       Batches.sourcer_state)) in
  fst (Sourcer.handleCreateDraft Drafts.platform stored Drafts.empty_body)
  = Sourcer.Created (Some "p1") "https://cms.example/ghost/#/editor/post/p1"
  /\ fst (Sourcer.handleCreateDraft Drafts.platform stored (Drafts.dated_body "2024-01-16"))
     = Sourcer.NoContent
  /\ Sourcer.handleCreateDraft Drafts.platform stored (JS.Throw "SyntaxError")
     = (Sourcer.DraftFailed "SyntaxError", [])
  /\ Sourcer.handleCreateDraft Drafts.platform stored (JS.Ok None)
     = (Sourcer.DraftFailed "TypeError", [])
  /\ Sourcer.handleCreateDraft Drafts.unreadable stored Drafts.empty_body
     = (Sourcer.DraftFailed "KV GET failed", [])
  /\ Sourcer.handleCreateDraft (Drafts.with_key (Some [97; 58; 8364]%N)) stored
       Drafts.empty_body
     = (Sourcer.DraftFailed "InvalidCharacterError", [])
  /\ Sourcer.handleCreateDraft (Drafts.with_key None) stored Drafts.empty_body
     = (Sourcer.DraftFailed "TypeError", []).
Proof. vm_compute. repeat split. Qed.

(** ** Stored content and draft creation in the router *)

Lemma contents_spec (p : Router.Platform) (st : Router.State)
    (listing : string -> list string) :
  Router.kv_available p = true ->
  exists contents,
    Router.getSourcedContent p st listing = Router.Contents (length contents) contents
    /\ (length contents <= length (listing "content:"))%nat
    /\ forall content,
         In content contents <->
         exists key ttl,
           In key (listing "content:") /\ Router.kv st !! key = Some (content, ttl).
Proof.
  intros Hkv. unfold Router.getSourcedContent. rewrite Hkv.
  eexists. split; [reflexivity|]. split.
  - induction (listing "content:") as [|key keys IH]; [reflexivity|].
    cbn [flat_map]. rewrite length_app.
    destruct (Router.kv st !! key) as [[c ttl]|]; simpl; lia.
  - intros content. rewrite in_flat_map. split.
    + intros (key & Hkey & Hin).
      destruct (Router.kv st !! key) as [[c ttl]|] eqn:Hget; [|destruct Hin].
      destruct Hin as [<-|[]]. eauto.
    + intros (key & ttl & Hkey & Hget). exists key. split; [exact Hkey|].
      rewrite Hget. left. reflexivity.
Qed.

(** The namespace after a run that could write to it. *)
Lemma router_run_kv (p : Router.Platform) (st : Router.State)
    (bodySources : list string) (category : string) (maxItems : Z) :
  Router.kv_available p = true ->
  exists stored,
    Router.kv (snd (Router.handleSourceContent p st bodySources category maxItems))
    = <["content:" +:+ Router.randomUUID p := (stored, 604800)]> (Router.kv st).
Proof.
  intros Hkv. unfold Router.handleSourceContent.
  destruct (Router.fetchAll _ _ _ _) as [fetched log].
  destruct (Router.filterGoodVibes _ _ _) as [kept calls].
  rewrite Hkv. cbn [snd Router.kv Router.id]. eexists. reflexivity.
Qed.

(** X12. What the router's sourcing run stores, [getSourcedContent] returns,
    provided the platform lists every key under the prefix: the key of
    the run starts with the prefix that is listed, and the record with
    the id and the item count of the run's answer is among the contents. *)
Theorem stored_content_is_listed (p : Router.Platform) (st : Router.State)
    (bodySources : list string) (category : string) (maxItems : Z)
    (listing : string -> list string) :
  Router.kv_available p = true ->
  complete_listing
    (Router.kv (snd (Router.handleSourceContent p st bodySources category maxItems)))
    listing ->
  let run := Router.handleSourceContent p st bodySources category maxItems in
  exists contents stored,
    Router.getSourcedContent p (snd run) listing = Router.Contents (length contents) contents
    /\ In stored contents
    /\ Router.id stored = Router.randomUUID p
    /\ fst run = Router.Success (Router.id stored) (length (Router.content_items stored)).
Proof.
  intros Hkv Hlist run.
  destruct (contents_spec p (snd run) listing Hkv) as (contents & Hget & _ & Hspec).
  exists contents. subst run. revert Hlist Hget Hspec.
  unfold Router.handleSourceContent.
  destruct (Router.fetchAll _ _ _ _) as [fetched log].
  destruct (Router.filterGoodVibes _ _ _) as [kept calls].
  rewrite Hkv. cbn [fst snd Router.id Router.kv]. intros Hlist Hget Hspec.
  eexists. split; [exact Hget|]. split.
  - apply Hspec. exists ("content:" +:+ Router.randomUUID p), (86400 * 7).
    split; [|apply lookup_insert_eq].
    apply Hlist; [apply prefix_spec; eexists; reflexivity|].
    rewrite lookup_insert_eq. eexists. reflexivity.
  - split; reflexivity.
Qed.

(** The listing of the concrete run is complete. *)
Lemma listing_complete :
  complete_listing
    (Router.kv (snd (Router.handleSourceContent Batches.router_platform Batches.router_state
                       ["https://a.example/rss"] "general" 10)))
    Requests.listing.
Proof.
  destruct (router_run_kv Batches.router_platform Batches.router_state
              ["https://a.example/rss"] "general" 10 eq_refl) as [stored Hrun].
  rewrite Hrun. clear Hrun.
  intros prefix key Hprefix [value Hkey]. unfold Requests.listing.
  apply lookup_insert_Some in Hkey as [[<- _]|[_ Hkey]].
  - change ("content:" +:+ Router.randomUUID Batches.router_platform)
      with "content:00000000-0000-4000-8000-000000000000" in Hprefix.
    rewrite Hprefix. left. reflexivity.
  - unfold Batches.router_state in Hkey. cbn [Router.kv] in Hkey.
    rewrite lookup_empty in Hkey. discriminate.
Qed.

Lemma stored_content_is_listed_witness :
  let run := Router.handleSourceContent Batches.router_platform Batches.router_state
               ["https://a.example/rss"] "general" 10 in
  exists contents stored,
    Router.getSourcedContent Batches.router_platform (snd run) Requests.listing
    = Router.Contents (length contents) contents
    /\ In stored contents
    /\ Router.id stored = Router.randomUUID Batches.router_platform
    /\ fst run = Router.Success (Router.id stored) (length (Router.content_items stored)).
Proof.
  apply (stored_content_is_listed Batches.router_platform Batches.router_state
           ["https://a.example/rss"] "general" 10 Requests.listing).
  - reflexivity.
  - exact listing_complete.
Defined.

(** The run of the router's [createGhostDraft], step by step: the body,
    the key, the token, the spread of the tags, the answer of the CMS. *)
Lemma createGhostDraft_cases (key : option Wide.units)
    (cms_fetch : Router.CmsRequest -> JS.Exc Router.CmsResponse) (iatNow expNow : Z)
    (localeDate : string) (body : JS.Exc (option Router.DraftFields)) :
  Router.createGhostDraft key cms_fetch iatNow expNow localeDate body
  = match body with
    | JS.Throw e => (Router.DraftFailed e, [])
    | JS.Ok None => (Router.DraftFailed "TypeError", [])
    | JS.Ok (Some fields) =>
        match key with
        | None | Some [] => (Router.DraftFailed "Ghost Admin API key not configured", [])
        | Some (unit :: units) =>
            match Router.generateGhostJWT_wide (unit :: units) iatNow expNow with
            | JS.Throw e => (Router.DraftFailed e, [])
            | JS.Ok jwt =>
                match spread (Router.body_tags fields) with
                | None => (Router.DraftFailed "TypeError", [])
                | Some tags =>
                    let request := router_draft_request jwt localeDate fields tags in
                    (match cms_fetch request with
                     | JS.Throw e => Router.DraftFailed e
                     | JS.Ok response =>
                         if Router.ok response then
                           match Router.created response with
                           | JS.Throw e => Router.DraftFailed e
                           | JS.Ok entries =>
                               match nth_error entries 0 with
                               | Some post =>
                                   Router.DraftCreated (fst post)
                                     ("https://curationsla-1.ghost.io/ghost/#/editor/post/"
                                        +:+ JS.to_string (fst post))
                                     (snd post)
                               | None => Router.DraftFailed "TypeError"
                               end
                           end
                         else
                           Router.DraftFailed
                             ("Ghost API error: "
                                +:+ JS.decimal (Router.cms_status response) +:+ " "
                                +:+ Router.statusText response)
                     end, [request])
                end
            end
        end
    end.
Proof.
  unfold Router.createGhostDraft.
  destruct body as [[fields|]|e]; try reflexivity.
  destruct key as [[|unit units]|]; try reflexivity.
  cbn [Router.key_missing Wide.to_units].
  destruct (Router.generateGhostJWT_wide _ _ _) as [jwt|e]; [|reflexivity].
  unfold spread.
  assert (Hreq : forall tags,
             {| Router.request_url := Router.GHOST_URL +:+ "/ghost/api/admin/posts/";
                Router.authorization := "Ghost " +:+ jwt;
                Router.posts :=
                  [ {| Router.post_title :=
                         JS.to_string
                           (JS.or_else (Router.body_title fields)
                              (Some ("CurationsLA Draft - " +:+ localeDate)));
                       Router.post_html :=
                         JS.to_string
                           (JS.or_else (Router.body_html fields)
                              (Some "<p>Content sourced and ready for editing!</p>"));
                       Router.post_status := "draft";
                       Router.post_tags := "curations-la" :: "newsletter" :: tags |} ] |}
             = router_draft_request jwt localeDate fields tags).
  { intros tags. unfold router_draft_request, JS.or_else.
    destruct (JS.truthy (Router.body_title fields));
      destruct (JS.truthy (Router.body_html fields)); reflexivity. }
  destruct (Router.body_tags fields) as [|tags|]; [| |reflexivity];
    cbn zeta; rewrite Hreq;
    (destruct (cms_fetch _) as [response|e]; exc_norm; [|reflexivity]);
    (destruct (Router.ok response); [|reflexivity]);
    (destruct (Router.created response) as [entries|e]; exc_norm; [|reflexivity]);
    (destruct (nth_error entries 0) as [post|]; reflexivity).
Qed.

(** X13. The router's draft handler, on any body and key. It calls [fetch]
    at most once, and it does exactly when the body parses to an object,
    the key is a string that is not empty, a token is minted from it and
    the [tags] of the body can be spread: the call is then the POST to the
    posts endpoint of the CMS with the token after [Ghost ] and the one
    post, a draft with the two fixed tags before the caller's, whose title
    and html are the body's or, for an absent or empty one, the dated
    title and the placeholder. With a body that parses to an object and a
    key that is unset or empty the answer names the missing key. The
    handler answers that a draft was created only when the CMS accepted
    the request and returned a post, whose id and title the answer gives. *)
Theorem router_draft_requests (key : option Wide.units)
    (cms_fetch : Router.CmsRequest -> JS.Exc Router.CmsResponse)
    (iatNow expNow : Z) (localeDate : string)
    (body : JS.Exc (option Router.DraftFields)) :
  let run := Router.createGhostDraft key cms_fetch iatNow expNow localeDate body in
  (forall request,
     In request (snd run) <->
     exists fields units jwt tags,
       body = JS.Ok (Some fields)
       /\ key = Some units
       /\ units <> []
       /\ Router.generateGhostJWT_wide units iatNow expNow = JS.Ok jwt
       /\ spread (Router.body_tags fields) = Some tags
       /\ request = router_draft_request jwt localeDate fields tags)
  /\ (length (snd run) <= 1)%nat
  /\ (forall fields,
        body = JS.Ok (Some fields) ->
        key = None \/ key = Some [] ->
        run = (Router.DraftFailed "Ghost Admin API key not configured", []))
  /\ forall id url postTitle,
       fst run = Router.DraftCreated id url postTitle ->
       exists request response entries,
         snd run = [request]
         /\ cms_fetch request = JS.Ok response
         /\ Router.ok response = true
         /\ Router.created response = JS.Ok ((id, postTitle) :: entries)
         /\ url = "https://curationsla-1.ghost.io/ghost/#/editor/post/" +:+ JS.to_string id.
Proof.
  cbn zeta. rewrite createGhostDraft_cases.
  split; [|split; [|split]].
  - intros request.
    destruct body as [[fields|]|e];
      [|split; [intros []|intros (f & u & j & t & H & _); discriminate]..].
    destruct key as [[|unit units]|].
    + split; [intros []|]. intros (f & u & j & t & _ & Hk & Hu & _).
      injection Hk as <-. destruct Hu. reflexivity.
    + destruct (Router.generateGhostJWT_wide _ _ _) as [jwt|e] eqn:Hmint.
      * destruct (spread (Router.body_tags fields)) as [tags|] eqn:Htags.
        -- cbn zeta. cbn [snd]. split.
           ++ intros [<-|[]]. exists fields, (unit :: units), jwt, tags.
              repeat split; try assumption. discriminate.
           ++ intros (f & u & j & t & Hf & Hk & _ & Hj & Ht & ->).
              injection Hf as <-. injection Hk as <-.
              rewrite Hmint in Hj. injection Hj as <-.
              rewrite Htags in Ht. injection Ht as <-. left. reflexivity.
        -- split; [intros []|]. intros (f & u & j & t & Hf & _ & _ & _ & Ht & _).
           injection Hf as <-. congruence.
      * split; [intros []|]. intros (f & u & j & t & _ & Hk & _ & Hj & _).
        injection Hk as <-. rewrite Hmint in Hj. discriminate.
    + split; [intros []|]. intros (f & u & j & t & _ & Hk & _). discriminate.
  - destruct body as [[fields|]|e]; [|simpl; lia..].
    destruct key as [[|unit units]|]; [simpl; lia| |simpl; lia].
    destruct (Router.generateGhostJWT_wide _ _ _); [|simpl; lia].
    destruct (spread _); simpl; lia.
  - intros fields -> [->| ->]; reflexivity.
  - intros id url postTitle.
    destruct body as [[fields|]|e]; [|discriminate..].
    destruct key as [[|unit units]|]; [discriminate| |discriminate].
    destruct (Router.generateGhostJWT_wide _ _ _) as [jwt|]; [|discriminate].
    destruct (spread _) as [tags|]; [|discriminate].
    cbn zeta. cbn [fst snd].
    set (request := router_draft_request jwt localeDate fields tags).
    destruct (cms_fetch request) as [response|e] eqn:Hfetch; [|discriminate].
    destruct (Router.ok response) eqn:Hok; [|discriminate].
    destruct (Router.created response) as [entries|e] eqn:Hcr; [|discriminate].
    destruct entries as [|[id' title'] entries]; [discriminate|].
    cbn [nth_error fst snd]. intros H. injection H as <- <- <-.
    exists request, response, entries. repeat split; assumption.
Qed.

(** The router's handler on concrete bodies: a body with a title and two
    tags reaches the CMS; a body that does not parse, the body [null], a
    body whose [tags] is [null] and a key with a code unit above 255 are
    answered with the 500, no request sent. *)
Example router_draft_example :
  let key := Some (Wide.widen "abc:00ff") in
  let run body :=
    Router.createGhostDraft key Requests.cms_accepts 1705311000000 1705311000000
      "1/15/2024" body in
  map Router.posts (snd (run (JS.Ok (Some (Requests.titled (Router.TagsList ["la"; "art"]))))))
  = [[ {| Router.post_title := "Weekend";
          Router.post_html := "<p>Content sourced and ready for editing!</p>";
          Router.post_status := "draft";
          Router.post_tags := ["curations-la"; "newsletter"; "la"; "art"] |} ]]
  /\ fst (run (JS.Ok (Some (Requests.titled (Router.TagsList ["la"; "art"])))))
     = Router.DraftCreated (Some "p1")
         "https://curationsla-1.ghost.io/ghost/#/editor/post/p1" (Some "Weekend")
  /\ run (JS.Throw "SyntaxError") = (Router.DraftFailed "SyntaxError", [])
  /\ run (JS.Ok None) = (Router.DraftFailed "TypeError", [])
  /\ run (JS.Ok (Some (Requests.titled Router.TagsNotIterable)))
     = (Router.DraftFailed "TypeError", [])
  /\ Router.createGhostDraft (Some [97; 58; 8364]%N) Requests.cms_accepts 1705311000000
       1705311000000 "1/15/2024" (JS.Ok (Some (Requests.titled Router.TagsAbsent)))
     = (Router.DraftFailed "InvalidCharacterError", [])
  /\ Router.createGhostDraft (Some []) Requests.cms_accepts 1705311000000
       1705311000000 "1/15/2024" (JS.Ok (Some (Requests.titled Router.TagsAbsent)))
     = (Router.DraftFailed "Ghost Admin API key not configured", []).
Proof. vm_compute. repeat split. Qed.

(** ** Request dispatch in the router *)

Ltac case_if :=
  match goal with
  | |- context [if ?b then _ else _] => destruct b eqn:?
  end.

Lemma lookup_key_target (host target : string) :
  Router.lookup_key host Router.domainRedirects = Some target -> target = canonicalHost.
Proof.
  unfold Router.domainRedirects. cbn [Router.lookup_key].
  repeat case_if; intros H; try discriminate; injection H as <-; reflexivity.
Qed.

Lemma lookup_key_legacy (host : string) :
  In host (map fst Router.domainRedirects) ->
  Router.lookup_key host Router.domainRedirects = Some canonicalHost.
Proof.
  cbn. intros [<-|[<-|[<-|[<-|[]]]]]; reflexivity.
Qed.

(** X14. A request to one of the four legacy hosts, other than a preflight, the
    health check and the paths under [/api/], is answered with a 301 to
    the same path and query on la.curations.cc. *)
Theorem legacy_host_redirects (request : Router.Request) :
  In (Router.hostname request) (map fst Router.domainRedirects) ->
  String.eqb (Router.method request) "OPTIONS" = false ->
  String.eqb (Router.pathname request) "/health" = false ->
  String.prefix "/api/" (Router.pathname request) = false ->
  Router.route request
  = Router.Redirect
      ("https://la.curations.cc" +:+ Router.pathname request +:+ Router.search request) 301.
Proof.
  intros Hhost Hmethod Hhealth Hapi. unfold Router.route.
  rewrite Hmethod, Hhealth, (lookup_key_legacy _ Hhost).
  assert (Hne : forall rest, String.eqb (Router.pathname request) ("/api/" +:+ rest) = false).
  { intros rest. apply String.eqb_neq. intros Heq.
    assert (String.prefix "/api/" (Router.pathname request) = true) as Habs
      by (apply prefix_spec; eauto).
    congruence. }
  pose proof (Hne "source-content") as H1.
  pose proof (Hne "get-content") as H2.
  pose proof (Hne "create-draft") as H3.
  change ("/api/" +:+ "source-content") with "/api/source-content" in H1.
  change ("/api/" +:+ "get-content") with "/api/get-content" in H2.
  change ("/api/" +:+ "create-draft") with "/api/create-draft" in H3.
  rewrite H1, H2, H3.
  cbn [andb]. unfold canonicalHost. string_norm. reflexivity.
Qed.

Lemma legacy_host_redirects_witness :
  Router.route Requests.legacy_about
  = Router.Redirect
      ("https://la.curations.cc" +:+ Router.pathname Requests.legacy_about
         +:+ Router.search Requests.legacy_about) 301.
Proof.
  apply (legacy_host_redirects Requests.legacy_about);
    [right; left; reflexivity|reflexivity|reflexivity|reflexivity].
Defined.

(** X15. Every 301 of the router leads to la.curations.cc with the path and
    the query kept, and the router answers no request to that host,
    whatever its method, path and query, with a 301: a permanent redirect
    is followed by no second one. *)
Theorem permanent_redirect_is_final (request : Router.Request) :
  permanent (Router.route request) = true ->
  Router.route request
  = Router.Redirect
      ("https://la.curations.cc" +:+ Router.pathname request +:+ Router.search request) 301
  /\ forall method pathname search,
       permanent (Router.route (at_canonical method pathname search)) = false.
Proof.
  intros Hperm. split.
  - revert Hperm. unfold Router.route.
    destruct (Router.lookup_key _ _) as [target|] eqn:Hkey;
      repeat case_if; intros Habs; try (cbv in Habs; discriminate Habs).
    apply lookup_key_target in Hkey as ->. unfold canonicalHost. string_norm. reflexivity.
  - intros method pathname search. unfold Router.route, at_canonical.
    cbn [Router.method Router.hostname Router.pathname Router.search].
    change (Router.lookup_key canonicalHost Router.domainRedirects) with (@None string).
    change (existsb (String.eqb canonicalHost) Router.inheritedKeys) with false.
    repeat case_if; reflexivity.
Qed.

Lemma permanent_redirect_is_final_witness :
  Router.route Requests.legacy_about
  = Router.Redirect
      ("https://la.curations.cc" +:+ Router.pathname Requests.legacy_about
         +:+ Router.search Requests.legacy_about) 301
  /\ forall method pathname search,
       permanent (Router.route (at_canonical method pathname search)) = false.
Proof.
  apply (permanent_redirect_is_final Requests.legacy_about). reflexivity.
Defined.

(** X16. On la.curations.cc a path under [/p/] is answered with a 302 to
    [https://la.curations.cc/newsletter/], and the router answers that
    address, with its closing slash, with the 404 page. *)
Theorem archive_redirect_is_unserved (request : Router.Request) :
  Router.hostname request = canonicalHost ->
  String.eqb (Router.method request) "OPTIONS" = false ->
  String.prefix "/p/" (Router.pathname request) = true ->
  Router.route request = Router.Redirect "https://la.curations.cc/newsletter/" 302
  /\ forall method,
       String.eqb method "OPTIONS" = false ->
       Router.route (at_canonical method "/newsletter/" "") = Router.NotFoundPage.
Proof.
  intros Hhost Hmethod Hpre. split.
  - unfold Router.route. rewrite Hmethod, Hhost, Hpre.
    apply prefix_spec in Hpre as [rest ->].
    reflexivity.
  - intros method Hm. unfold Router.route, at_canonical.
    cbn [Router.method Router.hostname Router.pathname Router.search].
    rewrite Hm. reflexivity.
Qed.

Lemma archive_redirect_is_unserved_witness :
  Router.route Requests.archived_post
  = Router.Redirect "https://la.curations.cc/newsletter/" 302
  /\ forall method,
       String.eqb method "OPTIONS" = false ->
       Router.route (at_canonical method "/newsletter/" "") = Router.NotFoundPage.
Proof.
  apply (archive_redirect_is_unserved Requests.archived_post); reflexivity.
Defined.

(** ** The sitemap *)

Lemma occurs_trans (x y z : string) : occurs x y -> occurs y z -> occurs x z.
Proof.
  intros (a & b & ->) (c & d & ->). exists (c +:+ a), (b +:+ d).
  rewrite !append_assoc. reflexivity.
Qed.

Lemma fold_appendUrl (host today : string) (urls : list Router.SitemapUrl) (xml : string) :
  fold_left (Router.appendUrl host today) urls xml
  = xml +:+ join (map (Router.appendUrl host today "") urls).
Proof.
  revert xml. induction urls as [|url urls IH]; intros xml; cbn [fold_left map join fold_right].
  - rewrite append_nil_r. reflexivity.
  - rewrite IH. unfold Router.appendUrl. rewrite !append_assoc. string_norm. reflexivity.
Qed.

Lemma occurs_locLine (host today : string) (url : Router.SitemapUrl) :
  occurs (locLine host url) (Router.appendUrl host today "" url).
Proof.
  unfold Router.appendUrl, locLine.
  exists ("  <url>" +:+ JS.newline +:+ "    "). eexists.
  unfold JS.newline. rewrite !append_assoc. string_norm. reflexivity.
Qed.

(** X17. Where the router serves the sitemap of a host, every address that the
    sitemap lists for the host is one the router answers with a page or a
    redirect, never with its 404 page. *)
Theorem sitemap_paths_are_served (host today method : string) :
  Router.route {| Router.method := method; Router.hostname := host;
                  Router.pathname := "/sitemap.xml"; Router.search := "" |}
  = Router.Sitemap ->
  Forall (fun url =>
            occurs (locLine host url) (Router.generateSitemap host today)
            /\ served (Router.route {| Router.method := method; Router.hostname := host;
                                       Router.pathname := Router.loc url;
                                       Router.search := "" |}) = true)
    Router.sitemapUrls.
Proof.
  intros Hroute. apply List.Forall_forall. intros url Hin. split.
  - unfold Router.generateSitemap. cbn zeta. rewrite fold_appendUrl.
    rewrite append_assoc. apply occurs_append.
    eapply occurs_trans; [apply occurs_locLine|]. apply occurs_join.
    apply in_map. exact Hin.
  - revert Hroute. unfold Router.route.
    cbn [Router.method Router.hostname Router.pathname Router.search].
    destruct (String.eqb method "OPTIONS"); [discriminate|].
    cbn [String.eqb Ascii.eqb Bool.eqb andb orb String.prefix].
    destruct (Router.lookup_key host Router.domainRedirects); [discriminate|].
    destruct (existsb _ _); [discriminate|]. intros _.
    destruct Hin as [<-|[<-|[<-|[<-|[]]]]]; reflexivity.
Qed.

Lemma sitemap_paths_are_served_witness :
  Forall (fun url =>
            occurs (locLine "la.curations.cc" url)
              (Router.generateSitemap "la.curations.cc" "2024-01-15")
            /\ served (Router.route {| Router.method := "GET";
                                       Router.hostname := "la.curations.cc";
                                       Router.pathname := Router.loc url;
                                       Router.search := "" |}) = true)
    Router.sitemapUrls.
Proof.
  apply (sitemap_paths_are_served "la.curations.cc" "2024-01-15" "GET"). reflexivity.
Defined.

(** ** The first worker text: [parseAndFilter] and [sourceContent] *)

Lemma filterLoop_none (filtered content : string) (words : list string) :
  Legacy.filterLoop filtered words content = None
  <-> exists word, In word words /\ occurs word filtered.
Proof.
  induction words as [|word words IH]; cbn [Legacy.filterLoop].
  - split; [discriminate|]. intros (w & [] & _).
  - destruct (JS.includes filtered word) eqn:Hinc.
    + split; [|reflexivity]. intros _. exists word. split; [left; reflexivity|].
      apply includes_occurs. exact Hinc.
    + rewrite IH. split.
      * intros (w & Hin & Hocc). exists w. split; [right; exact Hin|exact Hocc].
      * intros (w & [<-|Hin] & Hocc); [|eauto].
        apply includes_occurs in Hocc. congruence.
Qed.

Lemma filterLoop_some (filtered content : string) (words : list string) :
  Legacy.filterLoop filtered words content = None
  \/ Legacy.filterLoop filtered words content = Some content.
Proof.
  induction words as [|word words IH]; cbn [Legacy.filterLoop]; [right; reflexivity|].
  destruct (JS.includes filtered word); [left; reflexivity|exact IH].
Qed.

(** X18. [parseAndFilter] returns null exactly when one of its five banned
    words occurs in the lowercase body, wherever it stands, and returns
    the body unchanged otherwise. *)
Theorem parseAndFilter_spec (content : string) :
  (Legacy.parseAndFilter content = None
   <-> exists word, In word Legacy.bannedWords /\ occurs word (JS.toLowerCase content))
  /\ (Legacy.parseAndFilter content = None \/ Legacy.parseAndFilter content = Some content).
Proof.
  split; [apply filterLoop_none|apply filterLoop_some].
Qed.

(** X19. The content array of [sourceContent] is, in the order of the four
    sources, what [parseAndFilter] makes of the body of each source whose
    fetch is fulfilled, null included, with nothing for a source whose
    fetch or body read throws; the console holds one line for each of
    those, in the same order, so entries and lines add up to four. *)
Theorem legacy_content_entries (fetch_text : string -> JS.Exc string) :
  let run := Legacy.sourceContent fetch_text in
  fst run
  = legacy_entry fetch_text "https://lataco.com/rss"
      ++ legacy_entry fetch_text "https://la.eater.com/rss/index.xml"
      ++ legacy_entry fetch_text "https://laist.com/feeds/all.rss"
      ++ legacy_entry fetch_text "https://timeout.com/los-angeles/rss.xml"
  /\ snd run
     = legacy_line fetch_text "https://lataco.com/rss"
         ++ legacy_line fetch_text "https://la.eater.com/rss/index.xml"
         ++ legacy_line fetch_text "https://laist.com/feeds/all.rss"
         ++ legacy_line fetch_text "https://timeout.com/los-angeles/rss.xml"
  /\ (length (fst run) + length (snd run) = 4)%nat.
Proof.
  cbn zeta. unfold Legacy.sourceContent, Legacy.sources. cbn [fold_left].
  unfold Legacy.fetchOne, legacy_entry, legacy_line.
  destruct (fetch_text "https://lataco.com/rss");
    destruct (fetch_text "https://la.eater.com/rss/index.xml");
    destruct (fetch_text "https://laist.com/feeds/all.rss");
    destruct (fetch_text "https://timeout.com/los-angeles/rss.xml");
    cbn [fst snd app length]; repeat split.
Qed.

(** ** The router's filter and the size of its batch *)

Lemma router_hasPositive_true (item : Router.Item) :
  Router.hasPositive item = true <->
  exists word, In word Router.goodWords /\ occurs word (Router.itemText item).
Proof.
  unfold Router.hasPositive. rewrite existsb_exists.
  split; intros (word & Hin & H); exists word; (split; [exact Hin|]);
    apply includes_occurs; exact H.
Qed.

Lemma filterGoodVibes_facts (draws : nat -> Q) (items : list Router.Item) (calls : nat) :
  sublist (fst (Router.filterGoodVibes draws calls items)) items
  /\ snd (Router.filterGoodVibes draws calls items)
     = (calls + length (List.filter undecided items))%nat
  /\ forall item,
       In item items -> Router.hasNegative item = false -> Router.hasPositive item = true ->
       In item (fst (Router.filterGoodVibes draws calls items)).
Proof.
  revert calls. induction items as [|item items IH]; intros calls;
    cbn [Router.filterGoodVibes List.filter].
  - split; [constructor|]. split; [simpl; lia|]. intros item [].
  - unfold undecided at 1.
    destruct (Router.hasNegative item) eqn:Hneg; cbn [negb andb].
    + destruct (IH calls) as (Hsub & Hcalls & Hkeep).
      split; [apply sublist_cons; exact Hsub|]. split; [exact Hcalls|].
      intros it [<-|Hin] Hn Hp; [congruence|]. apply Hkeep; assumption.
    + destruct (Router.hasPositive item) eqn:Hpos; cbn [negb].
      * destruct (IH calls) as (Hsub & Hcalls & Hkeep).
        destruct (Router.filterGoodVibes draws calls items) as [kept calls'].
        cbn [fst snd] in *. split; [apply sublist_skip; exact Hsub|].
        split; [exact Hcalls|].
        intros it [<-|Hin] Hn Hp; [left; reflexivity|]. right. apply Hkeep; assumption.
      * destruct (IH (S calls)) as (Hsub & Hcalls & Hkeep).
        destruct (Router.filterGoodVibes draws (S calls) items) as [kept calls'].
        cbn [fst snd length] in *. split.
        { destruct (negb _); [apply sublist_skip|apply sublist_cons]; exact Hsub. }
        split; [lia|].
        intros it [<-|Hin] Hn Hp; [congruence|].
        destruct (negb _); [right|]; apply Hkeep; assumption.
Qed.

(** X20. An item of the router in whose text no banned word and some positive
    word occurs is kept whatever [Math.random] returns. *)
Theorem filterGoodVibes_keeps_positive (draws : nat -> Q) (calls : nat)
    (items : list Router.Item) (item : Router.Item) (word : string) :
  In item items ->
  (forall banned, In banned Router.bannedWords -> ~ occurs banned (Router.itemText item)) ->
  In word Router.goodWords ->
  occurs word (Router.itemText item) ->
  In item (fst (Router.filterGoodVibes draws calls items)).
Proof.
  intros Hin Hban Hword Hocc.
  apply (filterGoodVibes_facts draws items calls); [exact Hin| |].
  - destruct (Router.hasNegative item) eqn:Hneg; [|reflexivity].
    apply router_hasNegative_true in Hneg as (banned & Hb & Ho).
    destruct (Hban banned Hb Ho).
  - apply router_hasPositive_true. eauto.
Qed.

Lemma filterGoodVibes_keeps_positive_witness :
  In Requests.art_walk
    (fst (Router.filterGoodVibes (fun _ => 0%Q) 0 [Inputs.plain; Requests.art_walk])).
Proof.
  apply (filterGoodVibes_keeps_positive (fun _ => 0%Q) 0 [Inputs.plain; Requests.art_walk]
           Requests.art_walk "art").
  - right. left. reflexivity.
  - intros banned Hb. apply includes_false_iff.
    destruct Hb as [<-|[<-|[<-|[<-|[<-|[]]]]]]; reflexivity.
  - left. reflexivity.
  - apply includes_occurs. reflexivity.
Defined.

(** X21. The router's filter returns a sublist of its input, in the input's
    order and free of items with a banned word, and it calls
    [Math.random] once for each item that has neither a banned nor a
    positive word and for no other item. *)
Theorem filterGoodVibes_selects (draws : nat -> Q) (calls : nat) (items : list Router.Item) :
  let run := Router.filterGoodVibes draws calls items in
  sublist (fst run) items
  /\ snd run = (calls + length (List.filter undecided items))%nat
  /\ Forall (fun item => Router.hasNegative item = false) (fst run).
Proof.
  cbn zeta. destruct (filterGoodVibes_facts draws items calls) as (Hsub & Hcalls & _).
  split; [exact Hsub|]. split; [exact Hcalls|].
  apply List.Forall_forall. intros item Hin.
  destruct (Router.hasNegative item) eqn:Hneg; [|reflexivity].
  apply router_hasNegative_true in Hneg as (banned & Hb & Ho).
  destruct (proj2 (router_banned_word_rejects item banned Hb Ho) draws calls items Hin).
Qed.

Lemma router_contribution_length (p : Router.Platform) (perFeed : Z) (sourceUrl : string) :
  (length (router_contribution p perFeed sourceUrl) <= Z.to_nat perFeed)%nat.
Proof.
  unfold router_contribution, Router.fetchOne.
  destruct (Router.fetch_text p sourceUrl) as [xmlText|e]; exc_norm; [|simpl; lia].
  rewrite parseRSSFeed_items. cbn [fst app].
  etransitivity; [apply flat_map_itemsOf_length|].
  unfold blocksRead. rewrite length_firstn. lia.
Qed.

Lemma flat_map_length_bound {A B} (f : A -> list B) (cap : nat) (l : list A) :
  (forall a, length (f a) <= cap)%nat -> (length (flat_map f l) <= length l * cap)%nat.
Proof.
  intros Hf. induction l as [|a l IH]; [simpl; lia|].
  cbn [flat_map length]. rewrite length_app. specialize (Hf a). lia.
Qed.

(** X22. A sourcing run of the router stores at most
    [n * ceil(maxItems / n)] items for its [n] feeds, the count of its
    answer is the number of items it stored, and it calls [Math.random]
    at most that many times; when the namespace cannot be written the
    namespace is left as it was. *)
Theorem router_run_bound (p : Router.Platform) (st : Router.State)
    (bodySources : list string) (category : string) (maxItems : Z) :
  let feeds := match bodySources with [] => Router.defaultSources | _ => bodySources end in
  let bound :=
    (length feeds * Z.to_nat (Router.ceil_div maxItems (Z.of_nat (length feeds))))%nat in
  let run := Router.handleSourceContent p st bodySources category maxItems in
  match fst run with
  | Router.Success contentId itemCount =>
      (itemCount <= bound)%nat
      /\ exists stored,
           Router.kv (snd run) !! ("content:" +:+ contentId) = Some (stored, 604800)
           /\ length (Router.content_items stored) = itemCount
  | Router.Failure _ _ => Router.kv (snd run) = Router.kv st
  end
  /\ (Router.random_calls st <= Router.random_calls (snd run)
      <= Router.random_calls st + bound)%nat.
Proof.
  cbn zeta. unfold Router.handleSourceContent.
  set (feeds := match bodySources with [] => Router.defaultSources | _ => bodySources end).
  set (perFeed := Router.ceil_div maxItems (Z.of_nat (length feeds))).
  pose proof (router_fetchAll_items p perFeed feeds (Router.console st)) as Hitems.
  destruct (Router.fetchAll p perFeed feeds (Router.console st)) as [fetched log].
  cbn [fst] in Hitems.
  destruct (filterGoodVibes_facts (Router.random_draws p) fetched (Router.random_calls st))
    as (Hsub & Hcalls & _).
  destruct (Router.filterGoodVibes _ _ fetched) as [kept calls]. cbn [fst snd] in Hsub, Hcalls.
  assert (Hfetched : (length fetched <= length feeds * Z.to_nat perFeed)%nat).
  { rewrite Hitems. apply flat_map_length_bound. intros url. apply router_contribution_length. }
  assert (Hkept : (length kept <= length fetched)%nat) by (apply sublist_length; exact Hsub).
  assert (Hund : (length (List.filter undecided fetched) <= length fetched)%nat)
    by apply List.filter_length_le.
  destruct (Router.kv_available p); cbn [fst snd Router.kv Router.random_calls Router.id].
  - split; [|lia]. split; [lia|]. eexists. split; [apply lookup_insert_eq|reflexivity].
  - split; [reflexivity|lia].
Qed.

(** ** Hostnames without the prefix *)

Lemma replace_first_absent (pat repl s : string) :
  JS.includes s pat = false -> JS.replace_first pat repl s = s.
Proof.
  induction s as [|c s IH].
  - rewrite includes_nil. intros H. apply orb_false_iff in H as [H _].
    cbn [JS.replace_first]. rewrite H. reflexivity.
  - rewrite includes_cons. intros H. apply orb_false_iff in H as [H1 H2].
    rewrite replace_first_cons by exact H1. rewrite IH by exact H2. reflexivity.
Qed.

(** X23. A link whose hostname does not contain [www.] has that hostname as
    its domain, unchanged. *)
Theorem extractDomain_keeps_other_hosts (URL_hostname : string -> JS.Exc string)
    (url : JS.jsval) (hostname : string) :
  URL_hostname (JS.to_string url) = JS.Ok hostname ->
  JS.includes hostname "www." = false ->
  Router.extractDomain URL_hostname url = JS.Ok hostname.
Proof.
  intros Hhost Hfree. rewrite extractDomain_cases, Hhost.
  rewrite replace_first_absent by exact Hfree. reflexivity.
Qed.

Lemma extractDomain_keeps_other_hosts_witness :
  Router.extractDomain Batches.simple_hostname (Some "https://la.eater.com/rss/index.xml")
  = JS.Ok "la.eater.com".
Proof.
  apply (extractDomain_keeps_other_hosts Batches.simple_hostname
           (Some "https://la.eater.com/rss/index.xml") "la.eater.com");
    vm_compute; reflexivity.
Defined.
